(** * ai-assistant-backend: quota and storage accounting of the upload pipeline

    A shallow embedding of [src/utils/limits.js], of the documents router
    of [src/routes/admin.js] (upload, document deletion), of the admin
    file-deletion route and of the storage backfill script, together with
    the properties the design document states about them; and of the code
    around them (reading a document, the user route, user deletion, the
    authentication and admin guards, the rate limiter, the audit log,
    [toNumber]), with further properties of the code itself.

    Conventions of the embedding.
    - Identifiers, paths, media types, plans and roles are only compared
      with [===]; they are Rocq [string]s.
    - Free text (extracted text, completion output) is measured with
      [.length] and matched against [\s]; it is a list of UTF-16 code
      units, [jsstring].
    - JavaScript integers ([Number] holding an INTEGER column, [BigInt]
      holding a BIGINT column) are [Z]; byte counts produced by the upload
      middleware are [N].
    - The relational store is a pair of finite maps keyed by primary key.
    - Handlers are written in a state-and-exception monad over the
      [World]. *)

From Stdlib Require Import ZArith NArith QArith Lia List.
From stdpp Require Import gmap strings list fin_maps.

Local Open Scope Z_scope.

(** ** JavaScript values that reach [getMonthlyLimit] *)

(** The value stored in a property that the code inspects with [typeof]. *)
Inductive JsVal : Type :=
  | VUndefined
  | VNull
  | VBoolean (b : bool)
  | VNumber (z : Z)
  | VString (s : string).

Definition typeof (v : JsVal) : string :=
  match v with
  | VUndefined => "undefined"
  | VNull => "object"
  | VBoolean _ => "boolean"
  | VNumber _ => "number"
  | VString _ => "string"
  end.

#[global] Instance JsVal_eq_dec : EqDecision JsVal.
Proof. solve_decision. Defined.

(** ** Data model *)

(** A row of the [user] table, restricted to the columns the modelled code
    reads or writes. [role] is a nullable column; [storageUsed] is read
    with [=== null] and [?? BigInt(0)] by the code, so it is nullable
    here. [lastReset] is a timestamp in milliseconds. *)
Record User : Type := mkUser {
  user_id : string;
  role : option string;
  plan : string;
  documentsUsed : Z;
  monthlyLimit : JsVal;
  storageUsed : option Z;
  lastReset : Z
}.

(** ** src/utils/limits.js *)

Definition isPremium (u : User) : bool :=
  bool_decide (plan u = "premium") || bool_decide (role u = Some "admin").

Definition baseLimit (u : User) : Z :=
  match monthlyLimit u with
  | VNumber z => z
  | _ => 5
  end.

Definition minLimit (u : User) : Z := if isPremium u then 100 else 0.

Definition getMonthlyLimit (u : User) : Z := Z.max (baseLimit u) (minLimit u).

Definition getRemainingDocuments (u : User) : Z :=
  Z.max (getMonthlyLimit u - documentsUsed u) 0.

(** ** JavaScript strings as UTF-16 code units *)

Definition jsstring : Type := list N.

(** An ASCII literal as a [jsstring]. *)
Definition js (s : string) : jsstring :=
  map Ascii.N_of_ascii (String.list_ascii_of_string s).

(** The code units matched by [\s] and removed by [String.prototype.trim]:
    the ECMAScript WhiteSpace and LineTerminator productions. *)
Definition isWhiteSpace (c : N) : bool :=
  ((9 <=? c) && (c <=? 13) || (c =? 32) || (c =? 160) || (c =? 5760)
   || (8192 <=? c) && (c <=? 8202) || (c =? 8232) || (c =? 8233)
   || (c =? 8239) || (c =? 8287) || (c =? 12288) || (c =? 65279))%N.

Fixpoint trimStart (s : jsstring) : jsstring :=
  match s with
  | c :: t => if isWhiteSpace c then trimStart t else s
  | [] => []
  end.

Definition trimEnd (s : jsstring) : jsstring := rev (trimStart (rev s)).

Definition trim (s : jsstring) : jsstring := trimEnd (trimStart s).

(** The leading run of white space, as matched by a greedy [\s*]. *)
Fixpoint spaces (s : jsstring) : nat :=
  match s with
  | c :: t => if isWhiteSpace c then S (spaces t) else O
  | [] => O
  end.

Fixpoint startsWith (p s : jsstring) : bool :=
  match p, s with
  | [], _ => true
  | a :: p', b :: s' => (a =? b)%N && startsWith p' s'
  | _ :: _, [] => false
  end.

#[global] Instance jsstring_eq_dec : EqDecision jsstring.
Proof. unfold jsstring. apply _. Defined.

(** ** The fence pattern [/^```json\s*|\s*```$/g]

    A pattern is modelled by its match function: given whether the
    position is index 0 and the input from that position on, it returns
    the length of the match found there, if any. The alternatives are
    tried in order. *)

(** First alternative, [^```json\s*]: only at index 0; the star is greedy
    and nothing follows it, so it takes the whole run of white space. *)
Definition matchOpenFence (atStart : bool) (rest : jsstring) : option nat :=
  if atStart && startsWith (js "```json") rest
  then Some (7 + spaces (drop 7 rest))%nat
  else None.

(** Second alternative, [\s*```$]: a run of white space, three backticks,
    end of input. A backtick is not white space, so giving back part of
    the greedy run cannot produce a match the full run does not. *)
Definition matchCloseFence (rest : jsstring) : option nat :=
  if bool_decide (drop (spaces rest) rest = js "```")
  then Some (length rest)
  else None.

Definition matchFence (atStart : bool) (rest : jsstring) : option nat :=
  match matchOpenFence atStart rest with
  | Some n => Some n
  | None => matchCloseFence rest
  end.

(** [s.replace(re, "")] for a global pattern: scan left to right, delete
    each match, resume after it. [skip] counts the code units of the
    current match that remain to be deleted. *)
Fixpoint deleteMatches (re : bool -> jsstring -> option nat)
    (skip : nat) (atStart : bool) (s : jsstring) : jsstring :=
  match s with
  | [] => []
  | c :: t =>
      match skip with
      | S k => deleteMatches re k false t
      | O =>
          match re atStart s with
          | Some (S k) => deleteMatches re k false t
          | Some O | None => c :: deleteMatches re O false t
          end
      end
  end.

Definition stripFence (responseText : jsstring) : jsstring :=
  deleteMatches matchFence O true responseText.

(** ** [JSON.parse]

    The built-in is modelled by a recursive-descent parser for the JSON
    grammar (ECMA-404). A number is kept as its source text. Members of an
    object are kept in source order; a property read takes the last member
    with the key, as the built-in does for duplicate keys. *)

#[local] Unset Elimination Schemes.
Inductive Json : Type :=
  | JNull
  | JBool (b : bool)
  | JNumber (lexeme : jsstring)
  | JString (s : jsstring)
  | JArray (items : list Json)
  | JObject (members : list (jsstring * Json)).
#[local] Set Elimination Schemes.

(** Outcome of a parsing function: a value and the unread input, a syntax
    error, or exhaustion of the recursion budget. *)
Inductive Parse (A : Type) : Type :=
  | Parsed (a : A) (rest : jsstring)
  | Unexpected
  | NoFuel.
Arguments Parsed {A} a rest.
Arguments Unexpected {A}.
Arguments NoFuel {A}.

(** JSON white space: tab, line feed, carriage return, space. *)
Definition isJsonSpace (c : N) : bool :=
  ((c =? 9) || (c =? 10) || (c =? 13) || (c =? 32))%N.

Fixpoint skipWs (s : jsstring) : jsstring :=
  match s with
  | c :: t => if isJsonSpace c then skipWs t else s
  | [] => []
  end.

Definition isDigit (c : N) : bool := ((48 <=? c) && (c <=? 57))%N.

Fixpoint digits (s : jsstring) : nat :=
  match s with
  | c :: t => if isDigit c then S (digits t) else O
  | [] => O
  end.

Definition hexValue (c : N) : option N :=
  (if (48 <=? c) && (c <=? 57) then Some (c - 48)
   else if (65 <=? c) && (c <=? 70) then Some (c - 55)
   else if (97 <=? c) && (c <=? 102) then Some (c - 87)
   else None)%N.

Definition hex4 (a b c d : N) : option N :=
  match hexValue a, hexValue b, hexValue c, hexValue d with
  | Some x, Some y, Some z, Some w => Some (((x * 16 + y) * 16 + z) * 16 + w)%N
  | _, _, _, _ => None
  end.

(** The character after a backslash, other than [u]. *)
Definition escapeChar (e : N) : option N :=
  (if e =? 34 then Some 34          (* quotation mark *)
   else if e =? 92 then Some 92     (* reverse solidus *)
   else if e =? 47 then Some 47     (* solidus *)
   else if e =? 98 then Some 8      (* backspace *)
   else if e =? 102 then Some 12    (* form feed *)
   else if e =? 110 then Some 10    (* line feed *)
   else if e =? 114 then Some 13    (* carriage return *)
   else if e =? 116 then Some 9     (* tab *)
   else None)%N.

(** The characters of a string literal after its opening quote, up to and
    including the closing quote; [acc] holds the decoded text, reversed. *)
Fixpoint parseChars (s : jsstring) (acc : jsstring) : Parse jsstring :=
  match s with
  | [] => Unexpected
  | c :: t =>
      if (c =? 34)%N then Parsed (rev acc) t
      else if (c =? 92)%N then
        match t with
        | [] => Unexpected
        | e :: t' =>
            if (e =? 117)%N then
              match t' with
              | h1 :: h2 :: h3 :: h4 :: t'' =>
                  match hex4 h1 h2 h3 h4 with
                  | Some u => parseChars t'' (u :: acc)
                  | None => Unexpected
                  end
              | _ => Unexpected
              end
            else
              match escapeChar e with
              | Some x => parseChars t' (x :: acc)
              | None => Unexpected
              end
        end
      else if (c <? 32)%N then Unexpected
      else parseChars t (c :: acc)
  end.

(** Length of the integer part at the head of [s]: a single [0], or a
    non-zero digit followed by digits. *)
Definition intPart (s : jsstring) : option nat :=
  match s with
  | c :: _ =>
      if (c =? 48)%N then Some 1%nat
      else if isDigit c then Some (digits s)
      else None
  | [] => None
  end.

(** Length of an optional fraction [. digit+]. *)
Definition fracPart (s : jsstring) : option nat :=
  match s with
  | c :: r =>
      if (c =? 46)%N
      then if (digits r =? 0)%nat then None else Some (1 + digits r)%nat
      else Some O
  | [] => Some O
  end.

(** Length of an optional exponent [(e|E) (+|-)? digit+]. *)
Definition expPart (s : jsstring) : option nat :=
  match s with
  | c :: r =>
      if ((c =? 101) || (c =? 69))%N then
        let sign := match r with
                    | x :: _ => if ((x =? 43) || (x =? 45))%N then 1%nat else O
                    | [] => O
                    end in
        if (digits (drop sign r) =? 0)%nat then None
        else Some (1 + sign + digits (drop sign r))%nat
      else Some O
  | [] => Some O
  end.

Definition parseNumber (s : jsstring) : Parse Json :=
  let neg := match s with
             | c :: _ => if (c =? 45)%N then 1%nat else O
             | [] => O
             end in
  match intPart (drop neg s) with
  | None => Unexpected
  | Some i =>
      match fracPart (drop (neg + i) s) with
      | None => Unexpected
      | Some f =>
          match expPart (drop (neg + i + f) s) with
          | None => Unexpected
          | Some x =>
              let n := (neg + i + f + x)%nat in
              Parsed (JNumber (take n s)) (drop n s)
          end
      end
  end.

Definition parseLiteral (word : string) (v : Json) (s : jsstring) : Parse Json :=
  if startsWith (js word) s
  then Parsed v (drop (length (js word)) s)
  else Unexpected.

Fixpoint parseValue (fuel : nat) (s : jsstring) : Parse Json :=
  match fuel with
  | O => NoFuel
  | S fuel' =>
      match skipWs s with
      | [] => Unexpected
      | c :: t =>
          if (c =? 123)%N then                       (* { *)
            match skipWs t with
            | c' :: r =>
                if (c' =? 125)%N then Parsed (JObject []) r
                else parseMembers fuel' t []
            | [] => Unexpected
            end
          else if (c =? 91)%N then                   (* [ *)
            match skipWs t with
            | c' :: r =>
                if (c' =? 93)%N then Parsed (JArray []) r
                else parseElements fuel' t []
            | [] => Unexpected
            end
          else if (c =? 34)%N then                   (* string *)
            match parseChars t [] with
            | Parsed str r => Parsed (JString str) r
            | Unexpected => Unexpected
            | NoFuel => NoFuel
            end
          else if (c =? 116)%N then parseLiteral "true" (JBool true) (c :: t)
          else if (c =? 102)%N then parseLiteral "false" (JBool false) (c :: t)
          else if (c =? 110)%N then parseLiteral "null" JNull (c :: t)
          else parseNumber (c :: t)
      end
  end
with parseElements (fuel : nat) (s : jsstring) (acc : list Json) : Parse Json :=
  match fuel with
  | O => NoFuel
  | S fuel' =>
      match parseValue fuel' s with
      | Parsed v r =>
          match skipWs r with
          | c :: r' =>
              if (c =? 44)%N then parseElements fuel' r' (v :: acc)
              else if (c =? 93)%N then Parsed (JArray (rev (v :: acc))) r'
              else Unexpected
          | [] => Unexpected
          end
      | Unexpected => Unexpected
      | NoFuel => NoFuel
      end
  end
with parseMembers (fuel : nat) (s : jsstring) (acc : list (jsstring * Json))
    : Parse Json :=
  match fuel with
  | O => NoFuel
  | S fuel' =>
      match skipWs s with
      | c :: t =>
          if (c =? 34)%N then
            match parseChars t [] with
            | Parsed k r =>
                match skipWs r with
                | c1 :: r1 =>
                    if (c1 =? 58)%N then
                      match parseValue fuel' r1 with
                      | Parsed v r2 =>
                          match skipWs r2 with
                          | c3 :: r3 =>
                              if (c3 =? 44)%N
                              then parseMembers fuel' r3 ((k, v) :: acc)
                              else if (c3 =? 125)%N
                              then Parsed (JObject (rev ((k, v) :: acc))) r3
                              else Unexpected
                          | [] => Unexpected
                          end
                      | Unexpected => Unexpected
                      | NoFuel => NoFuel
                      end
                    else Unexpected
                | [] => Unexpected
                end
            | Unexpected => Unexpected
            | NoFuel => NoFuel
            end
          else Unexpected
      | [] => Unexpected
      end
  end.

(** A budget that the parser cannot exhaust on [s] (see
    [parseValue_fuel]). *)
Definition parseFuel (s : jsstring) : nat := (2 * length s + 1)%nat.

(** ** Errors, results and the world *)

(** A thrown JavaScript error: its constructor name and its message. *)
Record Error : Type := mkError { err_name : string; err_message : string }.

Inductive Result (A : Type) : Type :=
  | Ok (a : A)
  | Throw (e : Error).
Arguments Ok {A} a.
Arguments Throw {A} e.

Definition syntaxError : Error := mkError "SyntaxError" "Unexpected token in JSON".
Definition typeError : Error :=
  mkError "TypeError" "Cannot read properties of undefined or null".
Definition enoent : Error := mkError "Error" "ENOENT: no such file or directory".
Definition recordNotFound : Error :=
  mkError "PrismaClientKnownRequestError" "P2025: record not found".
Definition uniqueViolation : Error :=
  mkError "PrismaClientKnownRequestError" "P2002: unique constraint failed".
Definition foreignKeyViolation : Error :=
  mkError "PrismaClientKnownRequestError" "P2003: foreign key constraint failed".

(** [JSON.parse(text)]: the whole text must be one value, surrounded by
    JSON white space only. *)
Definition JSON_parse (text : jsstring) : Result Json :=
  match parseValue (parseFuel text) text with
  | Parsed v r =>
      match skipWs r with
      | [] => Ok v
      | _ :: _ => Throw syntaxError
      end
  | Unexpected | NoFuel => Throw syntaxError
  end.

(** The file object the upload middleware attaches to the request. *)
Record File : Type := mkFile {
  file_path : string;
  file_filename : string;
  file_originalname : string;
  file_mimetype : string;
  file_size : N
}.

(** The [data] argument of [prisma.document.create]. A property read that
    yields [undefined] is [None]. *)
Record DocumentData : Type := mkDocumentData {
  data_userId : string;
  data_filename : string;
  data_originalName : string;
  data_fileType : string;
  data_fileSize : N;
  data_language : string;
  data_summary : option Json;
  data_flashcards : option Json;
  data_examQuestions : option Json
}.

(** A row of the [Document] table. *)
Record Document : Type := mkDocument {
  doc_id : string;
  doc_data : DocumentData;
  uploadDate : Z
}.

Definition userId (d : Document) : string := data_userId (doc_data d).
Definition fileSize (d : Document) : N := data_fileSize (doc_data d).
Definition originalName (d : Document) : string := data_originalName (doc_data d).

(** The instruction sent to the completion service is a fixed template
    with two holes: the language name and the head of the document. *)
Record Prompt : Type := mkPrompt {
  prompt_languageName : string;
  prompt_document : jsstring
}.

Record AuditEntry : Type := mkAuditEntry {
  audit_adminId : string;
  audit_action : string;
  audit_targetId : string
}.

(** What the external collaborators answer. [chatCompletion n p] is the
    outcome of the call made after [n] earlier calls: the [content] of
    each returned choice ([None] for a null content), or a rejection.
    [documentInsert] is the store's verdict on a new Document row: the
    generated id and the default [uploadDate], or a write error. *)
Record Env : Type := mkEnv {
  now : Z;
  pdfParse : list N -> Result jsstring;
  mammothExtractRawText : list N -> Result jsstring;
  chatCompletion : nat -> Prompt -> Result (list (option jsstring));
  documentInsert : DocumentData -> Result (string * Z);
  auditInsert : AuditEntry -> Result unit
}.

Record World : Type := mkWorld {
  users : gmap string User;
  documents : gmap string Document;
  files : gmap string (list N);
  completionCalls : list Prompt;
  auditLog : list AuditEntry
}.

Definition setUsers (f : gmap string User -> gmap string User) (w : World) : World :=
  mkWorld (f (users w)) (documents w) (files w) (completionCalls w) (auditLog w).
Definition setDocuments (f : gmap string Document -> gmap string Document)
    (w : World) : World :=
  mkWorld (users w) (f (documents w)) (files w) (completionCalls w) (auditLog w).
Definition setFiles (f : gmap string (list N) -> gmap string (list N))
    (w : World) : World :=
  mkWorld (users w) (documents w) (f (files w)) (completionCalls w) (auditLog w).

(** ** The monad of handlers: state with exceptions

    A thrown error keeps the world as it was when it was thrown: none of
    the modelled code runs in a store transaction, except the backfill. *)

Definition M (A : Type) : Type := World -> Result A * World.

Definition ret {A} (a : A) : M A := fun w => (Ok a, w).
Definition throw {A} (e : Error) : M A := fun w => (Throw e, w).
Definition bind {A B} (m : M A) (k : A -> M B) : M B :=
  fun w =>
    match m w with
    | (Ok a, w') => k a w'
    | (Throw e, w') => (Throw e, w')
    end.
Definition tryCatch {A} (m : M A) (handler : Error -> M A) : M A :=
  fun w =>
    match m w with
    | (Ok a, w') => (Ok a, w')
    | (Throw e, w') => handler e w'
    end.
Definition lift {A} (r : Result A) : M A := fun w => (r, w).

Declare Scope js_scope.
Delimit Scope js_scope with js.
Notation "x <- m ;; k" := (bind m (fun x => k))
  (at level 100, m at next level, right associativity) : js_scope.
Notation "m ;; k" := (bind m (fun _ => k))
  (at level 100, right associativity) : js_scope.
Local Open Scope js_scope.

(** [promise.catch(() => {})] *)
Definition swallow (m : M unit) : M unit := tryCatch m (fun _ => ret tt).

(** ** The store client and the file system *)

(** [prisma.user.findUnique({ where: { id } })] *)
Definition userFindUnique (id : string) : M (option User) :=
  fun w => (Ok (users w !! id), w).

(** [prisma.user.update({ where: { id }, data })]: rejects when there is
    no such row, otherwise writes the row and resolves to it. *)
Definition userUpdate (id : string) (data : User -> User) : M User :=
  fun w =>
    match users w !! id with
    | Some u => (Ok (data u), setUsers (insert id (data u)) w)
    | None => (Throw recordNotFound, w)
    end.

(** [prisma.user.updateMany({ data })] *)
Definition userUpdateMany (data : User -> User) : M unit :=
  fun w => (Ok tt, setUsers (fmap data) w).

(** [prisma.document.findUnique({ where: { id } })] *)
Definition documentFindUnique (id : string) : M (option Document) :=
  fun w => (Ok (documents w !! id), w).

(** [prisma.document.create({ data })]: the primary key is unique and
    [userId] references an existing user. *)
Definition documentCreate (env : Env) (data : DocumentData) : M Document :=
  fun w =>
    match documentInsert env data with
    | Throw e => (Throw e, w)
    | Ok (id, date) =>
        match documents w !! id, users w !! data_userId data with
        | Some _, _ => (Throw uniqueViolation, w)
        | None, None => (Throw foreignKeyViolation, w)
        | None, Some _ =>
            let d := mkDocument id data date in
            (Ok d, setDocuments (insert id d) w)
        end
    end.

(** [prisma.document.delete({ where: { id } })] *)
Definition documentDelete (id : string) : M unit :=
  fun w =>
    match documents w !! id with
    | Some _ => (Ok tt, setDocuments (delete id) w)
    | None => (Throw recordNotFound, w)
    end.

(** [fs.unlink(path)] *)
Definition unlink (path : string) : M unit :=
  fun w =>
    match files w !! path with
    | Some _ => (Ok tt, setFiles (delete path) w)
    | None => (Throw enoent, w)
    end.

(** [fs.readFile(path)] *)
Definition readFile (path : string) : M (list N) :=
  fun w =>
    match files w !! path with
    | Some content => (Ok content, w)
    | None => (Throw enoent, w)
    end.

(** [openai.chat.completions.create(...)]: every call is recorded. *)
Definition createChatCompletion (env : Env) (prompt : Prompt)
    : M (list (option jsstring)) :=
  fun w =>
    (chatCompletion env (length (completionCalls w)) prompt,
     mkWorld (users w) (documents w) (files w)
       (completionCalls w ++ [prompt]) (auditLog w)).

(** src/utils/auditLog.js: a failed write is logged and swallowed. *)
Definition logAdminAction (env : Env) (entry : AuditEntry) : M unit :=
  tryCatch
    (fun w =>
       match auditInsert env entry with
       | Ok _ =>
           (Ok tt, mkWorld (users w) (documents w) (files w)
                     (completionCalls w) (auditLog w ++ [entry]))
       | Throw e => (Throw e, w)
       end)
    (fun _ => ret tt).

(** ** Field updates used as the [data] of a store update *)

Definition withReset (now : Z) (u : User) : User :=
  mkUser (user_id u) (role u) (plan u) 0 (monthlyLimit u) (storageUsed u) now.

Definition withStorage (s : option Z) (u : User) : User :=
  mkUser (user_id u) (role u) (plan u) (documentsUsed u) (monthlyLimit u) s
    (lastReset u).

(** [{ documentsUsed: { increment: 1 }, storageUsed: { increment: size } }]:
    the store adds to the column; a null column stays null. *)
Definition withUpload (size : Z) (u : User) : User :=
  mkUser (user_id u) (role u) (plan u) (documentsUsed u + 1) (monthlyLimit u)
    ((fun s => s + size) <$> storageUsed u) (lastReset u).

(** [owner?.storageUsed ?? BigInt(0)] *)
Definition storageOrZero (owner : option User) : Z :=
  match owner with
  | Some u => match storageUsed u with Some s => s | None => 0 end
  | None => 0
  end.

(** ** The documents router: text extraction and generation *)

Definition mimePdf : string := "application/pdf".
Definition mimeDocx : string :=
  "application/vnd.openxmlformats-officedocument.wordprocessingml.document".
Definition mimePptx : string :=
  "application/vnd.openxmlformats-officedocument.presentationml.presentation".

Definition extractTextFromFile (env : Env) (filepath mimetype : string)
    : M jsstring :=
  tryCatch
    (if bool_decide (mimetype = mimePdf) then
       dataBuffer <- readFile filepath ;;
       lift (pdfParse env dataBuffer)
     else if bool_decide (mimetype = mimeDocx) then
       content <- readFile filepath ;;
       lift (mammothExtractRawText env content)
     else if bool_decide (mimetype = mimePptx) then
       ret (js "PowerPoint content extraction - implement with pptx parser library")
     else ret [])
    (fun error => throw error).

(** [completion.choices[0].message.content]: reading through a missing
    choice, or calling [trim] on a null content, throws. *)
Definition firstContent (choices : list (option jsstring)) : Result jsstring :=
  match choices with
  | Some content :: _ => Ok content
  | None :: _ | [] => Throw typeError
  end.

Definition generateStudyMaterials (env : Env) (text : jsstring)
    (language : string) : M Json :=
  let languageName :=
    if bool_decide (language = "arabic") then "Arabic" else "English" in
  let prompt := mkPrompt languageName (take (Z.to_nat 8000) text) in
  tryCatch
    (choices <- createChatCompletion env prompt ;;
     content <- lift (firstContent choices) ;;
     let responseText := trim content in
     let cleanedResponse := stripFence responseText in
     lift (JSON_parse cleanedResponse))
    (fun error => throw error).

(** ** Monthly reset *)

Definition msPerDay : Z := 1000 * 60 * 60 * 24.

Definition daysSinceReset (now last : Z) : Q :=
  (inject_Z (now - last) / inject_Z msPerDay)%Q.

Definition Qltb (x y : Q) : bool := negb (Qle_bool y x).

Definition resetMonthlyUsageIfNeeded (env : Env) (user : User) : M User :=
  if Qltb (daysSinceReset (now env) (lastReset user)) (inject_Z 30)
  then ret user
  else userUpdate (user_id user) (withReset (now env)).

(** ** Requests and responses *)

Record SessionUser : Type := mkSessionUser {
  session_id : string;
  session_role : option string
}.

Record UploadRequest : Type := mkUploadRequest {
  upload_session : SessionUser;
  upload_language : option string;
  upload_file : option File
}.

Inductive Body : Type :=
  | ErrorBody (error : string) (details : option string)
  | UploadedBody (id filename : string)
      (summary flashcards examQuestions : option Json) (date : Z)
  | SuccessBody (message : option string).

Record Response : Type := mkResponse { status : Z; body : Body }.

Definition json (b : Body) : M Response := ret (mkResponse 200 b).
Definition statusJson (code : Z) (b : Body) : M Response := ret (mkResponse code b).

(** A property read on a parsed value: reading through [null] throws, a
    missing property is [undefined]. *)
Fixpoint lastMember (key : jsstring) (members : list (jsstring * Json))
    : option Json :=
  match members with
  | [] => None
  | (k, v) :: rest =>
      match lastMember key rest with
      | Some v' => Some v'
      | None => if bool_decide (k = key) then Some v else None
      end
  end.

Definition getProperty (v : Json) (key : string) : Result (option Json) :=
  match v with
  | JNull => Throw typeError
  | JObject members => Ok (lastMember (js key) members)
  | _ => Ok None
  end.

(** ** POST /upload *)

Definition uploadBody (env : Env) (req : UploadRequest) : M Response :=
  let user := upload_session req in
  let selectedLanguage :=
    if bool_decide (upload_language req = Some "arabic")
    then "arabic" else "english" in
  match upload_file req with
  | None => statusJson 400 (ErrorBody "No file uploaded" None)
  | Some file =>
      found <- userFindUnique (session_id user) ;;
      match found with
      | None =>
          swallow (unlink (file_path file)) ;;
          statusJson 404 (ErrorBody "User not found" None)
      | Some dbUser =>
          dbUser <- resetMonthlyUsageIfNeeded env dbUser ;;
          dbUser <- match storageUsed dbUser with
                    | None =>
                        userUpdate (user_id dbUser) (withStorage (Some 0)) ;;
                        ret (withStorage (Some 0) dbUser)
                    | Some _ => ret dbUser
                    end ;;
          let monthlyLimit := getMonthlyLimit dbUser in
          if monthlyLimit <=? documentsUsed dbUser then
            swallow (unlink (file_path file)) ;;
            statusJson 403
              (ErrorBody "Monthly upload limit reached"
                 (Some (if isPremium dbUser
                        then "Upgrade for more" else "Free limit reached")))
          else
            text <- extractTextFromFile env (file_path file) (file_mimetype file) ;;
            if bool_decide (text = []) || (length (trim text) <? 50)%nat then
              swallow (unlink (file_path file)) ;;
              statusJson 400
                (ErrorBody "Could not extract enough text from file" None)
            else
              studyMaterials <- generateStudyMaterials env text selectedLanguage ;;
              summary <- lift (getProperty studyMaterials "summary") ;;
              flashcards <- lift (getProperty studyMaterials "flashcards") ;;
              examQuestions <- lift (getProperty studyMaterials "examQuestions") ;;
              document <- documentCreate env
                (mkDocumentData (session_id user) (file_filename file)
                   (file_originalname file) (file_mimetype file)
                   (file_size file) selectedLanguage
                   summary flashcards examQuestions) ;;
              userUpdate (session_id user) (withUpload (Z.of_N (file_size file))) ;;
              swallow (unlink (file_path file)) ;;
              json (UploadedBody (doc_id document) (originalName document)
                      (data_summary (doc_data document))
                      (data_flashcards (doc_data document))
                      (data_examQuestions (doc_data document))
                      (uploadDate document))
      end
  end.

Definition upload (env : Env) (req : UploadRequest) : M Response :=
  tryCatch (uploadBody env req)
    (fun error =>
       match upload_file req with
       | Some file => swallow (unlink (file_path file))
       | None => ret tt
       end ;;
       statusJson 500
         (ErrorBody "Failed to process document" (Some (err_message error)))).

(** ** DELETE /document/:id *)

Record DeleteRequest : Type := mkDeleteRequest {
  delete_session : SessionUser;
  delete_params_id : string
}.

(** [nextStorage > 0 ? nextStorage : BigInt(0)] *)
Definition floorAtZero (nextStorage : Z) : Z :=
  if 0 <? nextStorage then nextStorage else 0.

Definition deleteDocument (req : DeleteRequest) : M Response :=
  tryCatch
    (found <- documentFindUnique (delete_params_id req) ;;
     match found with
     | None => statusJson 404 (ErrorBody "Document not found" None)
     | Some document =>
         let isAdmin :=
           bool_decide (session_role (delete_session req) = Some "admin") in
         if negb isAdmin
            && negb (bool_decide (userId document = session_id (delete_session req)))
         then statusJson 403 (ErrorBody "Access denied" None)
         else
           documentDelete (doc_id document) ;;
           owner <- userFindUnique (userId document) ;;
           let currentStorage := storageOrZero owner in
           let nextStorage := currentStorage - Z.of_N (fileSize document) in
           userUpdate (userId document)
             (withStorage (Some (floorAtZero nextStorage))) ;;
           json (SuccessBody (Some "Document deleted"))
     end)
    (fun _ => statusJson 500 (ErrorBody "Failed to delete document" None)).

(** ** DELETE /users/:id/files/:documentId (admin router) *)

Record AdminDeleteRequest : Type := mkAdminDeleteRequest {
  admin_session : SessionUser;
  admin_id : string;
  admin_documentId : string
}.

Definition adminDeleteFile (env : Env) (req : AdminDeleteRequest) : M Response :=
  let id := admin_id req in
  let documentId := admin_documentId req in
  tryCatch
    (found <- documentFindUnique documentId ;;
     match found with
     | None => statusJson 404 (ErrorBody "Document not found" None)
     | Some document =>
         if negb (bool_decide (userId document = id))
         then statusJson 404 (ErrorBody "Document not found" None)
         else
           documentDelete documentId ;;
           owner <- userFindUnique id ;;
           let currentStorage := storageOrZero owner in
           let nextStorage := currentStorage - Z.of_N (fileSize document) in
           userUpdate id (withStorage (Some (floorAtZero nextStorage))) ;;
           logAdminAction env
             (mkAuditEntry (session_id (admin_session req)) "DELETE_USER_FILE" id) ;;
           json (SuccessBody None)
     end)
    (fun _ => statusJson 500 (ErrorBody "Failed to delete file" None)).

(** ** The storage backfill script *)

(** The documents of the table, in the store's row order. *)
Definition documentRows (w : World) : list Document :=
  (map_to_list (documents w)).*2.

(** [SUM(fileSize)] over the rows of one user. *)
Definition sumFileSize (uid : string) (rows : list Document) : N :=
  foldr (fun d acc =>
           if bool_decide (userId d = uid) then (fileSize d + acc)%N else acc)
    0%N rows.

(** [prisma.document.groupBy({ by: ["userId"], _sum: { fileSize: true } })]:
    one summary per user id that occurs, with the sum over its rows. *)
Definition documentGroupBy : M (list (string * option N)) :=
  fun w =>
    let rows := documentRows w in
    (Ok ((fun uid => (uid, Some (sumFileSize uid rows)))
           <$> remove_dups (userId <$> rows)), w).

Fixpoint sequenceM {A} (ms : list (M A)) : M (list A) :=
  match ms with
  | [] => ret []
  | m :: rest =>
      a <- m ;;
      others <- sequenceM rest ;;
      ret (a :: others)
  end.

(** [prisma.$transaction(updates)]: the updates run in order; if one
    rejects, none of them is applied. *)
Definition transaction {A} (ms : list (M A)) : M (list A) :=
  fun w =>
    match sequenceM ms w with
    | (Ok results, w') => (Ok results, w')
    | (Throw e, _) => (Throw e, w)
    end.

(** [summary._sum.fileSize || 0] *)
Definition orZero (sum : option N) : N :=
  match sum with
  | Some n => if (n =? 0)%N then 0%N else n
  | None => 0%N
  end.

Definition run : M unit :=
  userUpdateMany (withStorage (Some 0)) ;;
  summaries <- documentGroupBy ;;
  let updates :=
    (fun summary : string * option N =>
       userUpdate (fst summary)
         (withStorage (Some (Z.of_N (orZero (snd summary)))))) <$> summaries in
  transaction updates ;;
  ret tt.

(** ** Answers of the routes that read *)

(** [res.status(code).json({ error })], or [res.json(payload)]. *)
Inductive Answer (A : Type) : Type :=
  | Refused (code : Z) (error : string)
  | Served (payload : A).
Arguments Refused {A} code error.
Arguments Served {A} payload.

(** ** GET /document/:id (documents router) *)

Record DocumentRequest : Type := mkDocumentRequest {
  document_session : SessionUser;
  document_params_id : string
}.

Definition getDocument (req : DocumentRequest) : M (Answer Document) :=
  tryCatch
    (found <- documentFindUnique (document_params_id req) ;;
     match found with
     | None => ret (Refused 404 "Document not found")
     | Some document =>
         let isAdmin :=
           bool_decide (session_role (document_session req) = Some "admin") in
         if negb isAdmin
            && negb (bool_decide (userId document = session_id (document_session req)))
         then ret (Refused 403 "Access denied")
         else ret (Served document)
     end)
    (fun _ => ret (Refused 500 "Failed to fetch document")).

(** ** src/utils/serializers.js *)

(** [Number(value)] for a BigInt: the nearest double, ties to even. A
    double carries 53 significant bits; the result is finite below
    2^1024, and a BIGINT column holds 64 bits. *)
Definition numberOfBigInt (z : Z) : Z :=
  let magnitude := Z.abs z in
  let excess := Z.log2 magnitude + 1 - 53 in
  if excess <=? 0 then z
  else
    let kept := Z.shiftr magnitude excess in
    let dropped := magnitude - Z.shiftl kept excess in
    let half := Z.shiftl 1 (excess - 1) in
    let rounded :=
      if (half <? dropped) || ((dropped =? half) && Z.odd kept)
      then kept + 1 else kept in
    Z.sgn z * Z.shiftl rounded excess.

(** A value handed to [toNumber]: a BigInt, an integral Number, or
    anything else ([null], [undefined], ...). *)
Inductive Numeric : Type :=
  | OfBigInt (z : Z)
  | OfNumber (z : Z)
  | OfOther.

Definition toNumber (value : Numeric) (fallback : Z) : Z :=
  match value with
  | OfBigInt z => numberOfBigInt z
  | OfNumber z => z
  | OfOther => fallback
  end.

(** The nullable BIGINT column as the store client returns it. *)
Definition storageColumn (u : User) : Numeric :=
  match storageUsed u with
  | Some s => OfBigInt s
  | None => OfOther
  end.

(** ** GET /me (user router) *)

(** The [user] object of the answer. The columns [email], [name] and
    [lastActive], which the route copies from the row as they are, are
    not part of the model of a row. *)
Record MeUser : Type := mkMeUser {
  me_id : string;
  me_role : option string;
  me_plan : string;
  me_documentsUsed : Z;
  me_monthlyLimit : Z;
  me_remainingDocuments : Z;
  me_storageUsed : Z
}.

Record MeBody : Type := mkMeBody {
  me_user : MeUser;
  me_documents : list Document
}.

(** [include: { documents: true }]: the rows of Document that reference
    the user. *)
Definition documentsOf (uid : string) (w : World) : list Document :=
  filter (fun d => userId d = uid) (documentRows w).

Definition userFindUniqueIncluding (id : string) : M (option (User * list Document)) :=
  fun w => (Ok ((fun u => (u, documentsOf (user_id u) w)) <$> users w !! id), w).

Definition userUpdateIncluding (id : string) (data : User -> User)
    : M (User * list Document) :=
  user <- userUpdate id data ;;
  fun w => (Ok (user, documentsOf (user_id user) w), w).

Definition me (env : Env) (session : SessionUser) : M (Answer MeBody) :=
  tryCatch
    (let userId := session_id session in
     found <- userFindUniqueIncluding userId ;;
     match found with
     | None => ret (Refused 404 "User not found")
     | Some user =>
         user <- (if Qle_bool (inject_Z 30)
                       (daysSinceReset (now env) (lastReset (fst user)))
                  then userUpdateIncluding (user_id (fst user)) (withReset (now env))
                  else ret user) ;;
         let monthlyLimit := getMonthlyLimit (fst user) in
         ret (Served
                (mkMeBody
                   (mkMeUser (user_id (fst user)) (role (fst user)) (plan (fst user))
                      (documentsUsed (fst user)) monthlyLimit
                      (Z.max (monthlyLimit - documentsUsed (fst user)) 0)
                      (toNumber (storageColumn (fst user)) 0))
                   (snd user)))
     end)
    (fun _ => ret (Refused 500 "Failed to fetch user data")).

(** ** The admin guard (src/middleware/auth.js) *)

(** What a middleware does with a request: [next()], or an answer of its
    own. *)
Inductive Verdict : Type :=
  | Next
  | Halt (code : Z) (error : string).

(** [req.session?.user] is the argument; an id that is the empty string is
    falsy. *)
Definition requireAdmin (session : option SessionUser) : M Verdict :=
  tryCatch
    (match session with
     | None => ret (Halt 401 "Unauthorized")
     | Some sessionUser =>
         if bool_decide (session_id sessionUser = "")
         then ret (Halt 401 "Unauthorized")
         else
           user <- userFindUnique (session_id sessionUser) ;;
           match user with
           | None => ret (Halt 403 "Forbidden")
           | Some user =>
               if negb (bool_decide (role user = Some "admin"))
               then ret (Halt 403 "Forbidden")
               else ret Next
           end
     end)
    (fun _ => ret (Halt 500 "Admin guard failed")).

(** [router.use(middleware)] in front of a handler: the handler runs when
    every middleware, in order, calls [next()]. *)
Fixpoint behind (middlewares : list (M Verdict)) (handler : M Response)
    : M Response :=
  match middlewares with
  | [] => handler
  | middleware :: rest =>
      verdict <- middleware ;;
      match verdict with
      | Next => behind rest handler
      | Halt code error => statusJson code (ErrorBody error None)
      end
  end.

(** ** DELETE /users/:id (admin router) *)

(** [prisma.user.delete({ where: { id } })]: the rows of Document that
    reference the user go with it ([ON DELETE CASCADE] on
    [Document_userId_fkey]). *)
Definition userDelete (id : string) : M unit :=
  fun w =>
    match users w !! id with
    | Some _ =>
        (Ok tt,
         mkWorld (delete id (users w))
           (filter (fun row => userId (snd row) <> id) (documents w))
           (files w) (completionCalls w) (auditLog w))
    | None => (Throw recordNotFound, w)
    end.

Record AdminUserRequest : Type := mkAdminUserRequest {
  adminUser_session : SessionUser;
  adminUser_id : string
}.

Definition adminDeleteUser (env : Env) (req : AdminUserRequest) : M Response :=
  let id := adminUser_id req in
  tryCatch
    (user <- userFindUnique id ;;
     match user with
     | None => statusJson 404 (ErrorBody "User not found" None)
     | Some _ =>
         userDelete id ;;
         logAdminAction env
           (mkAuditEntry (session_id (adminUser_session req)) "DELETE_USER" id) ;;
         json (SuccessBody None)
     end)
    (fun _ => statusJson 500 (ErrorBody "Failed to delete user" None)).

(** ** The upload middleware's file filter *)

Definition allowedTypes : list string := [mimePdf; mimeDocx; mimePptx].

(** [cb(null, true)], or [cb(new Error(...))]. *)
Definition fileFilter (mimetype : string) : Result bool :=
  if bool_decide (mimetype ∈ allowedTypes) then Ok true
  else Throw (mkError "Error"
                "Invalid file type. Only PDF, DOCX, and PPTX files are allowed.").

(** ** The rate limiter (src/middleware/rateLimit.js) *)

(** The parts of a request the limiter reads: the [x-forwarded-for]
    header when it is a string, [req.ip], and [req.session?.user].
    [None] is [undefined]. *)
Record ClientRequest : Type := mkClientRequest {
  client_forwardedFor : option jsstring;
  client_ip : option jsstring;
  client_session : option SessionUser
}.

(** [text.split(",")[0]] *)
Fixpoint firstField (text : jsstring) : jsstring :=
  match text with
  | [] => []
  | c :: rest => if (c =? 44)%N then [] else c :: firstField rest
  end.

(** [req.ip || "unknown"] *)
Definition ipOrUnknown (req : ClientRequest) : jsstring :=
  match client_ip req with
  | Some (c :: rest) => c :: rest
  | Some [] | None => js "unknown"
  end.

(** [getIpAddress] of the admin router. *)
Definition getIpAddress (req : ClientRequest) : jsstring :=
  match client_forwardedFor req with
  | Some (c :: rest) => trim (firstField (c :: rest))
  | Some [] | None => ipOrUnknown req
  end.

(** The key of a bucket: any value a key generator returns, [None] being
    [undefined]. *)
Definition Key : Type := option jsstring.

Definition getKey (req : ClientRequest) (keyGenerator : option (ClientRequest -> Key))
    : Key :=
  match keyGenerator with
  | Some generate => generate req
  | None =>
      match client_forwardedFor req with
      | Some (c :: rest) => Some (trim (firstField (c :: rest)))
      | Some [] | None => Some (ipOrUnknown req)
      end
  end.

Record Entry : Type := mkEntry { entry_start : Z; entry_count : Z }.

(** The middleware returned by [createRateLimiter], applied to a request
    that arrives at time [now] ([Date.now()]) when the closure's map is
    [hits]: its verdict and the map afterwards. *)
Definition rateLimiter (windowMs max : Z)
    (keyGenerator : option (ClientRequest -> Key))
    (now : Z) (req : ClientRequest) (hits : gmap Key Entry)
    : Verdict * gmap Key Entry :=
  let key := getKey req keyGenerator in
  match hits !! key with
  | None => (Next, <[key := mkEntry now 1]> hits)
  | Some entry =>
      if windowMs <? now - entry_start entry
      then (Next, <[key := mkEntry now 1]> hits)
      else
        let count := entry_count entry + 1 in
        let hits' := <[key := mkEntry (entry_start entry) count]> hits in
        if max <? count then (Halt 429 "Too many requests", hits')
        else (Next, hits')
  end.

(** [createRateLimiter({ windowMs = 60000, max = 120, keyGenerator })] *)
Definition createRateLimiter (windowMs max : option Z)
    (keyGenerator : option (ClientRequest -> Key)) :=
  rateLimiter (default 60000 windowMs) (default 120 max) keyGenerator.

(** The limiter of the admin router: [req.session?.user?.id || req.ip]. *)
Definition adminKeyGenerator (req : ClientRequest) : Key :=
  match client_session req with
  | Some sessionUser =>
      if bool_decide (session_id sessionUser = "") then client_ip req
      else Some (js (session_id sessionUser))
  | None => client_ip req
  end.

Definition adminLimiter := createRateLimiter (Some 60000) (Some 120) (Some adminKeyGenerator).

(** ** The authentication guard (src/middleware/auth.js) *)

(** [session.user] of a session: the id, the role and the email, which
    may be missing. *)
Record AuthUser : Type := mkAuthUser {
  auth_id : string;
  auth_role : option string;
  auth_email : option jsstring
}.

(** A session; its [user] may be missing. *)
Record Session : Type := mkSession { session_user : option AuthUser }.

(** What the guard depends on besides the store: the outcome of
    [auth.api.getSession] ([None] is no session),
    [String.prototype.toLowerCase], and [process.env.ADMIN_EMAILS]. *)
Record AuthEnv : Type := mkAuthEnv {
  getSession : Result (option Session);
  toLowerCase : jsstring -> jsstring;
  ADMIN_EMAILS : option jsstring
}.

(** [text.split(",")] *)
Fixpoint splitComma (text : jsstring) : list jsstring :=
  match text with
  | [] => [[]]
  | c :: rest =>
      if (c =? 44)%N then [] :: splitComma rest
      else
        match splitComma rest with
        | field :: fields => (c :: field) :: fields
        | [] => [[c]]
        end
  end.

(** The set of admin emails: the entries of [ADMIN_EMAILS], or of the
    empty string when it is not set, trimmed and lowered, the empty ones
    left out. *)
Definition parseAdminEmails (auth : AuthEnv) : list jsstring :=
  let raw := default [] (ADMIN_EMAILS auth) in
  filter (fun email => email <> [])
    ((fun email => toLowerCase auth (trim email)) <$> splitComma raw).

(** [{ role: "admin" }] as the [data] of a store update. *)
Definition withRole (r : option string) (u : User) : User :=
  mkUser (user_id u) r (plan u) (documentsUsed u) (monthlyLimit u)
    (storageUsed u) (lastReset u).

(** What [requireAuth] does with a request: an answer of its own, or
    [next()] with the session it has put on the request. *)
Inductive Authentication : Type :=
  | Rejected (code : Z) (error : string)
  | Accepted (session : Session).

(** [req.session.user.role = "admin"] *)
Definition elevate (session : Session) : Session :=
  mkSession
    ((fun user => mkAuthUser (auth_id user) (Some "admin") (auth_email user))
       <$> session_user session).

(** The [lastActive] column that every request updates is not part of the
    model of a row: an update that sets nothing else rewrites the row as
    it is, and still rejects when there is no row. *)
Definition requireAuth (auth : AuthEnv) : M Authentication :=
  let adminEmails := parseAdminEmails auth in
  tryCatch
    (session <- lift (getSession auth) ;;
     match session with
     | None => ret (Rejected 401 "Unauthorized")
     | Some session =>
         let email :=
           match session_user session with
           | Some user =>
               match auth_email user with
               | Some email => toLowerCase auth email
               | None => []
               end
           | None => []
           end in
         let shouldElevate := bool_decide (email ∈ adminEmails) in
         elevated <- (if shouldElevate then
                        match session_user session with
                        | Some user =>
                            ret (negb (bool_decide (auth_role user = Some "admin")))
                        | None => throw typeError
                        end
                      else ret false) ;;
         let session := if elevated then elevate session else session in
         swallow
           (match session_user session with
            | Some user =>
                userUpdate (auth_id user)
                  (if elevated then withRole (Some "admin") else fun u => u) ;;
                ret tt
            | None => throw typeError
            end) ;;
         ret (Accepted session)
     end)
    (fun _ => ret (Rejected 500 "Auth check failed")).

(** [req.session.user] as the routers read it. *)
Definition sessionUser (user : AuthUser) : SessionUser :=
  mkSessionUser (auth_id user) (auth_role user).

(** * Notions used in the statements *)

(** The premium floor as the design document words it. *)
Definition premiumFloor (u : User) : Z :=
  if decide (plan u = "premium" \/ role u = Some "admin") then 100 else 0.

(** A run of white space. *)
Definition allSpace (s : jsstring) : Prop := Forall (fun c => isWhiteSpace c = true) s.

(** ** The upload handler in closed form

    The notions below describe, without the monad, what each stage of the
    upload handler computes; [upload_outcome] proves that the handler
    agrees with them. *)

(** The user row after the monthly-reset step. *)
Definition afterReset (env : Env) (u : User) : User :=
  if Qltb (daysSinceReset (now env) (lastReset u)) (inject_Z 30)
  then u
  else withReset (now env) u.

(** The user row after the initialisation of a null storage counter. *)
Definition afterStorageInit (u : User) : User :=
  match storageUsed u with
  | None => withStorage (Some 0) u
  | Some _ => u
  end.

(** The user row on which the quota is evaluated. *)
Definition validated (env : Env) (u : User) : User :=
  afterStorageInit (afterReset env u).

(** The text extracted from a file of the given media type and content
    ([None] when there is no file at the path). *)
Definition extracted (env : Env) (mimetype : string) (content : option (list N))
    : Result jsstring :=
  if bool_decide (mimetype = mimePdf) then
    match content with
    | Some c => pdfParse env c
    | None => Throw enoent
    end
  else if bool_decide (mimetype = mimeDocx) then
    match content with
    | Some c => mammothExtractRawText env c
    | None => Throw enoent
    end
  else if bool_decide (mimetype = mimePptx) then
    Ok (js "PowerPoint content extraction - implement with pptx parser library")
  else Ok [].

Definition promptFor (text : jsstring) (language : string) : Prompt :=
  mkPrompt (if bool_decide (language = "arabic") then "Arabic" else "English")
    (take (Z.to_nat 8000) text).

(** What the generator makes of the answer to its one call. *)
Definition parsedAnswer (answer : Result (list (option jsstring))) : Result Json :=
  match answer with
  | Throw e => Throw e
  | Ok choices =>
      match firstContent choices with
      | Throw e => Throw e
      | Ok content => JSON_parse (stripFence (trim content))
      end
  end.

Definition recordCall (p : Prompt) (w : World) : World :=
  mkWorld (users w) (documents w) (files w) (completionCalls w ++ [p]) (auditLog w).

Definition languageOf (req : UploadRequest) : string :=
  if bool_decide (upload_language req = Some "arabic") then "arabic" else "english".

Definition documentDataOf (req : UploadRequest) (file : File) (materials : Json)
    : Result DocumentData :=
  match getProperty materials "summary",
        getProperty materials "flashcards",
        getProperty materials "examQuestions" with
  | Ok summary, Ok flashcards, Ok examQuestions =>
      Ok (mkDocumentData (session_id (upload_session req)) (file_filename file)
            (file_originalname file) (file_mimetype file) (file_size file)
            (languageOf req) summary flashcards examQuestions)
  | Throw e, _, _ | Ok _, Throw e, _ | Ok _, Ok _, Throw e => Throw e
  end.

Definition quotaExceeded (u : User) : Response :=
  mkResponse 403
    (ErrorBody "Monthly upload limit reached"
       (Some (if isPremium u then "Upgrade for more" else "Free limit reached"))).

Definition insufficientText : Response :=
  mkResponse 400 (ErrorBody "Could not extract enough text from file" None).

Definition failed (e : Error) : Response :=
  mkResponse 500 (ErrorBody "Failed to process document" (Some (err_message e))).

Definition uploaded (d : Document) : Response :=
  mkResponse 200
    (UploadedBody (doc_id d) (originalName d) (data_summary (doc_data d))
       (data_flashcards (doc_data d)) (data_examQuestions (doc_data d))
       (uploadDate d)).

Definition uploadOutcome (env : Env) (req : UploadRequest) (file : File)
    (u : User) (w : World) : Result Response * World :=
  let sid := session_id (upload_session req) in
  let v := validated env u in
  let w1 := setUsers (insert sid v) w in
  let cleanup := setFiles (delete (file_path file)) in
  if getMonthlyLimit v <=? documentsUsed v then (Ok (quotaExceeded v), cleanup w1)
  else
    match extracted env (file_mimetype file) (files w !! file_path file) with
    | Throw e => (Ok (failed e), cleanup w1)
    | Ok text =>
        if bool_decide (text = []) || (length (trim text) <? 50)%nat
        then (Ok insufficientText, cleanup w1)
        else
          let prompt := promptFor text (languageOf req) in
          let w2 := recordCall prompt w1 in
          match parsedAnswer
                  (chatCompletion env (length (completionCalls w)) prompt) with
          | Throw e => (Ok (failed e), cleanup w2)
          | Ok materials =>
              match documentDataOf req file materials with
              | Throw e => (Ok (failed e), cleanup w2)
              | Ok data =>
                  match documentInsert env data with
                  | Throw e => (Ok (failed e), cleanup w2)
                  | Ok (id, date) =>
                      match documents w !! id with
                      | Some _ => (Ok (failed uniqueViolation), cleanup w2)
                      | None =>
                          let d := mkDocument id data date in
                          (Ok (uploaded d),
                           cleanup
                             (setUsers
                                (insert sid
                                   (withUpload (Z.of_N (file_size file)) v))
                                (setDocuments (insert id d) w2)))
                      end
                  end
              end
          end
    end.

(** The status code of the response a handler produced, if it produced one. *)
Definition responseStatus (outcome : Result Response * World) : option Z :=
  match fst outcome with
  | Ok response => Some (status response)
  | Throw _ => None
  end.

(** ** Concrete collaborators, requests and worlds used in the examples *)

(** Collaborators that answer the same way to every call: the clock reads
    [clock], both decoders return [text], the completion service gives
    [answer] and the store gives [verdict] on a new Document row. *)
Definition exampleEnv (clock : Z) (text : jsstring)
    (answer : Result (list (option jsstring)))
    (verdict : Result (string * Z)) : Env :=
  mkEnv clock (fun _ => Ok text) (fun _ => Ok text) (fun _ _ => answer)
    (fun _ => verdict) (fun _ => Ok tt).

Definition exampleFile : File :=
  mkFile "uploads/17-42-notes.pdf" "17-42-notes.pdf" "notes.pdf" mimePdf 1000.

Definition exampleRequest : UploadRequest :=
  mkUploadRequest (mkSessionUser "u1" (Some "user")) (Some "english")
    (Some exampleFile).

(** A world with the single user [u] stored under id u1 and the uploaded
    file on disk. *)
Definition exampleWorld (u : User) : World :=
  mkWorld {[ "u1" := u ]} ∅ {[ "uploads/17-42-notes.pdf" := [37; 80; 68; 70]%N ]}
    [] [].

(** A text of [n] code units, none of them white space. *)
Definition letters (n : nat) : jsstring := replicate n 97%N.

(** A completion that is an object with the three expected keys. *)
Definition exampleCompletion : jsstring :=
  js "{" ++ [34%N] ++ js "summary" ++ [34%N] ++ js ":" ++ [34%N] ++ js "s" ++ [34%N]
  ++ js "," ++ [34%N] ++ js "flashcards" ++ [34%N] ++ js ":[],"
  ++ [34%N] ++ js "examQuestions" ++ [34%N] ++ js ":[]}".

(** Scenario A: a free user who has used all five documents. *)
Definition userA : User := mkUser "u1" (Some "user") "free" 5 (VNumber 5) (Some 0) 0.

(** Scenario B: a premium user with a configured limit of five. *)
Definition userB : User :=
  mkUser "u1" (Some "user") "premium" 50 (VNumber 5) (Some 7000) 0.

(** Scenario E: a user whose storage counter is 500,000 owns a document of
    1,000,000 bytes. *)
Definition userE : User :=
  mkUser "u1" (Some "user") "free" 1 (VNumber 5) (Some 500000) 0.

Definition documentE : Document :=
  mkDocument "d9"
    (mkDocumentData "u1" "3-4-big.pdf" "big.pdf" mimePdf 1000000 "english"
       (Some (JString (js "s"))) (Some (JArray [])) (Some (JArray [])))
    500.

Definition worldE : World := mkWorld {[ "u1" := userE ]} {[ "d9" := documentE ]} ∅ [] [].

(** A world with the user and document of Scenario E and a second user
    who owns nothing but whose counter reads 123. *)
Definition worldF : World :=
  mkWorld
    {[ "u1" := userE;
       "u2" := mkUser "u2" None "free" 0 (VNumber 5) (Some 123) 0 ]}
    {[ "d9" := documentE ]} ∅ [] [].

(** ** The storage invariant *)

(** A row whose storage counter, when it is not null, is not negative. *)
Definition rowNonneg (u : User) : Prop :=
  forall s, storageUsed u = Some s -> 0 <= s.

Definition storageNonneg (w : World) : Prop :=
  forall id u, users w !! id = Some u -> rowNonneg u.

(** A computation that keeps the storage invariant, whether it returns or
    throws. *)
Definition preserves {A} (m : M A) : Prop :=
  forall w, storageNonneg w -> storageNonneg (snd (m w)).

(** The operations that write a storage counter. *)
Inductive Operation : Type :=
  | OpUpload (env : Env) (req : UploadRequest)
  | OpDeleteDocument (req : DeleteRequest)
  | OpAdminDeleteFile (env : Env) (req : AdminDeleteRequest)
  | OpBackfill.

Definition perform (op : Operation) (w : World) : World :=
  match op with
  | OpUpload env req => snd (upload env req w)
  | OpDeleteDocument req => snd (deleteDocument req w)
  | OpAdminDeleteFile env req => snd (adminDeleteFile env req w)
  | OpBackfill => snd (run w)
  end.

(** ** The storage backfill *)

(** Foreign-key integrity: every document belongs to an existing user. *)
Definition ownersExist (w : World) : Prop :=
  forall id d, documents w !! id = Some d -> is_Some (users w !! userId d).

(** The sum of fileSize over the current documents of a user. *)
Definition storageOf (w : World) (uid : string) : Z :=
  Z.of_N (sumFileSize uid (documentRows w)).

(** The user table in which every storage counter holds that sum. *)
Definition repairedUsers (w : World) : gmap string User :=
  map_imap (fun uid u => Some (withStorage (Some (storageOf w uid)) u)) (users w).

(** ** The parsing budget *)

(** A parsing outcome on an input of [n] code units that is not an
    exhausted budget and, when it is a value, leaves fewer than [n] code
    units unread. *)
Definition consumes {A} (n : nat) (p : Parse A) : Prop :=
  p <> NoFuel /\ forall v r, p = Parsed v r -> (length r < n)%nat.

(** [long] is the outcome on an input followed by [y], [short] the outcome
    on the input alone: a value found in the long input is found in the
    short one, and none of [y] was read. *)
Definition ignores {A} (y : jsstring) (long short : Parse A) : Prop :=
  forall v r, long = Parsed v r -> exists r', r = r' ++ y /\ short = Parsed v r'.

(** * Notions used in the further properties *)

(** A computation whose every run, returning or throwing, takes the world
    to one related to it by [R]. *)
Definition respects (R : World -> World -> Prop) {A} (m : M A) : Prop :=
  forall w, R w (snd (m w)).

(** The disk is as before, or as before without the file at [path]. *)
Definition unlinksAtMost (path : string) (w w' : World) : Prop :=
  files w' = files w \/ files w' = delete path (files w).

(** A computation that, when it returns, has no file at [path]. *)
Definition endsWithout (path : string) {A} (m : M A) : Prop :=
  forall w a w', m w = (Ok a, w') -> files w' !! path = None.

(** ** What the schema guarantees of the tables *)

(** A row is stored under its primary key. *)
Definition usersKeyed (w : World) : Prop :=
  forall id u, users w !! id = Some u -> user_id u = id.

Definition documentsKeyed (w : World) : Prop :=
  forall id d, documents w !! id = Some d -> doc_id d = id.

Definition wellFormed (w : World) : Prop :=
  usersKeyed w /\ documentsKeyed w /\ ownersExist w.

(** ** Accounting *)


(** No user has used more documents than the effective monthly limit. *)
Definition withinQuota (w : World) : Prop :=
  forall id u, users w !! id = Some u -> documentsUsed u <= getMonthlyLimit u.

(** The modelled entry points. *)
Inductive Call : Type :=
  | CallAuth (auth : AuthEnv)
  | CallUpload (env : Env) (req : UploadRequest)
  | CallGetDocument (req : DocumentRequest)
  | CallDeleteDocument (req : DeleteRequest)
  | CallMe (env : Env) (session : SessionUser)
  | CallAdminDeleteFile (env : Env) (req : AdminDeleteRequest)
  | CallAdminDeleteUser (env : Env) (req : AdminUserRequest)
  | CallBackfill.

(** The world a call leaves. *)
Definition after (c : Call) (w : World) : World :=
  match c with
  | CallAuth auth => snd (requireAuth auth w)
  | CallUpload env req => snd (upload env req w)
  | CallGetDocument req => snd (getDocument req w)
  | CallDeleteDocument req => snd (deleteDocument req w)
  | CallMe env session => snd (me env session w)
  | CallAdminDeleteFile env req => snd (adminDeleteFile env req w)
  | CallAdminDeleteUser env req => snd (adminDeleteUser env req w)
  | CallBackfill => snd (run w)
  end.

(** A row as the reset and initialisation steps may have rewritten it:
    same key and limit, the count kept or set to 0, the counter kept or
    initialised from null to 0. *)
Definition refreshed (u v : User) : Prop :=
  user_id v = user_id u
  /\ getMonthlyLimit v = getMonthlyLimit u
  /\ (documentsUsed v = documentsUsed u \/ documentsUsed v = 0)
  /\ (storageUsed v = storageUsed u
      \/ (storageUsed u = None /\ storageUsed v = Some 0)).

(** What a call may do to the two tables. *)
Inductive Effect (w w' : World) : Prop :=
  | Untouched :
      users w' = users w -> documents w' = documents w -> Effect w w'
  | RowRefreshed (id : string) (u v : User) :
      users w !! id = Some u -> refreshed u v ->
      users w' = <[id := v]> (users w) -> documents w' = documents w ->
      Effect w w'
  | DocumentAdded (u v : User) (d : Document) :
      users w !! userId d = Some u -> refreshed u v ->
      documentsUsed v < getMonthlyLimit v ->
      documents w !! doc_id d = None ->
      documents w' = <[doc_id d := d]> (documents w) ->
      users w' = <[userId d := withUpload (Z.of_N (fileSize d)) v]> (users w) ->
      Effect w w'
  | DocumentRemoved (d : Document) (o : User) :
      documents w !! doc_id d = Some d ->
      users w !! userId d = Some o ->
      documents w' = delete (doc_id d) (documents w) ->
      users w'
      = <[userId d :=
            withStorage
              (Some (floorAtZero (storageOrZero (Some o) - Z.of_N (fileSize d))))
              o]> (users w) ->
      Effect w w'
  | UserRemoved (id : string) :
      users w' = delete id (users w) ->
      documents w' = filter (fun row => userId (snd row) <> id) (documents w) ->
      Effect w w'
  | CountersRepaired :
      users w' = repairedUsers w -> documents w' = documents w -> Effect w w'
  | RolePromoted (id : string) (u : User) :
      users w !! id = Some u ->
      users w' = <[id := withRole (Some "admin") u]> (users w) ->
      documents w' = documents w ->
      Effect w w'.

(** A world in which the counter of the one user is the size of the one
    document, with the uploaded file of the examples on disk. *)
Definition userG : User :=
  mkUser "u1" (Some "user") "free" 1 (VNumber 5) (Some 1000000) 0.

Definition worldG : World :=
  mkWorld {[ "u1" := userG ]} {[ "d9" := documentE ]}
    {[ "uploads/17-42-notes.pdf" := [37; 80; 68; 70]%N ]} [] [].

(** The world after a sequence of calls, served one after the other. *)
Definition afterAll (calls : list Call) (w : World) : World :=
  foldl (fun w c => after c w) w calls.


(** ** Who makes a call *)

(** The session on whose behalf a call of the authentication guard, of the
    documents router or of the user router is made. The other calls are
    behind the admin guard, or are run from a shell. *)
Definition madeBy (c : Call) : option SessionUser :=
  match c with
  | CallAuth auth =>
      match getSession auth with
      | Ok (Some session) => sessionUser <$> session_user session
      | Ok None | Throw _ => None
      end
  | CallUpload _ req => Some (upload_session req)
  | CallGetDocument req => Some (document_session req)
  | CallDeleteDocument req => Some (delete_session req)
  | CallMe _ session => Some session
  | CallAdminDeleteFile _ _ | CallAdminDeleteUser _ _ | CallBackfill => None
  end.

(** A call made by a session that is neither an admin's nor [owner]'s. *)
Definition stranger (owner : string) (c : Call) : Prop :=
  exists session,
    madeBy c = Some session
    /\ session_role session <> Some "admin"
    /\ session_id session <> owner.


(** ** Outcomes up to the audit log *)

(** Two outcomes with the same result and the same world, the audit log
    apart. *)
Definition agreeButAuditLog {A} (a b : Result A * World) : Prop :=
  fst a = fst b
  /\ users (snd a) = users (snd b)
  /\ documents (snd a) = documents (snd b)
  /\ files (snd a) = files (snd b)
  /\ completionCalls (snd a) = completionCalls (snd b).

(** The session's user has a row whose role is admin. *)
Definition storedAdmin (session : option SessionUser) (w : World) : Prop :=
  exists sessionUser u,
    session = Some sessionUser
    /\ session_id sessionUser <> ""
    /\ users w !! session_id sessionUser = Some u
    /\ role u = Some "admin".

(** The world after [logAdminAction]: the entry is appended when the
    store accepts it. *)
Definition withAudit (env : Env) (entry : AuditEntry) (w : World) : World :=
  match auditInsert env entry with
  | Ok _ =>
      mkWorld (users w) (documents w) (files w) (completionCalls w)
        (auditLog w ++ [entry])
  | Throw _ => w
  end.


(** ** Streams of requests through the rate limiter *)

(** A limiter applied to requests that arrive one after the other, each
    with its time of arrival: the verdicts, in order, and the map at the
    end. *)
Fixpoint serve
    (limiter : Z -> ClientRequest -> gmap Key Entry -> Verdict * gmap Key Entry)
    (arrivals : list (Z * ClientRequest)) (hits : gmap Key Entry)
    : list Verdict * gmap Key Entry :=
  match arrivals with
  | [] => ([], hits)
  | (now, req) :: rest =>
      let (verdict, hits') := limiter now req hits in
      let (verdicts, hits'') := serve limiter rest hits' in
      (verdict :: verdicts, hits'')
  end.

Definition isNext (v : Verdict) : bool :=
  match v with
  | Next => true
  | Halt _ _ => false
  end.

(** How many of the verdicts are [next()]. *)
Definition admitted (verdicts : list Verdict) : Z :=
  Z.of_nat (length (filter (fun v => isNext v = true) verdicts)).

Definition tooMany : Verdict := Halt 429 "Too many requests".

(** The arrivals that fall into the bucket [key]. *)
Definition arrivalsOf (keyGenerator : option (ClientRequest -> Key)) (key : Key)
    (arrivals : list (Z * ClientRequest)) : list (Z * ClientRequest) :=
  filter (fun arrival => getKey (snd arrival) keyGenerator = key) arrivals.

(** The verdicts given to the arrivals that fall into the bucket [key]. *)
Definition verdictsOf (keyGenerator : option (ClientRequest -> Key)) (key : Key)
    (arrivals : list (Z * ClientRequest)) (verdicts : list Verdict)
    : list Verdict :=
  (filter (fun served => getKey (snd (fst served)) keyGenerator = key)
     (zip arrivals verdicts)).*2.

(** ** Elevation by email *)

(** The lowered email of the session's user, empty without one. *)
Definition emailOf (auth : AuthEnv) (session : Session) : jsstring :=
  match session_user session with
  | Some user =>
      match auth_email user with
      | Some email => toLowerCase auth email
      | None => []
      end
  | None => []
  end.

(** The session's email is one of the admin emails. *)
Definition listed (auth : AuthEnv) (session : Session) : Prop :=
  emailOf auth session ∈ parseAdminEmails auth.

#[global] Instance listed_dec (auth : AuthEnv) (session : Session) :
  Decision (listed auth session).
Proof. unfold listed. apply _. Defined.

(** An authentication service that resolves to the session of [user], with
    an ASCII-only lowering and the given ADMIN_EMAILS. *)
Definition lowerAscii (s : jsstring) : jsstring :=
  (fun c => if ((65 <=? c) && (c <=? 90))%N then (c + 32)%N else c) <$> s.

Definition exampleAuth (user : AuthUser) (adminEmails : string) : AuthEnv :=
  mkAuthEnv (Ok (Some (mkSession (Some user)))) lowerAscii (Some (js adminEmails)).

(** * Properties *)

(** ** The effective monthly limit *)

Lemma isPremium_spec (u : User) :
  isPremium u = true <-> plan u = "premium" \/ role u = Some "admin".
Proof.
  unfold isPremium. rewrite orb_true_iff, !bool_decide_eq_true. tauto.
Qed.

Lemma baseLimit_typeof (u : User) :
  baseLimit u =
    if bool_decide (typeof (monthlyLimit u) = "number")
    then match monthlyLimit u with VNumber z => z | _ => 0 end
    else 5.
Proof. unfold baseLimit. destruct (monthlyLimit u); reflexivity. Qed.

Lemma minLimit_cases (u : User) :
  (plan u = "premium" \/ role u = Some "admin") /\ minLimit u = 100
  \/ ~ (plan u = "premium" \/ role u = Some "admin") /\ minLimit u = 0.
Proof.
  unfold minLimit. destruct (isPremium u) eqn:E.
  - left. split; [by apply isPremium_spec | done].
  - right. split; [| done]. intros H. apply isPremium_spec in H. congruence.
Qed.

Lemma minLimit_premiumFloor (u : User) : minLimit u = premiumFloor u.
Proof.
  unfold premiumFloor.
  destruct (minLimit_cases u) as [[H ->] | [H ->]]; by case_decide.
Qed.

(** C1 (as stated) fails: a free, non-admin user whose configured limit is
    200 has an effective limit of at least 100. *)
Lemma effectiveLimit_iff_counterexample :
  let u := mkUser "u1" (Some "user") "free" 0 (VNumber 200) (Some 0) 0 in
  100 <= getMonthlyLimit u
  /\ ~ (plan u = "premium" \/ role u = Some "admin").
Proof.
  split.
  - vm_compute. discriminate.
  - intros [H | H]; discriminate H.
Qed.

(** C1 (amended): for a user whose monthlyLimit is a number, the effective
    limit is the larger of monthlyLimit and the premium floor (100 for plan
    premium or role admin, 0 otherwise). Hence a premium or admin user has a
    limit of at least 100; the limit is at least 100 exactly when the user
    is premium, or admin, or has a configured limit of at least 100; and a
    user that is neither premium nor admin has the limit
    max(monthlyLimit, 0), which is monthlyLimit when that is not negative. *)
Theorem effectiveLimit_max (u : User) (m : Z) :
  monthlyLimit u = VNumber m ->
  getMonthlyLimit u = Z.max m (premiumFloor u)
  /\ (plan u = "premium" \/ role u = Some "admin" -> 100 <= getMonthlyLimit u)
  /\ (100 <= getMonthlyLimit u <->
      plan u = "premium" \/ role u = Some "admin" \/ 100 <= m)
  /\ (~ (plan u = "premium" \/ role u = Some "admin") ->
      getMonthlyLimit u = Z.max m 0
      /\ (0 <= m -> getMonthlyLimit u = m)).
Proof.
  intros Hm. unfold getMonthlyLimit, baseLimit. rewrite Hm.
  rewrite minLimit_premiumFloor. unfold premiumFloor.
  case_decide as Hp.
  - split; [done |]. split; [lia |]. split; [| tauto].
    split; [tauto | lia].
  - split; [done |]. split; [tauto |]. split; [| intros _; lia].
    split; [intros H; right; right; lia | intros [H | [H | H]]; [tauto | tauto | lia]].
Qed.

Lemma effectiveLimit_max_witness :
  let u := mkUser "u1" None "premium" 50 (VNumber 5) (Some 0) 0 in
  getMonthlyLimit u = Z.max 5 (premiumFloor u)
  /\ (plan u = "premium" \/ role u = Some "admin" -> 100 <= getMonthlyLimit u)
  /\ (100 <= getMonthlyLimit u <->
      plan u = "premium" \/ role u = Some "admin" \/ 100 <= 5)
  /\ (~ (plan u = "premium" \/ role u = Some "admin") ->
      getMonthlyLimit u = Z.max 5 0
      /\ (0 <= 5 -> getMonthlyLimit u = 5)).
Proof.
  apply (effectiveLimit_max
           (mkUser "u1" None "premium" 50 (VNumber 5) (Some 0) 0) 5).
  reflexivity.
Defined.

(** C10: when monthlyLimit is not a number the base limit is 5, so a user
    that is neither premium nor admin has effective limit 5 and a premium
    or admin user has effective limit 100. *)
Theorem effectiveLimit_default (u : User) :
  typeof (monthlyLimit u) <> "number" ->
  baseLimit u = 5
  /\ getMonthlyLimit u = Z.max 5 (premiumFloor u)
  /\ (~ (plan u = "premium" \/ role u = Some "admin") -> getMonthlyLimit u = 5)
  /\ (plan u = "premium" \/ role u = Some "admin" -> getMonthlyLimit u = 100).
Proof.
  intros Ht.
  assert (Hb : baseLimit u = 5).
  { rewrite baseLimit_typeof. by rewrite bool_decide_eq_false_2. }
  unfold getMonthlyLimit. rewrite Hb, minLimit_premiumFloor.
  unfold premiumFloor. case_decide; repeat split; try lia; tauto.
Qed.

Lemma effectiveLimit_default_witness :
  let u := mkUser "u1" None "free" 0 VNull (Some 0) 0 in
  baseLimit u = 5
  /\ getMonthlyLimit u = Z.max 5 (premiumFloor u)
  /\ (~ (plan u = "premium" \/ role u = Some "admin") -> getMonthlyLimit u = 5)
  /\ (plan u = "premium" \/ role u = Some "admin" -> getMonthlyLimit u = 100).
Proof.
  apply (effectiveLimit_default (mkUser "u1" None "free" 0 VNull (Some 0) 0)).
  vm_compute. discriminate.
Defined.

(** ** White space and trimming *)

Lemma trimStart_drop (s : jsstring) : trimStart s = drop (spaces s) s.
Proof.
  induction s as [| c t IH]; [done |].
  simpl. destruct (isWhiteSpace c); [apply IH | done].
Qed.

Lemma spaces_prefix (s : jsstring) : allSpace (take (spaces s) s).
Proof.
  induction s as [| c t IH]; [constructor |].
  simpl. destruct (isWhiteSpace c) eqn:E; [| constructor].
  simpl. by constructor.
Qed.

Lemma spaces_trimStart (s : jsstring) : spaces (trimStart s) = O.
Proof.
  induction s as [| c t IH]; [done |].
  simpl. destruct (isWhiteSpace c) eqn:E; [apply IH |].
  simpl. by rewrite E.
Qed.

Lemma spaces_app (ws rest : jsstring) :
  allSpace ws -> spaces (ws ++ rest) = (length ws + spaces rest)%nat.
Proof.
  induction 1 as [| c t Hc _ IH]; [done |].
  simpl. by rewrite Hc, IH.
Qed.

Lemma trimStart_app (a b : jsstring) :
  spaces b = O -> b <> [] -> trimStart (a ++ b) = trimStart a ++ b.
Proof.
  intros Hb Hne. induction a as [| c t IH].
  - simpl. destruct b as [| x b']; [done |].
    simpl in *. by destruct (isWhiteSpace x).
  - simpl. destruct (isWhiteSpace c); [apply IH | done].
Qed.

Lemma spaces_covering (a b : jsstring) :
  (length a <= spaces (a ++ b))%nat -> allSpace a.
Proof.
  induction a as [| c t IH]; [constructor |].
  simpl. destruct (isWhiteSpace c) eqn:E; [| lia].
  intros H. constructor; [done | apply IH; lia].
Qed.

(** A text whose last code unit is not white space: its leading run of
    white space stops inside it. *)
Lemma spaces_inside (core rest : jsstring) :
  core <> [] -> spaces (rev core) = O ->
  (spaces (core ++ rest) < length core)%nat.
Proof.
  intros Hne Hlast.
  destruct (decide (length core <= spaces (core ++ rest))%nat) as [Hge |]; [| lia].
  apply spaces_covering in Hge.
  destruct (rev core) as [| c r] eqn:Er.
  - apply (f_equal (@rev N)) in Er. rewrite rev_involutive in Er. done.
  - assert (Hc : isWhiteSpace c = true).
    { unfold allSpace in Hge. rewrite Forall_forall in Hge. apply Hge.
      apply list_elem_of_In, in_rev. rewrite Er. by left. }
    simpl in Hlast. rewrite Hc in Hlast. done.
Qed.

Lemma spaces_rev_tail (c : N) (core : jsstring) :
  spaces (rev (c :: core)) = O -> spaces (rev core) = O.
Proof.
  simpl. destruct (rev core) as [| d r]; [done |].
  simpl. by destruct (isWhiteSpace d).
Qed.

Lemma trimEnd_snoc (a : jsstring) (c : N) :
  isWhiteSpace c = false -> trimEnd (a ++ [c]) = a ++ [c].
Proof.
  intros Hc. unfold trimEnd. rewrite rev_app_distr. simpl. rewrite Hc.
  simpl. by rewrite rev_involutive.
Qed.

(** A text that neither starts nor ends with white space is its own trim. *)
Lemma trim_fixed (c d : N) (m : jsstring) :
  isWhiteSpace c = false -> isWhiteSpace d = false ->
  trim (c :: m ++ [d]) = c :: m ++ [d].
Proof.
  intros Hc Hd. unfold trim. simpl trimStart. rewrite Hc.
  by apply (trimEnd_snoc (c :: m)).
Qed.

(** A text splits into its right-trimmed part and a run of white space. *)
Lemma trimEnd_split (q : jsstring) :
  exists ws, allSpace ws /\ q = trimEnd q ++ ws /\ spaces (rev (trimEnd q)) = O.
Proof.
  exists (rev (take (spaces (rev q)) (rev q))). split; [| split].
  - unfold allSpace. apply Forall_forall. intros x Hx.
    apply list_elem_of_In, in_rev in Hx.
    pose proof (spaces_prefix (rev q)) as Hp. unfold allSpace in Hp.
    rewrite Forall_forall in Hp. by apply Hp, list_elem_of_In.
  - unfold trimEnd. rewrite trimStart_drop, <- rev_app_distr.
    by rewrite take_drop, rev_involutive.
  - unfold trimEnd. rewrite rev_involutive. apply spaces_trimStart.
Qed.

(** ** The fence pattern *)

Lemma openFence_units : js "```json" = [96; 96; 96; 106; 115; 111; 110]%N.
Proof. reflexivity. Qed.

Lemma closeFence_units : js "```" = [96; 96; 96]%N.
Proof. reflexivity. Qed.

Lemma deleteMatches_skip (re : bool -> jsstring -> option nat) (p r : jsstring) :
  deleteMatches re (length p) false (p ++ r) = deleteMatches re O false r.
Proof.
  induction p as [| c t IH]; [done |]. simpl. apply IH.
Qed.

Lemma spaces_le (s : jsstring) : (spaces s <= length s)%nat.
Proof.
  induction s as [| c t IH]; simpl; [lia |].
  destruct (isWhiteSpace c); simpl; lia.
Qed.

(** Deleting a match that ends with a greedy run of white space. *)
Lemma deleteMatches_skip_spaces (re : bool -> jsstring -> option nat)
    (pre s : jsstring) :
  deleteMatches re (length pre + spaces s) false (pre ++ s)
  = deleteMatches re O false (trimStart s).
Proof.
  rewrite trimStart_drop.
  rewrite <- (deleteMatches_skip re (pre ++ take (spaces s) s) (drop (spaces s) s)).
  rewrite <- app_assoc, take_drop, length_app, length_take.
  pose proof (spaces_le s). by rewrite Nat.min_l.
Qed.

Lemma deleteMatches_all (re : bool -> jsstring -> option nat) (p : jsstring) :
  deleteMatches re (length p) false p = [].
Proof.
  rewrite <- (app_nil_r p) at 2. by rewrite deleteMatches_skip.
Qed.

Lemma matchCloseFence_run (ws : jsstring) :
  allSpace ws ->
  matchCloseFence (ws ++ js "```") = Some (length (ws ++ js "```")).
Proof.
  intros Hws. unfold matchCloseFence.
  rewrite spaces_app by done. rewrite closeFence_units.
  change (spaces [96; 96; 96]%N) with O.
  rewrite Nat.add_0_r, drop_app_length. by rewrite bool_decide_eq_true_2.
Qed.

Lemma matchCloseFence_inside (core rest : jsstring) :
  core <> [] -> spaces (rev core) = O ->
  matchCloseFence (core ++ rest ++ js "```") = None.
Proof.
  intros Hne Hlast. unfold matchCloseFence.
  rewrite bool_decide_eq_false_2; [done |].
  intros Heq. apply (f_equal length) in Heq.
  rewrite length_drop, !length_app, closeFence_units in Heq. simpl in Heq.
  pose proof (spaces_inside core (rest ++ [96; 96; 96]%N) Hne Hlast). lia.
Qed.

(** Scanning a right-trimmed text followed by white space and a closing
    fence keeps the text and deletes the rest. *)
Lemma deleteMatches_close (core ws : jsstring) :
  spaces (rev core) = O -> allSpace ws ->
  deleteMatches matchFence O false (core ++ ws ++ js "```") = core.
Proof.
  intros Hlast Hws. induction core as [| c t IH].
  - simpl app. pose proof (matchCloseFence_run ws Hws) as Hm.
    destruct (ws ++ js "```") as [| x s] eqn:Es.
    { destruct ws; discriminate Es. }
    simpl. unfold matchFence. simpl matchOpenFence. rewrite Hm. simpl length.
    apply deleteMatches_all.
  - pose proof (matchCloseFence_inside (c :: t) ws ltac:(done) Hlast) as Hm.
    simpl app in *. simpl deleteMatches. unfold matchFence at 1.
    simpl matchOpenFence. rewrite Hm. f_equal.
    apply IH. by eapply spaces_rev_tail.
Qed.

(** A text wrapped in a json-tagged fence is cleaned to the text with its
    surrounding white space removed. *)
Lemma stripFence_fenced (p : jsstring) :
  stripFence (trim (js "```json" ++ p ++ js "```")) = trim p.
Proof.
  assert (Htrim : trim (js "```json" ++ p ++ js "```")
                  = js "```json" ++ p ++ js "```").
  { rewrite openFence_units, closeFence_units.
    replace ([96; 96; 96; 106; 115; 111; 110] ++ p ++ [96; 96; 96])%N
      with (96 :: ([96; 96; 106; 115; 111; 110] ++ p ++ [96; 96]) ++ [96])%N
      by (simpl; by rewrite <- !app_assoc).
    by apply trim_fixed. }
  rewrite Htrim. unfold stripFence. rewrite openFence_units.
  simpl app. simpl deleteMatches. unfold matchFence at 1, matchOpenFence at 1.
  rewrite openFence_units. simpl startsWith. simpl andb. simpl drop.
  change (deleteMatches matchFence
            (length [96; 96; 106; 115; 111; 110]%N + spaces (p ++ js "```"))
            false ([96; 96; 106; 115; 111; 110]%N ++ p ++ js "```") = trim p).
  rewrite deleteMatches_skip_spaces.
  rewrite trimStart_app by done.
  destruct (trimEnd_split (trimStart p)) as (ws & Hws & Hsplit & Hlast).
  rewrite Hsplit, <- app_assoc. unfold trim.
  by apply deleteMatches_close.
Qed.
(** ** Stage by stage: what each step of a handler does to the world *)

Lemma setUsers_insert_id (w : World) (id : string) (u : User) :
  users w !! id = Some u -> setUsers (insert id u) w = w.
Proof.
  intros H. destruct w as [us ds fs cs al]. unfold setUsers. simpl in *.
  by rewrite insert_id.
Qed.

Lemma setUsers_insert_insert (w : World) (id : string) (u u' : User) :
  setUsers (insert id u') (setUsers (insert id u) w) = setUsers (insert id u') w.
Proof. unfold setUsers. simpl. by rewrite insert_insert_eq. Qed.

Lemma setFiles_delete_missing (w : World) (path : string) :
  files w !! path = None -> setFiles (delete path) w = w.
Proof.
  intros H. destruct w as [us ds fs cs al]. unfold setFiles. simpl in *.
  by rewrite delete_id.
Qed.

Lemma unlink_swallowed (path : string) (w : World) :
  swallow (unlink path) w = (Ok tt, setFiles (delete path) w).
Proof.
  unfold swallow, tryCatch, unlink.
  destruct (files w !! path) eqn:E; [done |].
  unfold ret. by rewrite setFiles_delete_missing.
Qed.

Lemma reset_run (env : Env) (u : User) (w : World) :
  users w !! user_id u = Some u ->
  resetMonthlyUsageIfNeeded env u w
  = (Ok (afterReset env u), setUsers (insert (user_id u) (afterReset env u)) w).
Proof.
  intros H. unfold resetMonthlyUsageIfNeeded, afterReset.
  destruct (Qltb _ _).
  - unfold ret. by rewrite setUsers_insert_id.
  - unfold userUpdate. by rewrite H.
Qed.

Lemma extract_run (env : Env) (path mimetype : string) (w : World) :
  extractTextFromFile env path mimetype w
  = (extracted env mimetype (files w !! path), w).
Proof.
  unfold extractTextFromFile, extracted, tryCatch.
  repeat case_bool_decide; unfold bind, readFile, lift, ret, throw;
    try done; destruct (files w !! path); try done;
    by match goal with |- context [?f env ?x] => destruct (f env x) end.
Qed.

Lemma generate_run (env : Env) (text : jsstring) (language : string) (w : World) :
  generateStudyMaterials env text language w
  = (parsedAnswer (chatCompletion env (length (completionCalls w))
                     (promptFor text language)),
     recordCall (promptFor text language) w).
Proof.
  unfold generateStudyMaterials, tryCatch, bind, createChatCompletion, lift,
    parsedAnswer, promptFor, recordCall, throw.
  destruct (chatCompletion _ _ _) as [choices | e]; [| done].
  destruct (firstContent choices) as [content | e]; [| done].
  by destruct (JSON_parse _).
Qed.

Lemma bind_ok {A B} (m : M A) (k : A -> M B) (w w' : World) (a : A) :
  m w = (Ok a, w') -> bind m k w = k a w'.
Proof. intros H. unfold bind. by rewrite H. Qed.

Lemma bind_throw {A B} (m : M A) (k : A -> M B) (w w' : World) (e : Error) :
  m w = (Throw e, w') -> bind m k w = (Throw e, w').
Proof. intros H. unfold bind. by rewrite H. Qed.

Lemma bind_run {A B} (m : M A) (k : A -> M B) (w w' : World) (r : Result A) :
  m w = (r, w') ->
  bind m k w = match r with Ok a => k a w' | Throw e => (Throw e, w') end.
Proof. intros H. unfold bind. rewrite H. by destruct r. Qed.

Lemma afterReset_id (env : Env) (u : User) : user_id (afterReset env u) = user_id u.
Proof. unfold afterReset. by destruct (Qltb _ _). Qed.

(** The reset step followed by the initialisation of a null storage
    counter leaves the validated row in the store and hands it on. *)
Lemma validation_run {B} (env : Env) (u : User) (w : World) (k : User -> M B) :
  users w !! user_id u = Some u ->
  bind (resetMonthlyUsageIfNeeded env u)
    (fun dbUser =>
       bind
         match storageUsed dbUser with
         | None =>
             userUpdate (user_id dbUser) (withStorage (Some 0)) ;;
             ret (withStorage (Some 0) dbUser)
         | Some _ => ret dbUser
         end k) w
  = k (validated env u) (setUsers (insert (user_id u) (validated env u)) w).
Proof.
  intros H. erewrite bind_ok by (by apply reset_run).
  unfold validated, afterStorageInit.
  destruct (storageUsed (afterReset env u)) eqn:Es; [done |].
  unfold bind at 1. unfold bind at 1. unfold userUpdate, ret.
  rewrite afterReset_id. simpl.
  rewrite lookup_insert_eq. by rewrite setUsers_insert_insert.
Qed.

Lemma upload_outcome (env : Env) (req : UploadRequest) (file : File)
    (u : User) (w : World) :
  upload_file req = Some file ->
  users w !! session_id (upload_session req) = Some u ->
  user_id u = session_id (upload_session req) ->
  upload env req w = uploadOutcome env req file u w.
Proof.
  intros Hfile Hu Hid.
  unfold upload, uploadBody, uploadOutcome, tryCatch. rewrite Hfile.
  erewrite (bind_ok (userFindUnique _)) by reflexivity. rewrite Hu.
  rewrite <- Hid in *.
  rewrite validation_run by done.
  set (v := validated env u). set (w1 := setUsers (insert (user_id u) v) w).
  destruct (getMonthlyLimit v <=? documentsUsed v) eqn:Eq.
  { unfold bind, statusJson, ret. by rewrite unlink_swallowed. }
  rewrite (bind_run _ _ _ _ _ (extract_run env _ _ w1)).
  replace (files w1) with (files w) by done.
  destruct (extracted env _ _) as [text | e].
  2: { unfold bind, statusJson, ret. by rewrite unlink_swallowed. }
  destruct (bool_decide (text = []) || (length (trim text) <? 50)%nat).
  { unfold bind, statusJson, ret. by rewrite unlink_swallowed. }
  rewrite (bind_run _ _ _ _ _ (generate_run env _ _ w1)).
  replace (completionCalls w1) with (completionCalls w) by done.
  fold (languageOf req).
  set (prompt := promptFor text (languageOf req)).
  set (w2 := recordCall prompt w1).
  destruct (parsedAnswer _) as [materials | e].
  2: { unfold bind, statusJson, ret. by rewrite unlink_swallowed. }
  unfold documentDataOf. rewrite <- Hid.
  assert (Hfail : forall e w',
    (swallow (unlink (file_path file)) ;;
     statusJson 500
       (ErrorBody "Failed to process document" (Some (err_message e)))) w'
    = (Ok (failed e), setFiles (delete (file_path file)) w')).
  { intros e w'. unfold bind, statusJson, ret. by rewrite unlink_swallowed. }
  unfold bind at 1, lift at 1.
  destruct (getProperty materials "summary") as [summary | e]; [| apply Hfail].
  unfold bind at 1, lift at 1.
  destruct (getProperty materials "flashcards") as [flashcards | e];
    [| apply Hfail].
  unfold bind at 1, lift at 1.
  destruct (getProperty materials "examQuestions") as [examQuestions | e];
    [| apply Hfail].
  unfold bind at 1, documentCreate at 1.
  destruct (documentInsert env _) as [[id date] | e]; [| apply Hfail].
  replace (documents w2) with (documents w) by done.
  destruct (documents w !! id) as [d |]; [apply Hfail |].
  replace (users w2 !! _) with (Some v)
    by (subst w2 w1; simpl; by rewrite lookup_insert_eq).
  unfold bind at 1, userUpdate at 1.
  replace (users (setDocuments _ w2) !! user_id u) with (Some v)
    by (subst w2 w1; simpl; by rewrite lookup_insert_eq).
  unfold bind, json, ret. rewrite unlink_swallowed.
  subst w2 w1. unfold setUsers, setDocuments, setFiles, recordCall. simpl.
  by rewrite insert_insert_eq.
Qed.

(** ** Requests that stop before the quota *)

(** Without a file the handler answers 400 and touches nothing. *)
Lemma upload_without_file (env : Env) (req : UploadRequest) (w : World) :
  upload_file req = None ->
  upload env req w = (Ok (mkResponse 400 (ErrorBody "No file uploaded" None)), w).
Proof.
  intros Hfile. unfold upload, uploadBody, tryCatch. by rewrite Hfile.
Qed.

(** For an unknown user the handler deletes the temporary file and
    answers 404. *)
Lemma upload_unknown_user (env : Env) (req : UploadRequest) (file : File)
    (w : World) :
  upload_file req = Some file ->
  users w !! session_id (upload_session req) = None ->
  upload env req w
  = (Ok (mkResponse 404 (ErrorBody "User not found" None)),
     setFiles (delete (file_path file)) w).
Proof.
  intros Hfile Hu. unfold upload, uploadBody, tryCatch. rewrite Hfile.
  erewrite (bind_ok (userFindUnique _)) by reflexivity. rewrite Hu.
  unfold bind, statusJson, ret. by rewrite unlink_swallowed.
Qed.

(** ** The reset condition *)

Lemma reset_not_due (now last : Z) :
  Qltb (daysSinceReset now last) (inject_Z 30) = true
  <-> now - last < 30 * msPerDay.
Proof.
  unfold Qltb. rewrite negb_true_iff, <- not_true_iff_false, Qle_bool_iff.
  unfold daysSinceReset, Qle, Qdiv, Qmult, Qinv, inject_Z, msPerDay. simpl.
  lia.
Qed.

Lemma afterReset_due (env : Env) (u : User) :
  30 * msPerDay <= now env - lastReset u ->
  afterReset env u = withReset (now env) u.
Proof.
  intros H. unfold afterReset.
  destruct (Qltb _ _) eqn:E; [| done].
  apply reset_not_due in E. lia.
Qed.

Lemma afterReset_not_due (env : Env) (u : User) :
  now env - lastReset u < 30 * msPerDay -> afterReset env u = u.
Proof.
  intros H. unfold afterReset.
  destruct (Qltb _ _) eqn:E; [done |].
  apply reset_not_due in H. congruence.
Qed.

(** ** Facts about the validated row *)

Lemma validated_limit (env : Env) (u : User) :
  getMonthlyLimit (validated env u) = getMonthlyLimit u.
Proof.
  unfold validated, afterStorageInit, afterReset.
  destruct (Qltb _ _); simpl; destruct (storageUsed u); reflexivity.
Qed.

Lemma validated_premium (env : Env) (u : User) :
  isPremium (validated env u) = isPremium u.
Proof.
  unfold validated, afterStorageInit, afterReset.
  destruct (Qltb _ _); simpl; destruct (storageUsed u); reflexivity.
Qed.

Lemma validated_documentsUsed (env : Env) (u : User) :
  documentsUsed (validated env u) = documentsUsed (afterReset env u).
Proof.
  unfold validated, afterStorageInit.
  by destruct (storageUsed (afterReset env u)).
Qed.

Lemma validated_lastReset (env : Env) (u : User) :
  lastReset (validated env u) = lastReset (afterReset env u).
Proof.
  unfold validated, afterStorageInit.
  by destruct (storageUsed (afterReset env u)).
Qed.

Lemma validated_storage (env : Env) (u : User) :
  storageUsed (validated env u)
  = Some (storageOrZero (Some u)).
Proof.
  unfold validated, afterStorageInit, afterReset, storageOrZero.
  destruct u as [id r p du ml [s |] lr]; simpl; destruct (Qltb _ _); reflexivity.
Qed.

Lemma validated_unchanged (env : Env) (u : User) :
  now env - lastReset u < 30 * msPerDay -> storageUsed u <> None ->
  validated env u = u.
Proof.
  intros Hr Hs. unfold validated. rewrite afterReset_not_due by done.
  unfold afterStorageInit. by destruct (storageUsed u).
Qed.

(** ** The three kinds of outcome of an upload

    For a request that carries a file and comes from an existing user,
    the handler ends in exactly one of three ways: the quota rejection;
    a rejection or failure after the quota check, which leaves the
    validated row and the documents as they are; or success, which adds
    one document and applies the accounting update to the validated
    row. *)
Lemma upload_trichotomy (env : Env) (req : UploadRequest) (file : File)
    (u : User) (w : World) :
  upload_file req = Some file ->
  users w !! session_id (upload_session req) = Some u ->
  user_id u = session_id (upload_session req) ->
  let sid := session_id (upload_session req) in
  let v := validated env u in
  let outcome := upload env req w in
  let w' := snd outcome in
  files w' = delete (file_path file) (files w)
  /\ ((fst outcome = Ok (quotaExceeded v)
       /\ getMonthlyLimit v <= documentsUsed v
       /\ users w' = <[sid := v]> (users w)
       /\ documents w' = documents w
       /\ completionCalls w' = completionCalls w)
      \/ ((responseStatus outcome = Some 400 \/ responseStatus outcome = Some 500)
          /\ documentsUsed v < getMonthlyLimit v
          /\ users w' = <[sid := v]> (users w)
          /\ documents w' = documents w)
      \/ (exists d,
            fst outcome = Ok (uploaded d)
            /\ documentsUsed v < getMonthlyLimit v
            /\ documents w !! doc_id d = None
            /\ documents w' = <[doc_id d := d]> (documents w)
            /\ userId d = sid
            /\ fileSize d = file_size file
            /\ users w' = <[sid := withUpload (Z.of_N (file_size file)) v]> (users w))).
Proof.
  intros Hfile Hu Hid sid v outcome w'. subst outcome w'.
  rewrite (upload_outcome env req file u w Hfile Hu Hid).
  unfold uploadOutcome. fold sid. fold v.
  destruct (getMonthlyLimit v <=? documentsUsed v) eqn:Eq.
  { split; [done |]. left. apply Z.leb_le in Eq. done. }
  apply Z.leb_gt in Eq.
  destruct (extracted env _ _) as [text | e].
  2: { split; [done |]. right. left. unfold responseStatus. simpl. tauto. }
  destruct (bool_decide (text = []) || (length (trim text) <? 50)%nat).
  { split; [done |]. right. left. unfold responseStatus. simpl. tauto. }
  destruct (parsedAnswer _) as [materials | e].
  2: { split; [done |]. right. left. unfold responseStatus. simpl. tauto. }
  destruct (documentDataOf req file materials) as [data | e] eqn:Ed.
  2: { split; [done |]. right. left. unfold responseStatus. simpl. tauto. }
  destruct (documentInsert env data) as [[id date] | e].
  2: { split; [done |]. right. left. unfold responseStatus. simpl. tauto. }
  destruct (documents w !! id) as [d |] eqn:Ew.
  { split; [done |]. right. left. unfold responseStatus. simpl. tauto. }
  split; [done |]. right. right.
  exists (mkDocument id data date). simpl.
  assert (Hdata : data_userId data = sid /\ data_fileSize data = file_size file).
  { unfold documentDataOf in Ed.
    destruct (getProperty materials "summary"); [| done].
    destruct (getProperty materials "flashcards"); [| done].
    destruct (getProperty materials "examQuestions"); [| done].
    by inversion Ed. }
  destruct Hdata as [Hd1 Hd2].
  repeat split; try done. by rewrite insert_insert_eq.
Qed.

(** ** Rejections and failures of an upload *)

Lemma length_trimStart (s : jsstring) : (length (trimStart s) <= length s)%nat.
Proof. rewrite trimStart_drop, length_drop. lia. Qed.

Lemma length_trim (s : jsstring) : (length (trim s) <= length s)%nat.
Proof.
  unfold trim, trimEnd. rewrite length_rev.
  pose proof (length_trimStart (rev (trimStart s))) as H1.
  rewrite length_rev in H1. pose proof (length_trimStart s). lia.
Qed.

(** C2: an upload by an existing user whose documentsUsed, after the
    monthly-reset step, has reached the effective limit is answered with
    status 403 and the quota-exceeded error; no document is created, no
    completion is requested, the temporary file is deleted, and the user
    row is the one left by the reset step and the initialisation of a null
    storage counter: its documentsUsed is the one the quota was evaluated
    on and its storage counter reads as before. When no reset is due and
    the storage counter is not null the user table is unchanged. *)
Theorem upload_quota_rejected (env : Env) (req : UploadRequest) (file : File)
    (u : User) (w : World) :
  upload_file req = Some file ->
  users w !! session_id (upload_session req) = Some u ->
  user_id u = session_id (upload_session req) ->
  getMonthlyLimit u <= documentsUsed (afterReset env u) ->
  let outcome := upload env req w in
  fst outcome
  = Ok (mkResponse 403
          (ErrorBody "Monthly upload limit reached"
             (Some (if isPremium u
                    then "Upgrade for more" else "Free limit reached"))))
  /\ documents (snd outcome) = documents w
  /\ completionCalls (snd outcome) = completionCalls w
  /\ files (snd outcome) !! file_path file = None
  /\ users (snd outcome)
     = <[session_id (upload_session req) := validated env u]> (users w)
  /\ documentsUsed (validated env u) = documentsUsed (afterReset env u)
  /\ storageUsed (validated env u) = Some (storageOrZero (Some u))
  /\ (now env - lastReset u < 30 * msPerDay -> storageUsed u <> None ->
      users (snd outcome) = users w).
Proof.
  intros Hfile Hu Hid Hq outcome. subst outcome.
  rewrite (upload_outcome env req file u w Hfile Hu Hid).
  unfold uploadOutcome.
  rewrite validated_limit, validated_documentsUsed.
  rewrite (proj2 (Z.leb_le _ _) Hq). simpl.
  unfold quotaExceeded. rewrite validated_premium.
  split; [done |]. split; [done |]. split; [done |].
  split; [apply lookup_delete_eq |]. split; [done |].
  split; [done |].
  split; [apply validated_storage |].
  intros Hr Hs. rewrite validated_unchanged by done. by apply insert_id.
Qed.

(** Scenario A: documentsUsed 5, monthlyLimit 5, plan free. *)
Lemma upload_quota_rejected_witness :
  let env := exampleEnv 1000 (letters 60) (Ok [Some exampleCompletion])
               (Ok ("d1", 1000)) in
  let outcome := upload env exampleRequest (exampleWorld userA) in
  fst outcome
  = Ok (mkResponse 403
          (ErrorBody "Monthly upload limit reached" (Some "Free limit reached")))
  /\ documents (snd outcome) = ∅
  /\ users (snd outcome) = users (exampleWorld userA).
Proof.
  intros env outcome.
  destruct (upload_quota_rejected env exampleRequest exampleFile userA
              (exampleWorld userA))
    as (H1 & H2 & _ & _ & _ & _ & _ & H8);
    [reflexivity | reflexivity | reflexivity | vm_compute; discriminate |].
  split; [exact H1 |]. split; [exact H2 |].
  apply H8; [reflexivity | discriminate].
Defined.

(** C8: when the extracted text is empty or shorter than 50 characters the
    upload is answered with status 400 and the insufficient-content error;
    the temporary file is deleted, no completion is requested and no
    document is created. *)
Theorem upload_insufficient_text (env : Env) (req : UploadRequest) (file : File)
    (u : User) (w : World) (text : jsstring) :
  upload_file req = Some file ->
  users w !! session_id (upload_session req) = Some u ->
  user_id u = session_id (upload_session req) ->
  documentsUsed (afterReset env u) < getMonthlyLimit u ->
  extracted env (file_mimetype file) (files w !! file_path file) = Ok text ->
  text = [] \/ (length text < 50)%nat ->
  let outcome := upload env req w in
  fst outcome
  = Ok (mkResponse 400
          (ErrorBody "Could not extract enough text from file" None))
  /\ files (snd outcome) !! file_path file = None
  /\ documents (snd outcome) = documents w
  /\ completionCalls (snd outcome) = completionCalls w
  /\ users (snd outcome)
     = <[session_id (upload_session req) := validated env u]> (users w).
Proof.
  intros Hfile Hu Hid Hq Hx Hshort outcome. subst outcome.
  rewrite (upload_outcome env req file u w Hfile Hu Hid).
  unfold uploadOutcome.
  rewrite validated_limit, validated_documentsUsed.
  rewrite (proj2 (Z.leb_gt _ _) Hq), Hx.
  assert (Hc : bool_decide (text = []) || (length (trim text) <? 50)%nat = true).
  { apply orb_true_iff. destruct Hshort as [-> | Hlen].
    - left. by apply bool_decide_eq_true.
    - right. apply Nat.ltb_lt. pose proof (length_trim text). lia. }
  rewrite Hc. simpl.
  split; [done |]. split; [apply lookup_delete_eq |]. done.
Qed.

(** Scenario C: the extracted text has 30 characters. *)
Lemma upload_insufficient_text_witness :
  let env := exampleEnv 1000 (letters 30) (Ok [Some exampleCompletion])
               (Ok ("d1", 1000)) in
  let outcome := upload env exampleRequest (exampleWorld userB) in
  fst outcome
  = Ok (mkResponse 400
          (ErrorBody "Could not extract enough text from file" None))
  /\ files (snd outcome) !! "uploads/17-42-notes.pdf" = None
  /\ documents (snd outcome) = ∅.
Proof.
  intros env outcome.
  destruct (upload_insufficient_text env exampleRequest exampleFile userB
              (exampleWorld userB) (letters 30))
    as (H1 & H2 & H3 & _);
    [reflexivity | reflexivity | reflexivity | vm_compute; reflexivity
    | reflexivity | right; vm_compute; lia |].
  split; [exact H1 |]. split; [exact H2 | exact H3].
Defined.

(** ** The monthly reset inside an upload *)

Lemma upload_status_403 (env : Env) (req : UploadRequest) (file : File)
    (u : User) (w : World) :
  upload_file req = Some file ->
  users w !! session_id (upload_session req) = Some u ->
  user_id u = session_id (upload_session req) ->
  responseStatus (upload env req w) = Some 403
  <-> getMonthlyLimit u <= documentsUsed (afterReset env u).
Proof.
  intros Hfile Hu Hid.
  destruct (upload_trichotomy env req file u w Hfile Hu Hid)
    as [_ [(Hr & Hq & _) | [([Hr | Hr] & Hq & _) | (d & Hr & Hq & _)]]];
    rewrite validated_limit, validated_documentsUsed in Hq;
    unfold responseStatus in *; rewrite ?Hr; simpl; split; intros H;
    try done; try lia; try congruence.
Qed.

Lemma upload_final_row (env : Env) (req : UploadRequest) (file : File)
    (u : User) (w : World) :
  upload_file req = Some file ->
  users w !! session_id (upload_session req) = Some u ->
  user_id u = session_id (upload_session req) ->
  exists u',
    users (snd (upload env req w)) !! session_id (upload_session req) = Some u'
    /\ lastReset u' = lastReset (afterReset env u)
    /\ documentsUsed u'
       = documentsUsed (afterReset env u)
         + (if bool_decide (responseStatus (upload env req w) = Some 200)
            then 1 else 0).
Proof.
  intros Hfile Hu Hid.
  destruct (upload_trichotomy env req file u w Hfile Hu Hid)
    as [_ [(Hr & _ & Hus & _) | [(Hr & _ & Hus & _) | (d & Hr & _ & _ & _ & _ & _ & Hus)]]];
    rewrite Hus, lookup_insert_eq; eexists; (split; [reflexivity |]);
    unfold responseStatus in *; rewrite ?Hr; simpl;
    rewrite ?validated_lastReset, ?validated_documentsUsed.
  - split; [done |]. lia.
  - split; [done |].
    case_bool_decide as Hs; [| lia].
    destruct (fst (upload env req w)); destruct Hr; congruence.
  - split; [done |]. done.
Qed.

(** C6: on an upload that carries a file, from an existing user: when 30
    days or more have passed since lastReset, the reset step writes
    documentsUsed 0 and lastReset now, and the quota is evaluated on the
    count 0 (the request is refused for quota exactly when the effective
    limit is not positive); the row that the request leaves has lastReset
    now and documentsUsed 0, or 1 after a successful upload. When fewer
    than 30 days have passed the reset step returns the row and the world
    as they are, the quota is evaluated on the stored count, and lastReset
    keeps its value. *)
Theorem upload_monthly_reset (env : Env) (req : UploadRequest) (file : File)
    (u : User) (w : World) :
  upload_file req = Some file ->
  users w !! session_id (upload_session req) = Some u ->
  user_id u = session_id (upload_session req) ->
  let sid := session_id (upload_session req) in
  let outcome := upload env req w in
  let success := if bool_decide (responseStatus outcome = Some 200) then 1 else 0 in
  (30 * msPerDay <= now env - lastReset u ->
   resetMonthlyUsageIfNeeded env u w
   = (Ok (withReset (now env) u), setUsers (insert sid (withReset (now env) u)) w)
   /\ documentsUsed (withReset (now env) u) = 0
   /\ lastReset (withReset (now env) u) = now env
   /\ (responseStatus outcome = Some 403 <-> getMonthlyLimit u <= 0)
   /\ exists u', users (snd outcome) !! sid = Some u'
        /\ lastReset u' = now env /\ documentsUsed u' = success)
  /\ (now env - lastReset u < 30 * msPerDay ->
      resetMonthlyUsageIfNeeded env u w = (Ok u, w)
      /\ (responseStatus outcome = Some 403
          <-> getMonthlyLimit u <= documentsUsed u)
      /\ exists u', users (snd outcome) !! sid = Some u'
           /\ lastReset u' = lastReset u
           /\ documentsUsed u' = documentsUsed u + success).
Proof.
  intros Hfile Hu Hid sid outcome success. subst sid outcome success.
  pose proof (upload_status_403 env req file u w Hfile Hu Hid) as H403.
  destruct (upload_final_row env req file u w Hfile Hu Hid)
    as (u' & Hrow & Hlast & Hused).
  split; intros Hdays.
  - rewrite afterReset_due in * by done.
    split.
    { rewrite reset_run by (by rewrite Hid).
      by rewrite afterReset_due, Hid by done. }
    split; [done |]. split; [done |]. split; [exact H403 |].
    exists u'. simpl in *. split; [done |]. split; [done |]. lia.
  - rewrite afterReset_not_due in * by done.
    split.
    { rewrite reset_run by (by rewrite Hid).
      rewrite afterReset_not_due by done.
      rewrite setUsers_insert_id; [done | by rewrite Hid]. }
    split; [exact H403 |]. by exists u'.
Qed.

(** A user at the limit whose last reset is 30 days old uploads again. *)
Lemma upload_monthly_reset_witness :
  let env := exampleEnv (30 * msPerDay) (letters 60)
               (Ok [Some exampleCompletion]) (Ok ("d1", 1000)) in
  let outcome := upload env exampleRequest (exampleWorld userA) in
  (responseStatus outcome = Some 403 <-> getMonthlyLimit userA <= 0)
  /\ exists u', users (snd outcome) !! "u1" = Some u'
       /\ lastReset u' = 30 * msPerDay /\ documentsUsed u' = 1.
Proof.
  intros env outcome.
  destruct (upload_monthly_reset env exampleRequest exampleFile userA
              (exampleWorld userA))
    as [Hdue _]; [reflexivity | reflexivity | reflexivity |].
  destruct Hdue as (_ & _ & _ & H403 & Hrow); [vm_compute; discriminate |].
  split; [exact H403 | exact Hrow].
Defined.

(** ** Persistence before accounting *)

(** C7: for an upload that carries a file, from an existing user. If the
    pipeline reaches the creation of the Document record and that step
    throws, the request is answered with status 500 and the message of the
    error, no document is added, the temporary file is deleted and the
    user row is the validated one: documentsUsed and the storage counter
    have not been incremented. And in every run, a user row that differs
    from the validated one comes with a newly created document and the
    success response: the accounting update runs only after the record
    has been persisted. *)
Theorem upload_persistence_failure (env : Env) (req : UploadRequest)
    (file : File) (u : User) (w : World) :
  upload_file req = Some file ->
  users w !! session_id (upload_session req) = Some u ->
  user_id u = session_id (upload_session req) ->
  let sid := session_id (upload_session req) in
  let v := validated env u in
  let outcome := upload env req w in
  (forall text materials data e,
     documentsUsed v < getMonthlyLimit v ->
     extracted env (file_mimetype file) (files w !! file_path file) = Ok text ->
     text <> [] -> (50 <= length (trim text))%nat ->
     parsedAnswer (chatCompletion env (length (completionCalls w))
                     (promptFor text (languageOf req))) = Ok materials ->
     documentDataOf req file materials = Ok data ->
     fst (documentCreate env data
            (recordCall (promptFor text (languageOf req))
               (setUsers (insert sid v) w))) = Throw e ->
     fst outcome
     = Ok (mkResponse 500
             (ErrorBody "Failed to process document" (Some (err_message e))))
     /\ documents (snd outcome) = documents w
     /\ files (snd outcome) !! file_path file = None
     /\ users (snd outcome) = <[sid := v]> (users w)
     /\ documentsUsed v = documentsUsed (afterReset env u)
     /\ storageUsed v = Some (storageOrZero (Some u)))
  /\ (users (snd outcome) !! sid <> Some v ->
      exists d,
        fst outcome = Ok (uploaded d)
        /\ documents w !! doc_id d = None
        /\ documents (snd outcome) !! doc_id d = Some d
        /\ users (snd outcome) !! sid
           = Some (withUpload (Z.of_N (file_size file)) v)).
Proof.
  intros Hfile Hu Hid sid v outcome. split.
  - intros text materials data e Hq Hx Hne Hlen Hgen Hdata Hcreate.
    subst outcome.
    rewrite (upload_outcome env req file u w Hfile Hu Hid).
    unfold uploadOutcome. fold sid. fold v.
    rewrite (proj2 (Z.leb_gt _ _) Hq), Hx.
    rewrite bool_decide_eq_false_2 by done.
    rewrite (proj2 (Nat.ltb_ge _ _) Hlen). simpl orb. cbv iota.
    rewrite Hgen, Hdata.
    unfold documentCreate in Hcreate.
    destruct (documentInsert env data) as [[id date] | e'].
    + simpl in Hcreate. destruct (documents w !! id) as [d |].
      * simpl in Hcreate. inversion Hcreate. subst e. simpl.
        split; [done |]. split; [done |]. split; [apply lookup_delete_eq |].
        split; [done |].
        split; [apply validated_documentsUsed | apply validated_storage].
      * assert (Hdu : data_userId data = sid).
        { unfold documentDataOf in Hdata.
          destruct (getProperty materials "summary"); [| done].
          destruct (getProperty materials "flashcards"); [| done].
          destruct (getProperty materials "examQuestions"); [| done].
          by inversion Hdata. }
        rewrite Hdu, lookup_insert_eq in Hcreate. done.
    + simpl in Hcreate. inversion Hcreate. subst e'. simpl.
      split; [done |]. split; [done |]. split; [apply lookup_delete_eq |].
      split; [done |].
      split; [apply validated_documentsUsed | apply validated_storage].
  - intros Hchanged.
    destruct (upload_trichotomy env req file u w Hfile Hu Hid)
      as [_ [(_ & _ & Hus & _) | [(_ & _ & Hus & _) | (d & Hr & _ & Hnew & Hds & _ & _ & Hus)]]].
    + exfalso. apply Hchanged. subst outcome. fold sid v in Hus.
      by rewrite Hus, lookup_insert_eq.
    + exfalso. apply Hchanged. subst outcome. fold sid v in Hus.
      by rewrite Hus, lookup_insert_eq.
    + exists d. subst outcome. fold sid v in Hus.
      rewrite Hus, Hds, !lookup_insert_eq. done.
Qed.

(** The store refuses the new row. *)
Lemma upload_persistence_failure_witness :
  let env := exampleEnv 1000 (letters 60) (Ok [Some exampleCompletion])
               (Throw (mkError "PrismaClientInitializationError"
                         "cannot reach database server")) in
  let outcome := upload env exampleRequest (exampleWorld userB) in
  fst outcome
  = Ok (mkResponse 500
          (ErrorBody "Failed to process document"
             (Some "cannot reach database server")))
  /\ documents (snd outcome) = ∅
  /\ users (snd outcome) = <["u1" := userB]> (users (exampleWorld userB)).
Proof.
  intros env outcome.
  destruct (upload_persistence_failure env exampleRequest exampleFile userB
              (exampleWorld userB)) as [Hfail _];
    [reflexivity | reflexivity | reflexivity |].
  destruct (Hfail (letters 60)
              (JObject [(js "summary", JString (js "s"));
                        (js "flashcards", JArray []);
                        (js "examQuestions", JArray [])])
              (mkDocumentData "u1" "17-42-notes.pdf" "notes.pdf" mimePdf 1000
                 "english" (Some (JString (js "s"))) (Some (JArray []))
                 (Some (JArray [])))
              (mkError "PrismaClientInitializationError"
                 "cannot reach database server"))
    as (H1 & H2 & _ & H4 & _);
    [vm_compute; reflexivity | reflexivity | discriminate | vm_compute; lia
    | vm_compute; reflexivity | reflexivity | reflexivity |].
  split; [exact H1 |]. split; [exact H2 | exact H4].
Defined.

(** ** Deleting a document *)

Lemma floorAtZero_max (x : Z) : floorAtZero x = Z.max x 0.
Proof. unfold floorAtZero. destruct (0 <? x) eqn:E; lia. Qed.

(** An authorised deletion of an existing document whose owner exists. *)
Lemma deleteDocument_run (req : DeleteRequest) (d : Document) (o : User)
    (w : World) :
  documents w !! delete_params_id req = Some d ->
  doc_id d = delete_params_id req ->
  session_role (delete_session req) = Some "admin"
  \/ userId d = session_id (delete_session req) ->
  users w !! userId d = Some o ->
  deleteDocument req w
  = (Ok (mkResponse 200 (SuccessBody (Some "Document deleted"))),
     setUsers
       (insert (userId d)
          (withStorage
             (Some (floorAtZero (storageOrZero (Some o) - Z.of_N (fileSize d))))
             o))
       (setDocuments (delete (doc_id d)) w)).
Proof.
  intros Hd Hdid Hauth Ho.
  unfold deleteDocument, tryCatch.
  erewrite (bind_ok (documentFindUnique _)) by reflexivity. rewrite Hd.
  assert (Hguard :
    negb (bool_decide (session_role (delete_session req) = Some "admin"))
    && negb (bool_decide (userId d = session_id (delete_session req))) = false).
  { destruct Hauth as [Ha | Ha].
    - by rewrite (bool_decide_eq_true_2 _ Ha).
    - rewrite (bool_decide_eq_true_2 _ Ha). apply andb_false_r. }
  rewrite Hguard.
  unfold bind at 1, documentDelete at 1. rewrite Hdid, Hd.
  unfold bind at 1, userFindUnique at 1.
  replace (users (setDocuments (delete (delete_params_id req)) w) !! userId d)
    with (Some o) by done.
  unfold bind, userUpdate, json, ret.
  replace (users (setDocuments (delete (delete_params_id req)) w) !! userId d)
    with (Some o) by done.
  done.
Qed.

(** A deletion through the admin route of a document of user [id]. *)
Lemma adminDeleteFile_run (env : Env) (req : AdminDeleteRequest) (d : Document)
    (o : User) (w : World) :
  documents w !! admin_documentId req = Some d ->
  userId d = admin_id req ->
  users w !! admin_id req = Some o ->
  exists w',
    adminDeleteFile env req w = (Ok (mkResponse 200 (SuccessBody None)), w')
    /\ users w'
       = <[admin_id req :=
             withStorage
               (Some (floorAtZero (storageOrZero (Some o) - Z.of_N (fileSize d))))
               o]> (users w)
    /\ documents w' = delete (admin_documentId req) (documents w).
Proof.
  intros Hd Hown Ho.
  unfold adminDeleteFile, tryCatch. cbv zeta.
  erewrite (bind_ok (documentFindUnique _)) by reflexivity. rewrite Hd.
  rewrite (bool_decide_eq_true_2 _ Hown). change (negb true) with false.
  cbv iota.
  unfold bind at 1, documentDelete at 1. rewrite Hd.
  unfold bind at 1, userFindUnique at 1.
  replace (users (setDocuments (delete (admin_documentId req)) w) !! admin_id req)
    with (Some o) by done.
  unfold bind at 1, userUpdate at 1.
  replace (users (setDocuments (delete (admin_documentId req)) w) !! admin_id req)
    with (Some o) by done.
  unfold bind, logAdminAction, tryCatch, json, ret.
  destruct (auditInsert env _); eexists; (split; [reflexivity |]); done.
Qed.

(** C3: a successful upload of a file of size S by a user whose storage
    counter is s >= 0 creates a document of recorded size S and leaves the
    counter at s + S; deleting that document, through the documents router
    (by the owner or an admin) or through the admin router, puts the
    counter back to s. And every deletion of a document whose owner exists
    sets the owner's counter to the previous value minus the recorded
    size, floored at zero, so the result is never negative. *)
Theorem storage_round_trip :
  (forall (env : Env) (req : UploadRequest) (file : File) (u : User)
          (w : World) (s : Z),
     upload_file req = Some file ->
     users w !! session_id (upload_session req) = Some u ->
     user_id u = session_id (upload_session req) ->
     storageUsed u = Some s -> 0 <= s ->
     responseStatus (upload env req w) = Some 200 ->
     let sid := session_id (upload_session req) in
     let w1 := snd (upload env req w) in
     exists d u1,
       fst (upload env req w) = Ok (uploaded d)
       /\ documents w !! doc_id d = None
       /\ documents w1 !! doc_id d = Some d
       /\ userId d = sid /\ fileSize d = file_size file
       /\ users w1 !! sid = Some u1
       /\ storageUsed u1 = Some (s + Z.of_N (file_size file))
       /\ (forall dreq : DeleteRequest,
             delete_params_id dreq = doc_id d ->
             session_role (delete_session dreq) = Some "admin"
             \/ session_id (delete_session dreq) = sid ->
             exists u2,
               fst (deleteDocument dreq w1)
               = Ok (mkResponse 200 (SuccessBody (Some "Document deleted")))
               /\ documents (snd (deleteDocument dreq w1)) !! doc_id d = None
               /\ users (snd (deleteDocument dreq w1)) !! sid = Some u2
               /\ storageUsed u2 = Some s)
       /\ (forall (env' : Env) (areq : AdminDeleteRequest),
             admin_id areq = sid -> admin_documentId areq = doc_id d ->
             exists u2,
               fst (adminDeleteFile env' areq w1)
               = Ok (mkResponse 200 (SuccessBody None))
               /\ documents (snd (adminDeleteFile env' areq w1)) !! doc_id d = None
               /\ users (snd (adminDeleteFile env' areq w1)) !! sid = Some u2
               /\ storageUsed u2 = Some s))
  /\ (forall (w : World) (d : Document) (o : User),
        users w !! userId d = Some o ->
        let next := Z.max (storageOrZero (Some o) - Z.of_N (fileSize d)) 0 in
        0 <= next
        /\ (forall dreq : DeleteRequest,
              documents w !! delete_params_id dreq = Some d ->
              doc_id d = delete_params_id dreq ->
              session_role (delete_session dreq) = Some "admin"
              \/ userId d = session_id (delete_session dreq) ->
              exists o',
                fst (deleteDocument dreq w)
                = Ok (mkResponse 200 (SuccessBody (Some "Document deleted")))
                /\ users (snd (deleteDocument dreq w)) !! userId d = Some o'
                /\ storageUsed o' = Some next)
        /\ (forall (env : Env) (areq : AdminDeleteRequest),
              documents w !! admin_documentId areq = Some d ->
              userId d = admin_id areq ->
              exists o',
                fst (adminDeleteFile env areq w)
                = Ok (mkResponse 200 (SuccessBody None))
                /\ users (snd (adminDeleteFile env areq w)) !! userId d = Some o'
                /\ storageUsed o' = Some next)).
Proof.
  assert (Hdel : forall (w : World) (d : Document) (o : User),
    users w !! userId d = Some o ->
    let next := Z.max (storageOrZero (Some o) - Z.of_N (fileSize d)) 0 in
    (forall dreq : DeleteRequest,
       documents w !! delete_params_id dreq = Some d ->
       doc_id d = delete_params_id dreq ->
       session_role (delete_session dreq) = Some "admin"
       \/ userId d = session_id (delete_session dreq) ->
       exists o',
         fst (deleteDocument dreq w)
         = Ok (mkResponse 200 (SuccessBody (Some "Document deleted")))
         /\ documents (snd (deleteDocument dreq w)) !! doc_id d = None
         /\ users (snd (deleteDocument dreq w)) !! userId d = Some o'
         /\ storageUsed o' = Some next)
    /\ (forall (env : Env) (areq : AdminDeleteRequest),
          documents w !! admin_documentId areq = Some d ->
          userId d = admin_id areq ->
          exists o',
            fst (adminDeleteFile env areq w)
            = Ok (mkResponse 200 (SuccessBody None))
            /\ documents (snd (adminDeleteFile env areq w)) !! admin_documentId areq
               = None
            /\ users (snd (adminDeleteFile env areq w)) !! userId d = Some o'
            /\ storageUsed o' = Some next)).
  { intros w d o Ho next. split.
    - intros dreq Hd Hdid Hauth.
      rewrite (deleteDocument_run dreq d o w Hd Hdid Hauth Ho). simpl.
      eexists. split; [done |]. split; [apply lookup_delete_eq |].
      rewrite lookup_insert_eq. split; [done |].
      simpl. by rewrite floorAtZero_max.
    - intros env areq Hd Hown.
      destruct (adminDeleteFile_run env areq d o w Hd Hown)
        as (w' & Hrun & Hus & Hds); [by rewrite <- Hown |].
      rewrite Hrun. simpl. rewrite Hus, Hds, Hown, lookup_insert_eq.
      eexists. split; [done |]. split; [apply lookup_delete_eq |].
      split; [done |]. simpl. by rewrite floorAtZero_max. }
  split.
  - intros env req file u w s Hfile Hu Hid Hs Hs0 H200 sid w1.
    destruct (upload_trichotomy env req file u w Hfile Hu Hid)
      as [_ [(Hr & _) | [(Hr & _) | (d & Hr & _ & Hnew & Hds & Hown & Hsize & Hus)]]].
    { unfold responseStatus in H200. rewrite Hr in H200. discriminate. }
    { destruct Hr as [Hr | Hr]; congruence. }
    fold sid w1 in Hds, Hus, Hown.
    set (u1 := withUpload (Z.of_N (file_size file)) (validated env u)) in *.
    assert (Hd1 : documents w1 !! doc_id d = Some d)
      by (by rewrite Hds, lookup_insert_eq).
    assert (Hu1 : users w1 !! userId d = Some u1)
      by (by rewrite Hown, Hus, lookup_insert_eq).
    assert (Hst : storageUsed u1 = Some (s + Z.of_N (file_size file))).
    { subst u1. simpl. rewrite validated_storage. simpl. by rewrite Hs. }
    assert (Hback :
      Z.max (storageOrZero (Some u1) - Z.of_N (fileSize d)) 0 = s).
    { unfold storageOrZero. rewrite Hst, Hsize. lia. }
    destruct (Hdel w1 d u1 Hu1) as [Howner Hadmin].
    exists d, u1. split; [done |]. split; [done |]. split; [done |].
    split; [done |]. split; [done |].
    split; [by rewrite <- Hown |]. split; [done |]. split.
    + intros dreq Hp Hauth.
      destruct (Howner dreq) as (u2 & H1 & H2 & H3 & H4).
      { by rewrite Hp. }
      { done. }
      { destruct Hauth as [Ha | Ha]; [by left | right; congruence]. }
      exists u2. rewrite <- Hown. rewrite Hback in H4. done.
    + intros env' areq Ha Hp.
      destruct (Hadmin env' areq) as (u2 & H1 & H2 & H3 & H4).
      { by rewrite Hp. }
      { congruence. }
      exists u2. rewrite <- Hown. rewrite Hback in H4. rewrite Hp in H2. done.
  - intros w d o Ho next. split; [lia |].
    destruct (Hdel w d o Ho) as [Howner Hadmin]. split.
    + intros dreq Hd Hdid Hauth.
      destruct (Howner dreq Hd Hdid Hauth) as (o' & H1 & _ & H3 & H4).
      by exists o'.
    + intros env areq Hd Hown.
      destruct (Hadmin env areq Hd Hown) as (o' & H1 & _ & H3 & H4).
      by exists o'.
Qed.

(** Scenario B followed by the owner's deletion, and Scenario E. *)
Lemma storage_round_trip_witness :
  let env := exampleEnv 1000 (letters 60) (Ok [Some exampleCompletion])
               (Ok ("d1", 1000)) in
  let w1 := snd (upload env exampleRequest (exampleWorld userB)) in
  let owner := mkDeleteRequest (mkSessionUser "u1" (Some "user")) "d1" in
  let admin := mkAdminDeleteRequest (mkSessionUser "root" (Some "admin")) "u1" "d9" in
  (exists u1, users w1 !! "u1" = Some u1 /\ storageUsed u1 = Some 8000)
  /\ (exists u2, users (snd (deleteDocument owner w1)) !! "u1" = Some u2
        /\ storageUsed u2 = Some 7000)
  /\ (exists o', users (snd (adminDeleteFile env admin worldE)) !! "u1" = Some o'
        /\ storageUsed o' = Some 0).
Proof.
  intros env w1 owner admin.
  destruct storage_round_trip as [Hround Hdelete].
  destruct (Hround env exampleRequest exampleFile userB (exampleWorld userB) 7000)
    as (d & u1 & Hr & _ & _ & _ & _ & Hu1 & Hs1 & Howner & _);
    [reflexivity | reflexivity | reflexivity | reflexivity | lia
    | vm_compute; reflexivity |].
  assert (Hid : doc_id d = "d1").
  { vm_compute in Hr. by inversion Hr. }
  split; [by exists u1 |]. split.
  - destruct (Howner owner) as (u2 & _ & _ & Hu2 & Hs2);
      [by rewrite Hid | right; reflexivity |].
    by exists u2.
  - destruct (Hdelete worldE documentE userE) as (_ & _ & Hadmin);
      [reflexivity |].
    destruct (Hadmin env admin) as (o' & _ & Ho' & Hs');
      [reflexivity | reflexivity |].
    by exists o'.
Defined.

(** ** The storage counter is never negative *)

Section Preservation.

Context {A B : Type}.

Lemma preserves_same (m : M A) :
  (forall w, users (snd (m w)) = users w) -> preserves m.
Proof.
  intros Hsame w Hw id u. rewrite Hsame. apply Hw.
Qed.

Lemma preserves_ret (a : A) : preserves (ret a).
Proof. by apply preserves_same. Qed.

Lemma preserves_throw (e : Error) : preserves (@throw A e).
Proof. by apply preserves_same. Qed.

Lemma preserves_lift (r : Result A) : preserves (lift r).
Proof. by apply preserves_same. Qed.

Lemma preserves_bind (m : M A) (k : A -> M B) :
  preserves m -> (forall a, preserves (k a)) -> preserves (bind m k).
Proof.
  intros Hm Hk w Hw. unfold bind.
  specialize (Hm w Hw). destruct (m w) as [[a | e] w']; simpl in Hm.
  - by apply Hk.
  - done.
Qed.

Lemma preserves_tryCatch (m : M A) (handler : Error -> M A) :
  preserves m -> (forall e, preserves (handler e)) ->
  preserves (tryCatch m handler).
Proof.
  intros Hm Hh w Hw. unfold tryCatch.
  specialize (Hm w Hw). destruct (m w) as [[a | e] w']; simpl in Hm.
  - done.
  - by apply Hh.
Qed.

End Preservation.

Lemma preserves_userUpdate (id : string) (data : User -> User) :
  (forall u, rowNonneg u -> rowNonneg (data u)) -> preserves (userUpdate id data).
Proof.
  intros Hdata w Hw. unfold userUpdate.
  destruct (users w !! id) as [u |] eqn:Eu; [| done].
  intros id' u'. simpl. rewrite lookup_insert.
  case_decide; [| apply Hw].
  intros [= <-]. apply Hdata. by eapply Hw.
Qed.

Lemma preserves_userUpdateMany (data : User -> User) :
  (forall u, rowNonneg u -> rowNonneg (data u)) -> preserves (userUpdateMany data).
Proof.
  intros Hdata w Hw id u. simpl. rewrite lookup_fmap.
  destruct (users w !! id) as [u0 |] eqn:Eu; [| done].
  intros [= <-]. apply Hdata. by eapply Hw.
Qed.

Lemma rowNonneg_withStorage (s : Z) (u : User) : 0 <= s -> rowNonneg (withStorage (Some s) u).
Proof. intros Hs s'. simpl. intros [= <-]. done. Qed.

Lemma rowNonneg_withReset (now : Z) (u : User) : rowNonneg u -> rowNonneg (withReset now u).
Proof. intros Hu s. simpl. apply Hu. Qed.

Lemma rowNonneg_withUpload (size : N) (u : User) :
  rowNonneg u -> rowNonneg (withUpload (Z.of_N size) u).
Proof.
  intros Hu s. simpl. destruct (storageUsed u) as [s0 |] eqn:E; [| done].
  simpl. intros [= <-]. specialize (Hu s0 E). lia.
Qed.

Lemma preserves_swallow (m : M unit) : preserves m -> preserves (swallow m).
Proof. intros Hm. apply preserves_tryCatch; [done |]. intros e. apply preserves_ret. Qed.

Lemma preserves_unlink (path : string) : preserves (unlink path).
Proof.
  apply preserves_same. intros w. unfold unlink. by destruct (files w !! path).
Qed.

Lemma preserves_userFindUnique (id : string) : preserves (userFindUnique id).
Proof. by apply preserves_same. Qed.

Lemma preserves_documentFindUnique (id : string) : preserves (documentFindUnique id).
Proof. by apply preserves_same. Qed.

Lemma preserves_documentDelete (id : string) : preserves (documentDelete id).
Proof.
  apply preserves_same. intros w. unfold documentDelete.
  by destruct (documents w !! id).
Qed.

Lemma preserves_documentCreate (env : Env) (data : DocumentData) :
  preserves (documentCreate env data).
Proof.
  apply preserves_same. intros w. unfold documentCreate.
  destruct (documentInsert env data) as [[id date] | e]; [| done].
  destruct (documents w !! id); [done |].
  by destruct (users w !! data_userId data).
Qed.

Lemma preserves_extract (env : Env) (path mimetype : string) :
  preserves (extractTextFromFile env path mimetype).
Proof. apply preserves_same. intros w. by rewrite extract_run. Qed.

Lemma preserves_generate (env : Env) (text : jsstring) (language : string) :
  preserves (generateStudyMaterials env text language).
Proof. apply preserves_same. intros w. by rewrite generate_run. Qed.

Lemma preserves_logAdminAction (env : Env) (entry : AuditEntry) :
  preserves (logAdminAction env entry).
Proof.
  apply preserves_same. intros w. unfold logAdminAction, tryCatch.
  by destruct (auditInsert env entry).
Qed.

Lemma preserves_reset (env : Env) (u : User) :
  preserves (resetMonthlyUsageIfNeeded env u).
Proof.
  unfold resetMonthlyUsageIfNeeded. destruct (Qltb _ _).
  - apply preserves_ret.
  - apply preserves_userUpdate. intros u'. apply rowNonneg_withReset.
Qed.

Lemma preserves_sequenceM {A} (ms : list (M A)) :
  Forall preserves ms -> preserves (sequenceM ms).
Proof.
  induction 1 as [| m rest Hm _ IH]; simpl.
  - apply preserves_ret.
  - apply preserves_bind; [done |]. intros a.
    apply preserves_bind; [done |]. intros others. apply preserves_ret.
Qed.

Lemma preserves_transaction {A} (ms : list (M A)) :
  Forall preserves ms -> preserves (transaction ms).
Proof.
  intros Hms w Hw. unfold transaction.
  pose proof (preserves_sequenceM ms Hms w Hw) as Hseq.
  by destruct (sequenceM ms w) as [[results | e] w'].
Qed.

Lemma floorAtZero_nonneg (x : Z) : 0 <= floorAtZero x.
Proof. rewrite floorAtZero_max. lia. Qed.

Create HintDb preserve.
#[local] Hint Resolve preserves_unlink preserves_userFindUnique
  preserves_documentFindUnique preserves_documentDelete preserves_documentCreate
  preserves_extract preserves_generate preserves_logAdminAction preserves_reset
  rowNonneg_withStorage rowNonneg_withReset rowNonneg_withUpload
  floorAtZero_nonneg : preserve.

(** Walks through a handler, one construct at a time. *)
Ltac step_preserves :=
  first
    [ solve [auto with preserve]
    | solve [apply rowNonneg_withStorage; first [lia | apply floorAtZero_nonneg]]
    | apply preserves_ret
    | apply preserves_throw
    | apply preserves_lift
    | apply preserves_swallow
    | apply preserves_bind; [| intros ?]
    | apply preserves_tryCatch; [| intros ?]
    | apply preserves_userUpdate; intros ? ?
    | match goal with
      | |- preserves (match ?x with _ => _ end) => destruct x
      end ].

Lemma preserves_upload (env : Env) (req : UploadRequest) : preserves (upload env req).
Proof.
  unfold upload, uploadBody, statusJson, json. repeat step_preserves.
Qed.

Lemma preserves_deleteDocument (req : DeleteRequest) : preserves (deleteDocument req).
Proof.
  unfold deleteDocument, statusJson, json. repeat step_preserves.
Qed.

Lemma preserves_adminDeleteFile (env : Env) (req : AdminDeleteRequest) :
  preserves (adminDeleteFile env req).
Proof.
  unfold adminDeleteFile, statusJson, json. cbv zeta. repeat step_preserves.
Qed.

Lemma preserves_run : preserves run.
Proof.
  unfold run. apply preserves_bind.
  { apply preserves_userUpdateMany. intros u _. by apply rowNonneg_withStorage. }
  intros _. apply preserves_bind; [by apply preserves_same |].
  intros summaries. apply preserves_bind; [| intros ?; apply preserves_ret].
  apply preserves_transaction. apply Forall_fmap, Forall_forall.
  intros summary _. simpl. apply preserves_userUpdate.
  intros u _. apply rowNonneg_withStorage. lia.
Qed.

(** C4: each operation that writes a storage counter (the upload with its
    accounting increment, the owner's deletion, the admin's deletion, the
    backfill), on whatever path it takes, leaves every storage counter
    non-negative if every storage counter was non-negative before. *)
Theorem storage_never_negative (op : Operation) (w : World) :
  storageNonneg w -> storageNonneg (perform op w).
Proof.
  destruct op as [env req | req | env req |]; simpl.
  - apply preserves_upload.
  - apply preserves_deleteDocument.
  - apply preserves_adminDeleteFile.
  - apply preserves_run.
Qed.

(** ** The storage backfill *)

Lemma orZero_Some (n : N) : orZero (Some n) = n.
Proof.
  unfold orZero. destruct (n =? 0)%N eqn:E; [| done].
  apply N.eqb_eq in E. done.
Qed.

Lemma sumFileSize_absent (uid : string) (rows : list Document) :
  uid ∉ userId <$> rows -> sumFileSize uid rows = 0%N.
Proof.
  induction rows as [| d rest IH]; [done |].
  simpl. intros Hnot. apply not_elem_of_cons in Hnot as [Hne Hrest].
  rewrite bool_decide_eq_false_2 by done. by apply IH.
Qed.

Lemma withStorage_withStorage (s s' : option Z) (u : User) :
  withStorage s (withStorage s' u) = withStorage s u.
Proof. reflexivity. Qed.

(** Running one update per listed user, in order: every update succeeds
    when the users exist, and the table ends with the listed users'
    counters overwritten. *)
Lemma sequenceM_updates (F : string -> Z) (ids : list string) (w : World) :
  (forall id, id ∈ ids -> is_Some (users w !! id)) ->
  exists results us,
    sequenceM ((fun id => userUpdate id (withStorage (Some (F id)))) <$> ids) w
    = (Ok results, setUsers (fun _ => us) w)
    /\ forall uid,
         us !! uid
         = (if bool_decide (uid ∈ ids)
            then withStorage (Some (F uid)) else fun u => u)
             <$> users w !! uid.
Proof.
  revert w. induction ids as [| i rest IH]; intros w Hex.
  - exists [], (users w). split.
    + simpl. unfold ret. by destruct w.
    + intros id. rewrite bool_decide_eq_false_2 by (by intros ?%elem_of_nil).
      by destruct (users w !! id).
  - destruct (Hex i) as [u Hu]; [by left |].
    set (w1 := setUsers (insert i (withStorage (Some (F i)) u)) w).
    destruct (IH w1) as (results & us & Hrun & Hus).
    { intros id Hid. subst w1. simpl. rewrite lookup_insert.
      case_decide; [done |]. apply Hex. by right. }
    exists (withStorage (Some (F i)) u :: results), us. split.
    + simpl. unfold bind at 1, userUpdate at 1. rewrite Hu. fold w1.
      erewrite (bind_ok _ _ w1 _ results) by exact Hrun. done.
    + intros id. rewrite Hus. subst w1. simpl. rewrite lookup_insert.
      case_decide as Hi.
      * subst id. rewrite Hu. simpl.
        rewrite (bool_decide_eq_true_2 (i ∈ i :: rest)) by (by left).
        by case_bool_decide.
      * destruct (users w !! id) as [u' |]; [| done]. simpl.
        f_equal. destruct (decide (id ∈ rest)) as [Hin | Hnin].
        -- rewrite (bool_decide_eq_true_2 _ Hin).
           by rewrite (bool_decide_eq_true_2 (id ∈ i :: rest)) by (by right).
        -- rewrite (bool_decide_eq_false_2 _ Hnin).
           rewrite (bool_decide_eq_false_2 (id ∈ i :: rest)); [done |].
           intros [? | ?]%elem_of_cons; done.
Qed.

Lemma documentRows_owner (w : World) (uid : string) :
  ownersExist w -> uid ∈ userId <$> documentRows w -> is_Some (users w !! uid).
Proof.
  intros Hfk Hin. apply list_elem_of_fmap in Hin as (d & -> & Hd).
  unfold documentRows in Hd. apply list_elem_of_fmap in Hd as ([k d'] & -> & Hkd).
  apply elem_of_map_to_list in Hkd. by eapply Hfk.
Qed.

(** The backfill, in closed form. *)
Lemma run_repairs (w : World) :
  ownersExist w -> run w = (Ok tt, setUsers (fun _ => repairedUsers w) w).
Proof.
  intros Hfk. unfold run.
  unfold bind at 1, userUpdateMany at 1.
  set (w0 := setUsers (fmap (withStorage (Some 0))) w).
  unfold bind at 1, documentGroupBy at 1.
  replace (documentRows w0) with (documentRows w) by done.
  set (rows := documentRows w). set (ids := remove_dups (userId <$> rows)).
  rewrite <- list_fmap_compose.
  rewrite (list_fmap_ext _
             (fun id => userUpdate id (withStorage (Some (Z.of_N (sumFileSize id rows)))))
             ids)
    by (intros k id Hk; unfold compose; cbn [fst snd]; by rewrite orZero_Some).
  destruct (sequenceM_updates (fun id => Z.of_N (sumFileSize id rows)) ids w0)
    as (results & us & Hrun & Hus).
  { intros id Hid. unfold ids in Hid. rewrite elem_of_remove_dups in Hid.
    destruct (documentRows_owner w id Hfk Hid) as [u Hu].
    subst w0. simpl. rewrite lookup_fmap, Hu. done. }
  unfold bind, transaction. rewrite Hrun. unfold ret.
  f_equal. subst w0. unfold setUsers. simpl. f_equal.
  apply map_eq. intros id. rewrite Hus. unfold repairedUsers.
  rewrite map_lookup_imap. simpl. rewrite lookup_fmap.
  destruct (users w !! id) as [u |]; [| done]. simpl. f_equal.
  unfold storageOf. fold rows.
  case_bool_decide as Hin; [done |].
  rewrite sumFileSize_absent; [done |].
  intros Hin'. apply Hin. unfold ids. by rewrite elem_of_remove_dups.
Qed.

Lemma repairedUsers_lookup (w : World) (id : string) :
  repairedUsers w !! id = withStorage (Some (storageOf w id)) <$> users w !! id.
Proof.
  unfold repairedUsers. rewrite map_lookup_imap.
  by destruct (users w !! id).
Qed.

(** C5: when every document belongs to an existing user, the backfill
    succeeds, leaves the documents alone and sets the storage counter of
    every user to the sum of fileSize over that user's documents, which is
    0 for a user without documents; running it again on the result, with
    the same documents, succeeds and changes nothing. *)
Theorem backfill_idempotent (w : World) :
  ownersExist w ->
  let w1 := snd (run w) in
  fst (run w) = Ok tt
  /\ documents w1 = documents w
  /\ (forall id, is_Some (users w1 !! id) <-> is_Some (users w !! id))
  /\ (forall id u, users w1 !! id = Some u ->
        storageUsed u = Some (Z.of_N (sumFileSize id (documentRows w))))
  /\ (forall id u, users w1 !! id = Some u ->
        (forall d, d ∈ documentRows w -> userId d <> id) ->
        storageUsed u = Some 0)
  /\ run w1 = (Ok tt, w1).
Proof.
  intros Hfk w1. subst w1. rewrite (run_repairs w Hfk). simpl.
  split; [done |]. split; [done |].
  assert (Hsum : forall id u, repairedUsers w !! id = Some u ->
            storageUsed u = Some (Z.of_N (sumFileSize id (documentRows w)))).
  { intros id u. rewrite repairedUsers_lookup.
    destruct (users w !! id) as [u0 |]; [| done]. by intros [= <-]. }
  split; [| split; [exact Hsum | split]].
  - intros id. rewrite repairedUsers_lookup. by rewrite fmap_is_Some.
  - intros id u Hu Hnone. rewrite (Hsum id u Hu).
    rewrite sumFileSize_absent; [done |].
    intros (d & -> & Hd)%list_elem_of_fmap. by eapply Hnone.
  - set (w1 := setUsers (fun _ => repairedUsers w) w).
    assert (Hfk1 : ownersExist w1).
    { intros id d Hd. subst w1. simpl. rewrite repairedUsers_lookup.
      apply fmap_is_Some. by eapply Hfk. }
    rewrite (run_repairs w1 Hfk1). f_equal.
    subst w1. unfold setUsers. simpl. f_equal.
    apply map_eq. intros id. rewrite !repairedUsers_lookup. simpl.
    rewrite repairedUsers_lookup.
    by destruct (users w !! id).
Qed.

(** Scenario E through the admin route. *)
Lemma storage_never_negative_witness :
  let env := exampleEnv 1000 (letters 60) (Ok [Some exampleCompletion])
               (Ok ("d1", 1000)) in
  let admin := mkAdminDeleteRequest (mkSessionUser "root" (Some "admin")) "u1" "d9" in
  storageNonneg (perform (OpAdminDeleteFile env admin) worldE).
Proof.
  intros env admin.
  apply (storage_never_negative (OpAdminDeleteFile env admin) worldE).
  intros id u Hu s Hs.
  change (users worldE) with ({[ "u1" := userE ]} : gmap string User) in Hu.
  apply lookup_singleton_Some in Hu as [_ <-].
  simpl in Hs. inversion Hs. lia.
Defined.

(** One user with one document, one user with none. *)
Lemma backfill_idempotent_witness :
  let w1 := snd (run worldF) in
  fst (run worldF) = Ok tt
  /\ (forall u, users w1 !! "u1" = Some u -> storageUsed u = Some 1000000)
  /\ (forall u, users w1 !! "u2" = Some u -> storageUsed u = Some 0)
  /\ run w1 = (Ok tt, w1).
Proof.
  intros w1.
  destruct (backfill_idempotent worldF) as (H1 & _ & _ & H4 & _ & H6).
  { intros id d Hd.
    change (documents worldF) with ({[ "d9" := documentE ]} : gmap string Document) in Hd.
    apply lookup_singleton_Some in Hd as [_ <-].
    exists userE. reflexivity. }
  split; [exact H1 |]. split; [| split; [| exact H6]].
  - intros u Hu. rewrite (H4 "u1" u Hu). vm_compute. reflexivity.
  - intros u Hu. rewrite (H4 "u2" u Hu). vm_compute. reflexivity.
Defined.

(** ** The parsing budget is never exhausted *)

Lemma consumes_Unexpected {A} (n : nat) : consumes n (@Unexpected A).
Proof. split; [done |]. intros v r H. discriminate H. Qed.

Lemma consumes_Parsed {A} (n : nat) (a : A) (r : jsstring) :
  (length r < n)%nat -> consumes n (Parsed a r).
Proof. intros H. split; [done |]. intros v r' [= _ <-]. done. Qed.

Lemma consumes_mono {A} (n m : nat) (p : Parse A) :
  consumes n p -> (n <= m)%nat -> consumes m p.
Proof.
  intros [H1 H2] Hle. split; [done |]. intros v r H. specialize (H2 v r H). lia.
Qed.

Lemma length_skipWs (s : jsstring) : (length (skipWs s) <= length s)%nat.
Proof.
  induction s as [| c t IH]; simpl; [lia |].
  destruct (isJsonSpace c); simpl; lia.
Qed.

Lemma consumes_parseChars_bounded (n : nat) (s acc : jsstring) :
  (length s <= n)%nat -> consumes (S (length s)) (parseChars s acc).
Proof.
  revert s acc. induction n as [| n IH]; intros s acc Hn.
  { destruct s; [apply consumes_Unexpected | simpl in Hn; lia]. }
  destruct s as [| c t]; [apply consumes_Unexpected |].
  simpl in Hn. simpl parseChars.
  destruct (c =? 34)%N; [apply consumes_Parsed; simpl; lia |].
  destruct (c =? 92)%N.
  - destruct t as [| e t']; [apply consumes_Unexpected |].
    simpl in Hn.
    destruct (e =? 117)%N.
    + destruct t' as [| h1 [| h2 [| h3 [| h4 t'']]]];
        try apply consumes_Unexpected.
      simpl in Hn.
      destruct (hex4 h1 h2 h3 h4); [| apply consumes_Unexpected].
      eapply consumes_mono; [apply IH; lia | simpl; lia].
    + destruct (escapeChar e); [| apply consumes_Unexpected].
      eapply consumes_mono; [apply IH; lia | simpl; lia].
  - destruct (c <? 32)%N; [apply consumes_Unexpected |].
    eapply consumes_mono; [apply IH; lia | simpl; lia].
Qed.

Lemma consumes_parseChars (s acc : jsstring) :
  consumes (S (length s)) (parseChars s acc).
Proof. by apply (consumes_parseChars_bounded (length s)). Qed.

Lemma consumes_parseNumber (s : jsstring) : consumes (length s) (parseNumber s).
Proof.
  unfold parseNumber.
  set (neg := match s with
              | c :: _ => if (c =? 45)%N then 1%nat else O
              | [] => O
              end).
  destruct (intPart (drop neg s)) as [i |] eqn:Ei; [| apply consumes_Unexpected].
  destruct (fracPart _) as [f |]; [| apply consumes_Unexpected].
  destruct (expPart _) as [x |]; [| apply consumes_Unexpected].
  apply consumes_Parsed. rewrite length_drop.
  assert (Hs : (neg < length s)%nat).
  { destruct (drop neg s) as [| c t] eqn:Ed; [discriminate Ei |].
    apply (f_equal length) in Ed. rewrite length_drop in Ed. simpl in Ed. lia. }
  assert (Hi : (1 <= i)%nat).
  { unfold intPart in Ei. destruct (drop neg s) as [| c t]; [discriminate |].
    destruct (c =? 48)%N; [by inversion Ei |].
    destruct (isDigit c) eqn:Ec; [| discriminate].
    inversion Ei. simpl. rewrite Ec. lia. }
  lia.
Qed.

Lemma startsWith_length (p s : jsstring) :
  startsWith p s = true -> (length p <= length s)%nat.
Proof.
  revert s. induction p as [| a p IH]; intros s; simpl; [lia |].
  destruct s as [| b s]; [discriminate |].
  intros [_ H]%andb_prop. specialize (IH s H). simpl. lia.
Qed.

Lemma consumes_parseLiteral (word : string) (v : Json) (s : jsstring) :
  (1 <= length (js word))%nat -> consumes (length s) (parseLiteral word v s).
Proof.
  intros Hw. unfold parseLiteral.
  destruct (startsWith (js word) s) eqn:E; [| apply consumes_Unexpected].
  apply consumes_Parsed. apply startsWith_length in E.
  rewrite length_drop. lia.
Qed.

Lemma parse_budget (fuel : nat) :
  (forall s, (2 * length s + 1 <= fuel)%nat ->
             consumes (length s) (parseValue fuel s))
  /\ (forall s acc, (2 * length s + 2 <= fuel)%nat ->
                    consumes (length s) (parseElements fuel s acc))
  /\ (forall s acc, (2 * length s + 2 <= fuel)%nat ->
                    consumes (length s) (parseMembers fuel s acc)).
Proof.
  induction fuel as [| fuel (IHv & IHe & IHm)].
  { repeat split; intros; lia. }
  split; [| split].
  - intros s Hf. simpl parseValue.
    pose proof (length_skipWs s) as Hs.
    destruct (skipWs s) as [| c t] eqn:Es; [apply consumes_Unexpected |].
    simpl in Hs.
    destruct (c =? 123)%N.
    { pose proof (length_skipWs t) as Ht.
      destruct (skipWs t) as [| c' r]; [apply consumes_Unexpected |].
      simpl in Ht.
      destruct (c' =? 125)%N; [apply consumes_Parsed; lia |].
      eapply consumes_mono; [apply IHm; lia | lia]. }
    destruct (c =? 91)%N.
    { pose proof (length_skipWs t) as Ht.
      destruct (skipWs t) as [| c' r]; [apply consumes_Unexpected |].
      simpl in Ht.
      destruct (c' =? 93)%N; [apply consumes_Parsed; lia |].
      eapply consumes_mono; [apply IHe; lia | lia]. }
    destruct (c =? 34)%N.
    { destruct (consumes_parseChars t []) as [Hn Hl].
      destruct (parseChars t []) as [str r | |]; [| apply consumes_Unexpected | done].
      apply consumes_Parsed. specialize (Hl str r eq_refl). lia. }
    destruct (c =? 116)%N.
    { eapply consumes_mono; [apply consumes_parseLiteral; simpl; lia | simpl; lia]. }
    destruct (c =? 102)%N.
    { eapply consumes_mono; [apply consumes_parseLiteral; simpl; lia | simpl; lia]. }
    destruct (c =? 110)%N.
    { eapply consumes_mono; [apply consumes_parseLiteral; simpl; lia | simpl; lia]. }
    eapply consumes_mono; [apply consumes_parseNumber | simpl; lia].
  - intros s acc Hf. simpl parseElements.
    destruct (IHv s) as [Hn Hl]; [lia |].
    destruct (parseValue fuel s) as [v r | |]; [| apply consumes_Unexpected | done].
    specialize (Hl v r eq_refl).
    pose proof (length_skipWs r) as Hr.
    destruct (skipWs r) as [| c r']; [apply consumes_Unexpected |].
    simpl in Hr.
    destruct (c =? 44)%N.
    { eapply consumes_mono; [apply IHe; lia | lia]. }
    destruct (c =? 93)%N; [apply consumes_Parsed; lia | apply consumes_Unexpected].
  - intros s acc Hf. simpl parseMembers.
    pose proof (length_skipWs s) as Hs.
    destruct (skipWs s) as [| c t]; [apply consumes_Unexpected |].
    simpl in Hs.
    destruct (c =? 34)%N; [| apply consumes_Unexpected].
    destruct (consumes_parseChars t []) as [Hn Hl].
    destruct (parseChars t []) as [k r | |]; [| apply consumes_Unexpected | done].
    specialize (Hl k r eq_refl).
    pose proof (length_skipWs r) as Hr.
    destruct (skipWs r) as [| c1 r1]; [apply consumes_Unexpected |].
    simpl in Hr.
    destruct (c1 =? 58)%N; [| apply consumes_Unexpected].
    destruct (IHv r1) as [Hn1 Hl1]; [lia |].
    destruct (parseValue fuel r1) as [v r2 | |]; [| apply consumes_Unexpected | done].
    specialize (Hl1 v r2 eq_refl).
    pose proof (length_skipWs r2) as Hr2.
    destruct (skipWs r2) as [| c3 r3]; [apply consumes_Unexpected |].
    simpl in Hr2.
    destruct (c3 =? 44)%N.
    { eapply consumes_mono; [apply IHm; lia | lia]. }
    destruct (c3 =? 125)%N; [apply consumes_Parsed; lia | apply consumes_Unexpected].
Qed.

(** The budget [parseFuel text] is enough for [text]: a rejection by
    [JSON_parse] is always a syntax error found in the text. *)
Lemma parseValue_fuel (text : jsstring) :
  parseValue (parseFuel text) text <> NoFuel.
Proof.
  destruct (parse_budget (parseFuel text)) as [Hv _].
  by destruct (Hv text ltac:(unfold parseFuel; lia)).
Qed.

(** ** One step of each parsing function *)

Lemma parseValue_S (fuel : nat) (s : jsstring) :
  parseValue (S fuel) s
  = match skipWs s with
    | [] => Unexpected
    | c :: t =>
        if (c =? 123)%N then
          match skipWs t with
          | c' :: r =>
              if (c' =? 125)%N then Parsed (JObject []) r
              else parseMembers fuel t []
          | [] => Unexpected
          end
        else if (c =? 91)%N then
          match skipWs t with
          | c' :: r =>
              if (c' =? 93)%N then Parsed (JArray []) r
              else parseElements fuel t []
          | [] => Unexpected
          end
        else if (c =? 34)%N then
          match parseChars t [] with
          | Parsed str r => Parsed (JString str) r
          | Unexpected => Unexpected
          | NoFuel => NoFuel
          end
        else if (c =? 116)%N then parseLiteral "true" (JBool true) (c :: t)
        else if (c =? 102)%N then parseLiteral "false" (JBool false) (c :: t)
        else if (c =? 110)%N then parseLiteral "null" JNull (c :: t)
        else parseNumber (c :: t)
    end.
Proof. reflexivity. Qed.

Lemma parseElements_S (fuel : nat) (s : jsstring) (acc : list Json) :
  parseElements (S fuel) s acc
  = match parseValue fuel s with
    | Parsed v r =>
        match skipWs r with
        | c :: r' =>
            if (c =? 44)%N then parseElements fuel r' (v :: acc)
            else if (c =? 93)%N then Parsed (JArray (rev (v :: acc))) r'
            else Unexpected
        | [] => Unexpected
        end
    | Unexpected => Unexpected
    | NoFuel => NoFuel
    end.
Proof. reflexivity. Qed.

Lemma parseMembers_S (fuel : nat) (s : jsstring) (acc : list (jsstring * Json)) :
  parseMembers (S fuel) s acc
  = match skipWs s with
    | c :: t =>
        if (c =? 34)%N then
          match parseChars t [] with
          | Parsed k r =>
              match skipWs r with
              | c1 :: r1 =>
                  if (c1 =? 58)%N then
                    match parseValue fuel r1 with
                    | Parsed v r2 =>
                        match skipWs r2 with
                        | c3 :: r3 =>
                            if (c3 =? 44)%N
                            then parseMembers fuel r3 ((k, v) :: acc)
                            else if (c3 =? 125)%N
                            then Parsed (JObject (rev ((k, v) :: acc))) r3
                            else Unexpected
                        | [] => Unexpected
                        end
                    | Unexpected => Unexpected
                    | NoFuel => NoFuel
                    end
                  else Unexpected
              | [] => Unexpected
              end
          | Unexpected => Unexpected
          | NoFuel => NoFuel
          end
        else Unexpected
    | [] => Unexpected
    end.
Proof. reflexivity. Qed.

(** ** More budget changes nothing *)

Lemma parse_more_fuel (fuel : nat) :
  (forall s, parseValue fuel s <> NoFuel ->
             parseValue (S fuel) s = parseValue fuel s)
  /\ (forall s acc, parseElements fuel s acc <> NoFuel ->
                    parseElements (S fuel) s acc = parseElements fuel s acc)
  /\ (forall s acc, parseMembers fuel s acc <> NoFuel ->
                    parseMembers (S fuel) s acc = parseMembers fuel s acc).
Proof.
  induction fuel as [| fuel (IHv & IHe & IHm)].
  { repeat split; intros; simpl in *; done. }
  split; [| split].
  - intros s. rewrite (parseValue_S (S fuel)), (parseValue_S fuel).
    destruct (skipWs s) as [| c t]; [done |].
    destruct (c =? 123)%N.
    { destruct (skipWs t) as [| c' r]; [done |].
      destruct (c' =? 125)%N; [done |]. apply IHm. }
    destruct (c =? 91)%N; [| done].
    destruct (skipWs t) as [| c' r]; [done |].
    destruct (c' =? 93)%N; [done |]. apply IHe.
  - intros s acc. rewrite (parseElements_S (S fuel)), (parseElements_S fuel).
    intros Hn.
    destruct (parseValue fuel s) as [v r | |] eqn:Ev; [| | done].
    + rewrite IHv, Ev by (by rewrite Ev).
      destruct (skipWs r) as [| c r']; [done |].
      destruct (c =? 44)%N; [| done]. by apply IHe.
    + by rewrite IHv, Ev by (by rewrite Ev).
  - intros s acc. rewrite (parseMembers_S (S fuel)), (parseMembers_S fuel).
    intros Hn.
    destruct (skipWs s) as [| c t]; [done |].
    destruct (c =? 34)%N; [| done].
    destruct (parseChars t []) as [k r | |]; [| done | done].
    destruct (skipWs r) as [| c1 r1]; [done |].
    destruct (c1 =? 58)%N; [| done].
    destruct (parseValue fuel r1) as [v r2 | |] eqn:Ev; [| | done].
    + rewrite IHv, Ev by (by rewrite Ev).
      destruct (skipWs r2) as [| c3 r3]; [done |].
      destruct (c3 =? 44)%N; [| done]. by apply IHm.
    + by rewrite IHv, Ev by (by rewrite Ev).
Qed.

(** Any budget of at least [parseFuel s] gives the same outcome on [s]. *)
Lemma parseValue_enough (fuel : nat) (s : jsstring) :
  (parseFuel s <= fuel)%nat -> parseValue fuel s = parseValue (parseFuel s) s.
Proof.
  intros Hle. induction Hle as [| fuel Hle IH]; [done |].
  rewrite <- IH. apply parse_more_fuel.
  destruct (parse_budget fuel) as [Hv _].
  by destruct (Hv s ltac:(unfold parseFuel in Hle; lia)).
Qed.

(** ** White space is never part of a token *)

Lemma whiteSpace_range (c : N) :
  isWhiteSpace c = true ->
  (9 <= c <= 13 \/ c = 32 \/ c = 160 \/ 5760 <= c)%N.
Proof.
  unfold isWhiteSpace.
  rewrite !orb_true_iff, !andb_true_iff, !N.leb_le, !N.eqb_eq. lia.
Qed.

Lemma whiteSpace_not_token (c k : N) :
  isWhiteSpace c = true -> (33 <= k <= 159)%N -> (c =? k)%N = false.
Proof.
  intros Hc Hk. apply N.eqb_neq. apply whiteSpace_range in Hc. lia.
Qed.

Lemma whiteSpace_not_digit (c : N) : isWhiteSpace c = true -> isDigit c = false.
Proof.
  intros Hc. apply whiteSpace_range in Hc. unfold isDigit.
  apply andb_false_iff. rewrite !N.leb_gt. lia.
Qed.

Lemma whiteSpace_not_hex (c : N) : isWhiteSpace c = true -> hexValue c = None.
Proof.
  intros Hc. apply whiteSpace_range in Hc. unfold hexValue.
  assert (H1 : ((48 <=? c) && (c <=? 57))%N = false)
    by (apply andb_false_iff; rewrite !N.leb_gt; lia).
  assert (H2 : ((65 <=? c) && (c <=? 70))%N = false)
    by (apply andb_false_iff; rewrite !N.leb_gt; lia).
  assert (H3 : ((97 <=? c) && (c <=? 102))%N = false)
    by (apply andb_false_iff; rewrite !N.leb_gt; lia).
  by rewrite H1, H2, H3.
Qed.

Lemma whiteSpace_not_escape (c : N) : isWhiteSpace c = true -> escapeChar c = None.
Proof.
  intros Hc. unfold escapeChar.
  by rewrite !(whiteSpace_not_token c) by (done || lia).
Qed.

Lemma jsonSpace_whiteSpace (c : N) : isJsonSpace c = true -> isWhiteSpace c = true.
Proof.
  unfold isJsonSpace, isWhiteSpace.
  rewrite !orb_true_iff, !andb_true_iff, !N.leb_le, !N.eqb_eq. lia.
Qed.

Lemma digits_le (a : jsstring) : (digits a <= length a)%nat.
Proof.
  induction a as [| c t IH]; simpl; [lia |]. destruct (isDigit c); simpl; lia.
Qed.

Lemma digits_app (a y : jsstring) : allSpace y -> digits (a ++ y) = digits a.
Proof.
  intros Hy. induction a as [| c t IH]; simpl.
  - destruct Hy as [| w y' Hw _]; [done |].
    simpl. by rewrite whiteSpace_not_digit.
  - by rewrite IH.
Qed.

Lemma intPart_app (a y : jsstring) : allSpace y -> intPart (a ++ y) = intPart a.
Proof.
  intros Hy. destruct a as [| c t].
  - destruct Hy as [| w y' Hw _]; [done |].
    simpl. rewrite (whiteSpace_not_token w) by (done || lia).
    by rewrite whiteSpace_not_digit.
  - unfold intPart. simpl app.
    change (c :: t ++ y) with ((c :: t) ++ y). by rewrite digits_app.
Qed.

Lemma fracPart_app (a y : jsstring) : allSpace y -> fracPart (a ++ y) = fracPart a.
Proof.
  intros Hy. destruct a as [| c t].
  - destruct Hy as [| w y' Hw _]; [done |].
    simpl. by rewrite (whiteSpace_not_token w) by (done || lia).
  - simpl. by rewrite digits_app.
Qed.

Lemma expPart_app (a y : jsstring) : allSpace y -> expPart (a ++ y) = expPart a.
Proof.
  intros Hy. destruct a as [| c t].
  - destruct Hy as [| w y' Hw _]; [done |].
    simpl. by rewrite !(whiteSpace_not_token w) by (done || lia).
  - simpl. destruct ((c =? 101) || (c =? 69))%N; [| done].
    destruct t as [| x t'].
    + destruct Hy as [| w y' Hw Hy']; [done |].
      simpl. rewrite !(whiteSpace_not_token w) by (done || lia). simpl.
      by rewrite whiteSpace_not_digit.
    + simpl app. cbv iota. destruct ((x =? 43) || (x =? 45))%N.
      * change (drop 1 (x :: t' ++ y)) with (t' ++ y).
        change (drop 1 (x :: t')) with t'. by rewrite digits_app.
      * change (drop 0 (x :: t' ++ y)) with ((x :: t') ++ y).
        change (drop 0 (x :: t')) with (x :: t'). by rewrite digits_app.
Qed.

Lemma intPart_le (a : jsstring) (i : nat) : intPart a = Some i -> (i <= length a)%nat.
Proof.
  destruct a as [| c t]; [done |]. unfold intPart.
  pose proof (digits_le (c :: t)) as Hd.
  destruct (c =? 48)%N; [intros [= <-]; simpl; lia |].
  destruct (isDigit c); [| done]. intros [= <-]. exact Hd.
Qed.

Lemma fracPart_le (a : jsstring) (f : nat) : fracPart a = Some f -> (f <= length a)%nat.
Proof.
  destruct a as [| c t]; [intros [= <-]; simpl; lia |]. simpl.
  destruct (c =? 46)%N; [| intros [= <-]; lia].
  destruct (digits t =? 0)%nat; [done |]. intros [= <-].
  pose proof (digits_le t). lia.
Qed.

Lemma expPart_le (a : jsstring) (x : nat) : expPart a = Some x -> (x <= length a)%nat.
Proof.
  destruct a as [| c t]; [intros [= <-]; simpl; lia |]. simpl.
  destruct ((c =? 101) || (c =? 69))%N; [| intros [= <-]; lia].
  destruct t as [| s t']; [simpl; done |].
  destruct ((s =? 43) || (s =? 45))%N.
  - change (drop 1 (s :: t')) with t'.
    destruct (digits t' =? 0)%nat; [done |]. intros [= <-].
    pose proof (digits_le t'). simpl. lia.
  - change (drop 0 (s :: t')) with (s :: t').
    pose proof (digits_le (s :: t')) as Hd.
    destruct (digits (s :: t') =? 0)%nat; [done |]. intros [= <-].
    simpl in *. lia.
Qed.

(** ** Trailing white space is not read *)

Lemma ignores_Unexpected {A} (y : jsstring) (short : Parse A) :
  ignores y Unexpected short.
Proof. intros v r H. discriminate H. Qed.

Lemma ignores_NoFuel {A} (y : jsstring) (short : Parse A) :
  ignores y NoFuel short.
Proof. intros v r H. discriminate H. Qed.

Lemma ignores_Parsed {A} (y : jsstring) (a : A) (r : jsstring) :
  ignores y (Parsed a (r ++ y)) (Parsed a r).
Proof. intros v r' [= <- <-]. by exists r. Qed.

Lemma parseNumber_space (w : N) (y : jsstring) :
  isWhiteSpace w = true -> parseNumber (w :: y) = Unexpected.
Proof.
  intros Hw. unfold parseNumber. cbv iota.
  rewrite (whiteSpace_not_token w 45) by (done || lia).
  change (drop 0 (w :: y)) with (w :: y). unfold intPart.
  rewrite (whiteSpace_not_token w 48) by (done || lia).
  by rewrite whiteSpace_not_digit.
Qed.

Lemma parseNumber_ignores (s y : jsstring) :
  allSpace y -> ignores y (parseNumber (s ++ y)) (parseNumber s).
Proof.
  intros Hy. destruct s as [| c t].
  - replace (parseNumber ([] ++ y)) with (@Unexpected Json);
      [apply ignores_Unexpected |].
    destruct Hy as [| w y' Hw _]; [done |].
    simpl app. by rewrite parseNumber_space.
  - set (a := c :: t). unfold parseNumber.
    change (match a ++ y with
            | c0 :: _ => if (c0 =? 45)%N then 1%nat else O
            | [] => O
            end) with (if (c =? 45)%N then 1%nat else O).
    change (match a with
            | c0 :: _ => if (c0 =? 45)%N then 1%nat else O
            | [] => O
            end) with (if (c =? 45)%N then 1%nat else O).
    set (neg := if (c =? 45)%N then 1%nat else O).
    assert (Hneg : (neg <= length a)%nat)
      by (subst neg a; simpl; destruct (c =? 45)%N; lia).
    rewrite (drop_app_le a y neg Hneg), intPart_app by done.
    destruct (intPart (drop neg a)) as [i |] eqn:Ei; [| apply ignores_Unexpected].
    apply intPart_le in Ei. rewrite length_drop in Ei.
    rewrite (drop_app_le a y (neg + i)) by lia. rewrite fracPart_app by done.
    destruct (fracPart (drop (neg + i) a)) as [f |] eqn:Ef;
      [| apply ignores_Unexpected].
    apply fracPart_le in Ef. rewrite length_drop in Ef.
    rewrite (drop_app_le a y (neg + i + f)) by lia. rewrite expPart_app by done.
    destruct (expPart (drop (neg + i + f) a)) as [x |] eqn:Ex;
      [| apply ignores_Unexpected].
    apply expPart_le in Ex. rewrite length_drop in Ex.
    rewrite (drop_app_le a y (neg + i + f + x)) by lia.
    rewrite (take_app_le a y (neg + i + f + x)) by lia.
    apply ignores_Parsed.
Qed.

Lemma allSpace_head (w : N) (y : jsstring) :
  allSpace (w :: y) -> isWhiteSpace w = true /\ allSpace y.
Proof. intros H. by inversion H. Qed.

Lemma parseChars_space (y acc : jsstring) :
  allSpace y -> forall v r, parseChars y acc <> Parsed v r.
Proof.
  intros Hy. revert acc. induction Hy as [| w y' Hw _ IH]; intros acc v r.
  - done.
  - simpl. rewrite !(whiteSpace_not_token w) by (done || lia).
    destruct (w <? 32)%N; [done | apply IH].
Qed.

Lemma parseChars_ignores_bounded (n : nat) (s y acc : jsstring) :
  allSpace y -> (length s <= n)%nat ->
  ignores y (parseChars (s ++ y) acc) (parseChars s acc).
Proof.
  intros Hy. revert s acc. induction n as [| n IH]; intros s acc Hn.
  { destruct s; [| simpl in Hn; lia].
    intros v r H. by apply parseChars_space in H. }
  destruct s as [| c t].
  { intros v r H. by apply parseChars_space in H. }
  simpl in Hn. simpl app. simpl parseChars.
  destruct (c =? 34)%N; [apply ignores_Parsed |].
  destruct (c =? 92)%N.
  - destruct t as [| e t'].
    + simpl app. destruct y as [| w y']; cbv iota; [apply ignores_Unexpected |].
      apply allSpace_head in Hy as [Hw Hy].
      rewrite (whiteSpace_not_token w 117) by (done || lia).
      rewrite whiteSpace_not_escape by done. apply ignores_Unexpected.
    + simpl in Hn. simpl app. cbv iota. destruct (e =? 117)%N.
      * destruct t' as [| h1 [| h2 [| h3 [| h4 t'']]]]; simpl app; cbv iota.
        -- destruct y as [| w1 [| w2 [| w3 [| w4 y']]]];
             cbv iota; try apply ignores_Unexpected.
           apply allSpace_head in Hy as [Hw Hy].
           unfold hex4. rewrite (whiteSpace_not_hex w1) by done.
           apply ignores_Unexpected.
        -- destruct y as [| w1 [| w2 [| w3 y']]];
             cbv iota; try apply ignores_Unexpected.
           apply allSpace_head in Hy as [Hw Hy].
           unfold hex4. rewrite (whiteSpace_not_hex w1) by done.
           destruct (hexValue h1); apply ignores_Unexpected.
        -- destruct y as [| w1 [| w2 y']]; cbv iota; try apply ignores_Unexpected.
           apply allSpace_head in Hy as [Hw Hy].
           unfold hex4. rewrite (whiteSpace_not_hex w1) by done.
           destruct (hexValue h1), (hexValue h2); apply ignores_Unexpected.
        -- destruct y as [| w1 y']; cbv iota; try apply ignores_Unexpected.
           apply allSpace_head in Hy as [Hw Hy].
           unfold hex4. rewrite (whiteSpace_not_hex w1) by done.
           destruct (hexValue h1), (hexValue h2), (hexValue h3);
             apply ignores_Unexpected.
        -- simpl in Hn.
           destruct (hex4 h1 h2 h3 h4); [| apply ignores_Unexpected].
           apply IH. lia.
      * destruct (escapeChar e); [| apply ignores_Unexpected].
        apply IH. lia.
  - destruct (c <? 32)%N; [apply ignores_Unexpected |].
    apply IH. lia.
Qed.

Lemma parseChars_ignores (s y acc : jsstring) :
  allSpace y -> ignores y (parseChars (s ++ y) acc) (parseChars s acc).
Proof. intros Hy. by apply (parseChars_ignores_bounded (length s)). Qed.

Lemma startsWith_app_space (p s y : jsstring) :
  Forall (fun c => isWhiteSpace c = false) p -> allSpace y ->
  startsWith p (s ++ y) = true -> startsWith p s = true.
Proof.
  intros Hp Hy. revert s. induction Hp as [| a p' Ha _ IH]; intros s; [done |].
  destruct s as [| b s'].
  - simpl. destruct Hy as [| w y' Hw _]; [done |].
    intros [Heq _]%andb_prop. apply N.eqb_eq in Heq. congruence.
  - simpl. intros [Heq Hrest]%andb_prop. rewrite Heq. simpl. by apply IH.
Qed.

Lemma parseLiteral_ignores (word : string) (v : Json) (s y : jsstring) :
  Forall (fun c => isWhiteSpace c = false) (js word) -> allSpace y ->
  ignores y (parseLiteral word v (s ++ y)) (parseLiteral word v s).
Proof.
  intros Hword Hy. unfold parseLiteral.
  destruct (startsWith (js word) (s ++ y)) eqn:E; [| apply ignores_Unexpected].
  apply startsWith_app_space in E; [| done | done]. rewrite E.
  rewrite drop_app_le by (by apply startsWith_length). apply ignores_Parsed.
Qed.

Lemma skipWs_app (s y : jsstring) :
  skipWs (s ++ y)
  = match skipWs s with
    | [] => skipWs y
    | c :: t => c :: t ++ y
    end.
Proof.
  induction s as [| c t IH]; simpl.
  - by destruct (skipWs y).
  - by destruct (isJsonSpace c).
Qed.

Lemma skipWs_space (y : jsstring) : allSpace y -> allSpace (skipWs y).
Proof.
  induction 1 as [| w y' Hw Hy IH]; simpl; [constructor |].
  destruct (isJsonSpace w); [done | by constructor].
Qed.

Lemma skipWs_app_nil (a b : jsstring) : skipWs (a ++ b) = [] -> skipWs a = [].
Proof. rewrite skipWs_app. by destruct (skipWs a). Qed.

(** After white space no value starts. *)
Lemma parseValue_space (fuel : nat) (y : jsstring) :
  allSpace y -> forall v r, parseValue fuel y <> Parsed v r.
Proof.
  intros Hy v r. destruct fuel as [| fuel]; [done |].
  rewrite parseValue_S. apply skipWs_space in Hy.
  destruct (skipWs y) as [| w y']; [done |].
  apply allSpace_head in Hy as [Hw _].
  rewrite !(whiteSpace_not_token w) by (done || lia).
  by rewrite parseNumber_space.
Qed.

Lemma parseMembers_blank (fuel : nat) (s : jsstring) (acc : list (jsstring * Json)) :
  skipWs s = [] -> forall v r, parseMembers fuel s acc <> Parsed v r.
Proof.
  intros Hs v r. destruct fuel as [| fuel]; [done |].
  by rewrite parseMembers_S, Hs.
Qed.

Lemma parseElements_blank (fuel : nat) (s : jsstring) (acc : list Json) :
  skipWs s = [] -> forall v r, parseElements fuel s acc <> Parsed v r.
Proof.
  intros Hs v r. destruct fuel as [| fuel]; [done |].
  rewrite parseElements_S.
  destruct (parseValue fuel s) as [v' r' | |] eqn:Ev; [| done | done].
  exfalso. destruct fuel as [| fuel]; [done |].
  by rewrite parseValue_S, Hs in Ev.
Qed.

Lemma literal_true_letters : Forall (fun c => isWhiteSpace c = false) (js "true").
Proof. repeat constructor. Qed.

Lemma literal_false_letters : Forall (fun c => isWhiteSpace c = false) (js "false").
Proof. repeat constructor. Qed.

Lemma literal_null_letters : Forall (fun c => isWhiteSpace c = false) (js "null").
Proof. repeat constructor. Qed.

(** No parsing function reads into white space that follows its input. *)
Lemma parse_ignores (y : jsstring) (fuel : nat) :
  allSpace y ->
  (forall s, ignores y (parseValue fuel (s ++ y)) (parseValue fuel s))
  /\ (forall s acc,
        ignores y (parseElements fuel (s ++ y) acc) (parseElements fuel s acc))
  /\ (forall s acc,
        ignores y (parseMembers fuel (s ++ y) acc) (parseMembers fuel s acc)).
Proof.
  intros Hy. induction fuel as [| fuel (IHv & IHe & IHm)].
  { repeat split; intros; apply ignores_NoFuel. }
  pose proof (skipWs_space y Hy) as Hy'.
  split; [| split].
  - intros s. rewrite !parseValue_S, skipWs_app.
    destruct (skipWs s) as [| c t] eqn:Es.
    { intros v r H. exfalso.
      apply (parseValue_space (S fuel) y Hy v r). by rewrite parseValue_S. }
    destruct (c =? 123)%N.
    { rewrite skipWs_app. destruct (skipWs t) as [| c' r0] eqn:Et.
      - destruct (skipWs y) as [| w y']; [apply ignores_Unexpected |].
        apply allSpace_head in Hy' as [Hw _].
        rewrite (whiteSpace_not_token w 125) by (done || lia).
        intros v r H. destruct (IHm t [] v r H) as (r' & _ & Hshort).
        by apply parseMembers_blank in Hshort.
      - destruct (c' =? 125)%N; [apply ignores_Parsed | apply IHm]. }
    destruct (c =? 91)%N.
    { rewrite skipWs_app. destruct (skipWs t) as [| c' r0] eqn:Et.
      - destruct (skipWs y) as [| w y']; [apply ignores_Unexpected |].
        apply allSpace_head in Hy' as [Hw _].
        rewrite (whiteSpace_not_token w 93) by (done || lia).
        intros v r H. destruct (IHe t [] v r H) as (r' & _ & Hshort).
        by apply parseElements_blank in Hshort.
      - destruct (c' =? 93)%N; [apply ignores_Parsed | apply IHe]. }
    destruct (c =? 34)%N.
    { intros v r H.
      destruct (parseChars (t ++ y) []) as [str r1 | |] eqn:Ec; [| done | done].
      destruct (parseChars_ignores t y [] Hy str r1 Ec) as (r' & -> & Hshort).
      rewrite Hshort. inversion H. subst. by exists r'. }
    destruct (c =? 116)%N.
    { apply (parseLiteral_ignores "true" _ (c :: t) y literal_true_letters Hy). }
    destruct (c =? 102)%N.
    { apply (parseLiteral_ignores "false" _ (c :: t) y literal_false_letters Hy). }
    destruct (c =? 110)%N.
    { apply (parseLiteral_ignores "null" _ (c :: t) y literal_null_letters Hy). }
    apply (parseNumber_ignores (c :: t) y Hy).
  - intros s acc. rewrite !parseElements_S. intros v0 r0 H.
    destruct (parseValue fuel (s ++ y)) as [v r | |] eqn:Ev; [| done | done].
    destruct (IHv s v r Ev) as (r' & -> & Hshort). rewrite Hshort.
    rewrite skipWs_app in H. destruct (skipWs r') as [| c r1].
    + destruct (skipWs y) as [| w y']; [done |].
      apply allSpace_head in Hy' as [Hw _].
      rewrite !(whiteSpace_not_token w) in H by (done || lia). done.
    + destruct (c =? 44)%N; [by apply IHe |].
      destruct (c =? 93)%N; [| done].
      inversion H. subst. by eexists.
  - intros s acc. rewrite !parseMembers_S, skipWs_app. intros v0 r0 H.
    destruct (skipWs s) as [| c t].
    { destruct (skipWs y) as [| w y']; [done |].
      apply allSpace_head in Hy' as [Hw _].
      rewrite (whiteSpace_not_token w 34) in H by (done || lia). done. }
    destruct (c =? 34)%N; [| done].
    destruct (parseChars (t ++ y) []) as [k r | |] eqn:Ec; [| done | done].
    destruct (parseChars_ignores t y [] Hy k r Ec) as (r' & -> & Hshort).
    rewrite Hshort. rewrite skipWs_app in H.
    destruct (skipWs r') as [| c1 r1].
    { destruct (skipWs y) as [| w y']; [done |].
      apply allSpace_head in Hy' as [Hw _].
      rewrite (whiteSpace_not_token w 58) in H by (done || lia). done. }
    destruct (c1 =? 58)%N; [| done].
    destruct (parseValue fuel (r1 ++ y)) as [v r2 | |] eqn:Ev; [| done | done].
    destruct (IHv r1 v r2 Ev) as (r2' & -> & Hshort2). rewrite Hshort2.
    rewrite skipWs_app in H. destruct (skipWs r2') as [| c3 r3].
    + destruct (skipWs y) as [| w y']; [done |].
      apply allSpace_head in Hy' as [Hw _].
      rewrite !(whiteSpace_not_token w) in H by (done || lia). done.
    + destruct (c3 =? 44)%N; [by apply IHm |].
      destruct (c3 =? 125)%N; [| done].
      inversion H. subst. by eexists.
Qed.

(** White space before a value is skipped or refused, never read as part
    of the value. *)
Lemma parseValue_trimStart (fuel : nat) (p : jsstring) (v : Json) (r : jsstring) :
  parseValue fuel p = Parsed v r -> parseValue fuel (trimStart p) = Parsed v r.
Proof.
  destruct fuel as [| fuel]; [done |].
  induction p as [| c t IH]; [done |].
  simpl trimStart. destruct (isWhiteSpace c) eqn:Hc; [| done].
  rewrite parseValue_S. simpl skipWs. destruct (isJsonSpace c).
  - rewrite <- parseValue_S. apply IH.
  - rewrite !(whiteSpace_not_token c) by (done || lia).
    by rewrite parseNumber_space.
Qed.

(** [JSON.parse] accepts a text with white space around it only if it
    accepts the text without it, with the same value. *)
Lemma JSON_parse_trim (p : jsstring) (v : Json) :
  JSON_parse p = Ok v -> JSON_parse (trim p) = Ok v.
Proof.
  unfold JSON_parse. intros H.
  destruct (parseValue (parseFuel p) p) as [v' r | |] eqn:Ep; [| done | done].
  destruct (skipWs r) eqn:Er; [| done]. inversion H. subst v'.
  apply parseValue_trimStart in Ep.
  destruct (trimEnd_split (trimStart p)) as (ws & Hws & Hsplit & _).
  fold (trim p) in Hsplit. rewrite Hsplit in Ep.
  destruct (parse_ignores ws (parseFuel p) Hws) as [Hv _].
  destruct (Hv (trim p) v r Ep) as (r' & -> & Hshort).
  rewrite <- (parseValue_enough (parseFuel p)), Hshort.
  - by rewrite (skipWs_app_nil _ _ Er).
  - unfold parseFuel. pose proof (length_trim p). lia.
Qed.

(** ** The content generator *)

(** A text that has no json-tagged opening fence and does not end with a
    closing fence is left as it is. *)
Lemma stripFence_plain (s : jsstring) :
  startsWith (js "```json") s = false ->
  (forall k, drop k s <> js "```") ->
  stripFence s = s.
Proof.
  intros Hopen Hclose. unfold stripFence.
  assert (Hgen : forall b t,
            matchOpenFence b t = None -> (forall k, drop k t <> js "```") ->
            deleteMatches matchFence O b t = t).
  { intros b t. revert b. induction t as [| c t IH]; intros b Ho Hc; [done |].
    simpl. unfold matchFence. rewrite Ho.
    unfold matchCloseFence. rewrite bool_decide_eq_false_2 by apply Hc.
    f_equal. apply IH; [done |]. intros k. apply (Hc (S k)). }
  apply Hgen; [| done]. unfold matchOpenFence. by rewrite Hopen.
Qed.

(** C9 (as stated) fails: valid JSON inside a fence that carries no json
    tag is not cleaned to the payload; the closing fence is removed, the
    opening fence stays, and parsing fails. *)
Lemma generate_bare_fence_counterexample :
  let payload := js "{}" in
  let content := js "```" ++ [10%N] ++ payload ++ [10%N] ++ js "```" in
  let env := exampleEnv 1000 (letters 60) (Ok [Some content]) (Ok ("d1", 1000)) in
  JSON_parse payload = Ok (JObject [])
  /\ stripFence (trim content) = js "```" ++ [10%N] ++ payload
  /\ fst (generateStudyMaterials env (letters 60) "english" (exampleWorld userB))
     = Throw syntaxError.
Proof. vm_compute. auto. Qed.

(** C9 (amended): the generator calls the completion service exactly once
    and changes nothing else. A rejected call is rethrown as it is; a
    missing or null first content is a TypeError; otherwise the content is
    trimmed, a leading json-tagged fence with the white space after it and
    a trailing fence with the white space before it are deleted, and the
    result is whatever JSON.parse makes of the rest: the parsed value, or
    the SyntaxError it throws. In particular a payload wrapped in a
    json-tagged fence is parsed as the payload with its surrounding white
    space removed, so a payload that is valid JSON yields its value; and a
    content without such fences is parsed as it is. *)
Theorem generateStudyMaterials_outcome (env : Env) (text : jsstring)
    (language : string) (w : World) :
  let prompt :=
    mkPrompt (if bool_decide (language = "arabic") then "Arabic" else "English")
      (take (Z.to_nat 8000) text) in
  let answer := chatCompletion env (length (completionCalls w)) prompt in
  generateStudyMaterials env text language w
  = (match answer with
     | Throw e => Throw e
     | Ok [] | Ok (None :: _) => Throw typeError
     | Ok (Some content :: _) => JSON_parse (stripFence (trim content))
     end,
     mkWorld (users w) (documents w) (files w) (completionCalls w ++ [prompt])
       (auditLog w))
  /\ (forall payload others,
        answer = Ok (Some (js "```json" ++ payload ++ js "```") :: others) ->
        fst (generateStudyMaterials env text language w)
        = JSON_parse (trim payload)
        /\ forall v, JSON_parse payload = Ok v ->
                     fst (generateStudyMaterials env text language w) = Ok v)
  /\ (forall content others,
        answer = Ok (Some content :: others) ->
        startsWith (js "```json") (trim content) = false ->
        (forall k, drop k (trim content) <> js "```") ->
        fst (generateStudyMaterials env text language w)
        = JSON_parse (trim content)).
Proof.
  intros prompt answer. rewrite generate_run.
  fold prompt. unfold promptFor, recordCall, parsedAnswer. fold prompt answer.
  split; [| split].
  - f_equal. destruct answer as [[| [content |] others] | e]; done.
  - intros payload others ->. cbn [firstContent fst].
    rewrite stripFence_fenced. split; [done |].
    intros v Hv. by apply JSON_parse_trim.
  - intros content others -> Hopen Hclose. cbn [firstContent fst].
    by rewrite stripFence_plain.
Qed.

(** Scenario D: the completion is a json-tagged fence around an object. *)
Lemma generateStudyMaterials_outcome_witness :
  let content := js "```json" ++ ([10%N] ++ exampleCompletion ++ [10%N]) ++ js "```" in
  let env := exampleEnv 1000 (letters 60) (Ok [Some content]) (Ok ("d1", 1000)) in
  fst (generateStudyMaterials env (letters 60) "english" (exampleWorld userB))
  = Ok (JObject [(js "summary", JString (js "s"));
                 (js "flashcards", JArray []);
                 (js "examQuestions", JArray [])]).
Proof.
  intros content env.
  destruct (generateStudyMaterials_outcome env (letters 60) "english"
              (exampleWorld userB)) as (_ & Hfenced & _).
  destruct (Hfenced ([10%N] ++ exampleCompletion ++ [10%N]) []) as [_ Hvalid];
    [reflexivity |].
  apply Hvalid. vm_compute. reflexivity.
Defined.

(** * Further properties *)

(** ** Relations kept by every step of a handler *)

Section Respects.

Context (R : World -> World -> Prop).
Hypothesis R_refl : forall w, R w w.
Hypothesis R_trans : forall a b c, R a b -> R b c -> R a c.

Lemma respects_ret {A} (a : A) : respects R (ret a).
Proof. intros w. apply R_refl. Qed.

Lemma respects_throw {A} (e : Error) : respects R (@throw A e).
Proof. intros w. apply R_refl. Qed.

Lemma respects_lift {A} (r : Result A) : respects R (lift r).
Proof. intros w. apply R_refl. Qed.

Lemma respects_bind {A B} (m : M A) (k : A -> M B) :
  respects R m -> (forall a, respects R (k a)) -> respects R (bind m k).
Proof.
  intros Hm Hk w. unfold bind. specialize (Hm w).
  destruct (m w) as [[a | e] w1]; simpl in *; [| done].
  eapply R_trans; [exact Hm | apply Hk].
Qed.

Lemma respects_tryCatch {A} (m : M A) (handler : Error -> M A) :
  respects R m -> (forall e, respects R (handler e)) ->
  respects R (tryCatch m handler).
Proof.
  intros Hm Hh w. unfold tryCatch. specialize (Hm w).
  destruct (m w) as [[a | e] w1]; simpl in *; [done |].
  eapply R_trans; [exact Hm | apply Hh].
Qed.

Lemma respects_swallow (m : M unit) : respects R m -> respects R (swallow m).
Proof.
  intros Hm. apply respects_tryCatch; [done |]. intros e. apply respects_ret.
Qed.

End Respects.

(** ** The temporary file *)

Lemma unlinksAtMost_refl (path : string) (w : World) : unlinksAtMost path w w.
Proof. by left. Qed.

Lemma unlinksAtMost_trans (path : string) (a b c : World) :
  unlinksAtMost path a b -> unlinksAtMost path b c -> unlinksAtMost path a c.
Proof.
  unfold unlinksAtMost. intros [-> | ->] [-> | ->]; auto.
  right. apply map_eq. intros i. rewrite !lookup_delete. by case_decide.
Qed.

Lemma respects_keeping_files (path : string) {A} (m : M A) :
  (forall w, files (snd (m w)) = files w) -> respects (unlinksAtMost path) m.
Proof. intros H w. left. apply H. Qed.

Lemma unlinksAtMost_unlink (path : string) :
  respects (unlinksAtMost path) (unlink path).
Proof.
  intros w. unfold unlink. destruct (files w !! path); [by right | by left].
Qed.

Lemma unlinksAtMost_userUpdate (path id : string) (data : User -> User) :
  respects (unlinksAtMost path) (userUpdate id data).
Proof.
  apply respects_keeping_files. intros w. unfold userUpdate.
  by destruct (users w !! id).
Qed.

Lemma unlinksAtMost_documentCreate (path : string) (env : Env) (data : DocumentData) :
  respects (unlinksAtMost path) (documentCreate env data).
Proof.
  apply respects_keeping_files. intros w. unfold documentCreate.
  destruct (documentInsert env data) as [[id date] | e]; [| done].
  destruct (documents w !! id); [done |].
  by destruct (users w !! data_userId data).
Qed.

Lemma unlinksAtMost_reset (path : string) (env : Env) (u : User) :
  respects (unlinksAtMost path) (resetMonthlyUsageIfNeeded env u).
Proof.
  unfold resetMonthlyUsageIfNeeded. destruct (Qltb _ _).
  - apply respects_ret, unlinksAtMost_refl.
  - apply unlinksAtMost_userUpdate.
Qed.

Lemma unlinksAtMost_extract (path : string) (env : Env) (p mimetype : string) :
  respects (unlinksAtMost path) (extractTextFromFile env p mimetype).
Proof. apply respects_keeping_files. intros w. by rewrite extract_run. Qed.

Lemma unlinksAtMost_generate (path : string) (env : Env) (text : jsstring)
    (language : string) :
  respects (unlinksAtMost path) (generateStudyMaterials env text language).
Proof. apply respects_keeping_files. intros w. by rewrite generate_run. Qed.

Ltac step_unlinks :=
  first
    [ apply unlinksAtMost_unlink
    | apply unlinksAtMost_userUpdate
    | apply unlinksAtMost_documentCreate
    | apply unlinksAtMost_reset
    | apply unlinksAtMost_extract
    | apply unlinksAtMost_generate
    | apply respects_keeping_files; reflexivity
    | apply respects_ret; apply unlinksAtMost_refl
    | apply respects_lift; apply unlinksAtMost_refl
    | apply respects_swallow;
        [apply unlinksAtMost_refl | apply unlinksAtMost_trans |]
    | apply respects_bind; [apply unlinksAtMost_trans | | intros ?]
    | apply respects_tryCatch; [apply unlinksAtMost_trans | | intros ?]
    | match goal with
      | |- respects _ (match ?x with _ => _ end) => destruct x
      end ].

Lemma upload_unlinksAtMost (env : Env) (req : UploadRequest) (file : File) :
  upload_file req = Some file ->
  respects (unlinksAtMost (file_path file)) (upload env req).
Proof.
  intros Hfile. unfold upload, uploadBody, statusJson, json. rewrite Hfile.
  repeat step_unlinks.
Qed.

Lemma endsWithout_bind (path : string) {A B} (m : M A) (k : A -> M B) :
  (forall a, endsWithout path (k a)) -> endsWithout path (bind m k).
Proof.
  intros Hk w b w'. unfold bind.
  destruct (m w) as [[a | e] w1]; [apply Hk | done].
Qed.

Lemma endsWithout_cleanup (path : string) {A} (a : A) :
  endsWithout path (swallow (unlink path) ;; ret a).
Proof.
  intros w b w'. unfold bind. rewrite unlink_swallowed. unfold ret.
  intros [= _ <-]. apply lookup_delete_eq.
Qed.

Ltac step_endsWithout :=
  first
    [ apply endsWithout_cleanup
    | apply endsWithout_bind; intros ?
    | match goal with
      | |- endsWithout _ (match ?x with _ => _ end) => destruct x
      end ].

Lemma uploadBody_endsWithout (env : Env) (req : UploadRequest) (file : File) :
  upload_file req = Some file ->
  endsWithout (file_path file) (uploadBody env req).
Proof.
  intros Hfile. unfold uploadBody, statusJson, json. rewrite Hfile.
  repeat step_endsWithout.
Qed.

(** X1: whatever happens to an upload that carries a file (unknown user,
    quota, extraction, generation, store error, success), the handler
    answers, and afterwards the disk is the disk before without the
    temporary file: that file is gone and no other file was touched. *)
Theorem upload_removes_temp_file (env : Env) (req : UploadRequest) (file : File)
    (w : World) :
  upload_file req = Some file ->
  (exists response, fst (upload env req w) = Ok response)
  /\ files (snd (upload env req w)) = delete (file_path file) (files w).
Proof.
  intros Hfile.
  assert (Hgone : (exists response, fst (upload env req w) = Ok response)
                  /\ files (snd (upload env req w)) !! file_path file = None).
  { unfold upload, tryCatch.
    destruct (uploadBody env req w) as [[response | e] w1] eqn:Eb.
    - split; [by eexists |]. simpl.
      by apply (uploadBody_endsWithout env req file Hfile w response w1).
    - rewrite Hfile. unfold bind. rewrite unlink_swallowed.
      split; [by eexists |]. simpl. apply lookup_delete_eq. }
  destruct Hgone as [Hok Hgone]. split; [done |].
  destruct (upload_unlinksAtMost env req file Hfile w) as [Hsame | Hdel];
    [| done].
  rewrite Hsame in Hgone |- *. by rewrite delete_id.
Qed.

Lemma upload_removes_temp_file_witness :
  let env := exampleEnv 1000 (letters 60) (Throw (mkError "APIError" "rate limited"))
               (Ok ("d1", 1000)) in
  files (snd (upload env exampleRequest (exampleWorld userB)))
  = delete "uploads/17-42-notes.pdf" (files (exampleWorld userB)).
Proof.
  intros env.
  apply (upload_removes_temp_file env exampleRequest exampleFile
           (exampleWorld userB)).
  reflexivity.
Defined.

(** ** The authentication guard *)

Lemma parseAdminEmails_nonempty (auth : AuthEnv) : [] ∉ parseAdminEmails auth.
Proof.
  unfold parseAdminEmails. intros Hin%list_elem_of_filter. by destruct Hin.
Qed.

Lemma listed_email (auth : AuthEnv) (session : Session) :
  listed auth session -> emailOf auth session <> [].
Proof.
  intros Hin Hnil. unfold listed in Hin. rewrite Hnil in Hin.
  by apply parseAdminEmails_nonempty in Hin.
Qed.

(** The guard, in closed form, for a session that has a user. *)
Lemma requireAuth_run (auth : AuthEnv) (session : Session) (user : AuthUser)
    (w : World) :
  getSession auth = Ok (Some session) ->
  session_user session = Some user ->
  let promote :=
    bool_decide (listed auth session)
    && negb (bool_decide (auth_role user = Some "admin")) in
  requireAuth auth w
  = (Ok (Accepted (if promote then elevate session else session)),
     match users w !! auth_id user with
     | Some u =>
         setUsers
           (insert (auth_id user)
              (if promote then withRole (Some "admin") u else u)) w
     | None => w
     end).
Proof.
  intros Hsession Huser promote. subst promote.
  unfold requireAuth, tryCatch. cbv zeta.
  unfold bind at 1, lift. rewrite Hsession.
  change (match session_user session with
          | Some user0 =>
              match auth_email user0 with
              | Some email => toLowerCase auth email
              | None => []
              end
          | None => []
          end) with (emailOf auth session).
  change (bool_decide (emailOf auth session ∈ parseAdminEmails auth))
    with (bool_decide (listed auth session)).
  rewrite Huser.
  destruct (bool_decide (listed auth session));
    [destruct (bool_decide (auth_role user = Some "admin")) |];
    cbn [negb andb]; unfold bind at 1, ret at 1; cbv iota;
    unfold elevate; rewrite ?Huser; cbn [fmap option_fmap option_map session_user auth_id];
    unfold bind, swallow, tryCatch, userUpdate, ret;
    destruct (users w !! auth_id user) as [u |]; try reflexivity.
Qed.

Lemma requireAuth_no_user (auth : AuthEnv) (session : Session) (w : World) :
  getSession auth = Ok (Some session) ->
  session_user session = None ->
  requireAuth auth w = (Ok (Accepted session), w).
Proof.
  intros Hsession Huser.
  unfold requireAuth, tryCatch. cbv zeta.
  unfold bind at 1, lift. rewrite Hsession, Huser.
  rewrite bool_decide_eq_false_2 by apply parseAdminEmails_nonempty.
  unfold bind at 1, ret at 1. cbv iota. rewrite Huser. reflexivity.
Qed.

Lemma requireAuth_no_session (auth : AuthEnv) (w : World) :
  getSession auth = Ok None ->
  requireAuth auth w = (Ok (Rejected 401 "Unauthorized"), w).
Proof.
  intros Hsession. unfold requireAuth, tryCatch. cbv zeta.
  unfold bind at 1, lift. by rewrite Hsession.
Qed.

Lemma requireAuth_failed (auth : AuthEnv) (e : Error) (w : World) :
  getSession auth = Throw e ->
  requireAuth auth w = (Ok (Rejected 500 "Auth check failed"), w).
Proof.
  intros Hsession. unfold requireAuth, tryCatch. cbv zeta.
  unfold bind at 1, lift. by rewrite Hsession.
Qed.

(** ** What each call does to the tables *)

Lemma getMonthlyLimit_nonneg (u : User) : 0 <= getMonthlyLimit u.
Proof.
  unfold getMonthlyLimit, minLimit. destruct (isPremium u); lia.
Qed.

Lemma refreshed_refl (u : User) : refreshed u u.
Proof. unfold refreshed. tauto. Qed.

Lemma refreshed_afterReset (env : Env) (u : User) : refreshed u (afterReset env u).
Proof.
  unfold afterReset. destruct (Qltb _ _); [apply refreshed_refl |].
  unfold refreshed. simpl. tauto.
Qed.

Lemma refreshed_validated (env : Env) (u : User) : refreshed u (validated env u).
Proof.
  unfold validated, afterStorageInit, afterReset.
  destruct (Qltb _ _); destruct u as [i r p du ml [s |] lr];
    unfold refreshed; simpl; tauto.
Qed.

Lemma getDocument_run (req : DocumentRequest) (w : World) :
  snd (getDocument req w) = w.
Proof.
  unfold getDocument, tryCatch, bind, documentFindUnique.
  destruct (documents w !! document_params_id req); [| done].
  by destruct (negb _ && negb _).
Qed.

(** The user route, in closed form. *)
Lemma me_run (env : Env) (session : SessionUser) (u : User) (w : World) :
  users w !! session_id session = Some u ->
  user_id u = session_id session ->
  let v := afterReset env u in
  me env session w
  = (Ok (Served
           (mkMeBody
              (mkMeUser (user_id v) (role v) (plan v) (documentsUsed v)
                 (getMonthlyLimit v) (getRemainingDocuments v)
                 (toNumber (storageColumn v) 0))
              (documentsOf (session_id session) w))),
     setUsers (insert (session_id session) v) w).
Proof.
  intros Hu Hid v. subst v.
  unfold me, tryCatch. cbv zeta.
  unfold bind at 1, userFindUniqueIncluding at 1. rewrite Hu. simpl.
  unfold afterReset, Qltb.
  destruct (Qle_bool _ _); simpl.
  - unfold bind at 1, userUpdateIncluding at 1, bind at 1, userUpdate at 1.
    rewrite Hid, Hu. unfold ret. simpl. rewrite Hid. reflexivity.
  - unfold bind, ret. rewrite Hid, setUsers_insert_id by done. reflexivity.
Qed.

Lemma me_unknown_user (env : Env) (session : SessionUser) (w : World) :
  users w !! session_id session = None ->
  me env session w = (Ok (Refused 404 "User not found"), w).
Proof.
  intros Hu. unfold me, tryCatch. cbv zeta.
  unfold bind at 1, userFindUniqueIncluding at 1. by rewrite Hu.
Qed.

Lemma deleteDocument_missing (req : DeleteRequest) (w : World) :
  documents w !! delete_params_id req = None ->
  deleteDocument req w
  = (Ok (mkResponse 404 (ErrorBody "Document not found" None)), w).
Proof.
  intros Hd. unfold deleteDocument, tryCatch.
  erewrite (bind_ok (documentFindUnique _)) by reflexivity. by rewrite Hd.
Qed.

Lemma deleteDocument_denied (req : DeleteRequest) (d : Document) (w : World) :
  documents w !! delete_params_id req = Some d ->
  session_role (delete_session req) <> Some "admin" ->
  userId d <> session_id (delete_session req) ->
  deleteDocument req w
  = (Ok (mkResponse 403 (ErrorBody "Access denied" None)), w).
Proof.
  intros Hd Hrole Hown. unfold deleteDocument, tryCatch.
  erewrite (bind_ok (documentFindUnique _)) by reflexivity. rewrite Hd.
  by rewrite !bool_decide_eq_false_2 by done.
Qed.

Lemma adminDeleteFile_missing (env : Env) (req : AdminDeleteRequest) (w : World) :
  documents w !! admin_documentId req = None ->
  adminDeleteFile env req w
  = (Ok (mkResponse 404 (ErrorBody "Document not found" None)), w).
Proof.
  intros Hd. unfold adminDeleteFile, tryCatch. cbv zeta.
  erewrite (bind_ok (documentFindUnique _)) by reflexivity. by rewrite Hd.
Qed.

Lemma adminDeleteFile_mismatch (env : Env) (req : AdminDeleteRequest)
    (d : Document) (w : World) :
  documents w !! admin_documentId req = Some d ->
  userId d <> admin_id req ->
  adminDeleteFile env req w
  = (Ok (mkResponse 404 (ErrorBody "Document not found" None)), w).
Proof.
  intros Hd Hown. unfold adminDeleteFile, tryCatch. cbv zeta.
  erewrite (bind_ok (documentFindUnique _)) by reflexivity. rewrite Hd.
  by rewrite bool_decide_eq_false_2 by done.
Qed.

Lemma logAdminAction_run (env : Env) (entry : AuditEntry) (w : World) :
  exists log,
    logAdminAction env entry w
    = (Ok tt, mkWorld (users w) (documents w) (files w) (completionCalls w) log)
    /\ (log = auditLog w \/ log = auditLog w ++ [entry]).
Proof.
  unfold logAdminAction, tryCatch, ret.
  destruct (auditInsert env entry).
  - eexists. split; [reflexivity |]. by right.
  - exists (auditLog w). split; [by destruct w |]. by left.
Qed.

Lemma adminDeleteUser_missing (env : Env) (req : AdminUserRequest) (w : World) :
  users w !! adminUser_id req = None ->
  adminDeleteUser env req w
  = (Ok (mkResponse 404 (ErrorBody "User not found" None)), w).
Proof.
  intros Hu. unfold adminDeleteUser, tryCatch. cbv zeta.
  erewrite (bind_ok (userFindUnique _)) by reflexivity. by rewrite Hu.
Qed.

Lemma adminDeleteUser_run (env : Env) (req : AdminUserRequest) (u : User)
    (w : World) :
  users w !! adminUser_id req = Some u ->
  exists w',
    adminDeleteUser env req w = (Ok (mkResponse 200 (SuccessBody None)), w')
    /\ users w' = delete (adminUser_id req) (users w)
    /\ documents w'
       = filter (fun row => userId (snd row) <> adminUser_id req) (documents w)
    /\ files w' = files w
    /\ completionCalls w' = completionCalls w.
Proof.
  intros Hu. unfold adminDeleteUser, tryCatch. cbv zeta.
  erewrite (bind_ok (userFindUnique _)) by reflexivity. rewrite Hu.
  unfold bind at 1, userDelete at 1. rewrite Hu.
  set (w1 := mkWorld _ _ _ _ _).
  destruct (logAdminAction_run env
              (mkAuditEntry (session_id (adminUser_session req)) "DELETE_USER"
                 (adminUser_id req)) w1) as (log & Hlog & _).
  unfold bind. rewrite Hlog. unfold json, ret.
  eexists. split; [reflexivity |]. done.
Qed.

Lemma requireAuth_effect (auth : AuthEnv) (w : World) :
  Effect w (snd (requireAuth auth w)).
Proof.
  destruct (getSession auth) as [[session |] | e] eqn:Hsession.
  - destruct (session_user session) as [user |] eqn:Huser.
    + rewrite (requireAuth_run auth session user w Hsession Huser). cbv zeta.
      destruct (users w !! auth_id user) as [u |] eqn:Hu; [| by apply Untouched].
      destruct (_ && _).
      * by eapply RolePromoted.
      * rewrite setUsers_insert_id by done. by apply Untouched.
    + rewrite (requireAuth_no_user auth session w Hsession Huser).
      by apply Untouched.
  - rewrite (requireAuth_no_session auth w Hsession). by apply Untouched.
  - rewrite (requireAuth_failed auth e w Hsession). by apply Untouched.
Qed.

(** Every call has one of seven effects on the two tables. *)
Lemma call_effect (c : Call) (w : World) : wellFormed w -> Effect w (after c w).
Proof.
  intros (Hku & Hkd & Hfk).
  destruct c as [auth | env req | req | req | env session | env req | env req |];
    simpl.
  - apply requireAuth_effect.
  - (* upload *)
    destruct (upload_file req) as [file |] eqn:Hfile.
    2: { rewrite upload_without_file by done. by apply Untouched. }
    destruct (users w !! session_id (upload_session req)) as [u |] eqn:Hu.
    2: { rewrite (upload_unknown_user env req file) by done. by apply Untouched. }
    pose proof (Hku _ _ Hu) as Hid.
    destruct (upload_trichotomy env req file u w Hfile Hu Hid)
      as [_ [(_ & _ & Hus & Hds & _)
            | [(_ & _ & Hus & Hds) | (d & _ & Hq & Hfresh & Hds & Hown & Hsize & Hus)]]].
    + eapply RowRefreshed; [exact Hu | apply (refreshed_validated env) | done | done].
    + eapply RowRefreshed; [exact Hu | apply (refreshed_validated env) | done | done].
    + eapply (DocumentAdded w _ u (validated env u) d); try done.
      * by rewrite Hown.
      * apply refreshed_validated.
      * by rewrite Hown, Hsize.
  - rewrite getDocument_run. by apply Untouched.
  - (* DELETE /document/:id *)
    destruct (documents w !! delete_params_id req) as [d |] eqn:Hd.
    2: { rewrite deleteDocument_missing by done. by apply Untouched. }
    destruct (decide (session_role (delete_session req) = Some "admin"
                      \/ userId d = session_id (delete_session req)))
      as [Hauth | Hno].
    + destruct (Hfk _ _ Hd) as [o Ho].
      pose proof (Hkd _ _ Hd) as Hdid.
      rewrite (deleteDocument_run req d o w Hd Hdid Hauth Ho).
      eapply (DocumentRemoved w _ d o); try done. by rewrite Hdid.
    + rewrite (deleteDocument_denied req d) by tauto. by apply Untouched.
  - (* GET /me *)
    destruct (users w !! session_id session) as [u |] eqn:Hu.
    2: { rewrite me_unknown_user by done. by apply Untouched. }
    rewrite (me_run env session u w Hu (Hku _ _ Hu)). cbv zeta.
    eapply RowRefreshed; [exact Hu | apply (refreshed_afterReset env) | done | done].
  - (* admin file deletion *)
    destruct (documents w !! admin_documentId req) as [d |] eqn:Hd.
    2: { rewrite adminDeleteFile_missing by done. by apply Untouched. }
    destruct (decide (userId d = admin_id req)) as [Hown | Hno].
    2: { rewrite (adminDeleteFile_mismatch env req d) by done. by apply Untouched. }
    destruct (Hfk _ _ Hd) as [o Ho]. rewrite Hown in Ho.
    destruct (adminDeleteFile_run env req d o w Hd Hown Ho)
      as (w' & -> & Hus & Hds).
    pose proof (Hkd _ _ Hd) as Hdid.
    eapply (DocumentRemoved w _ d o); simpl; rewrite ?Hdid, ?Hown; done.
  - (* admin user deletion *)
    destruct (users w !! adminUser_id req) as [u |] eqn:Hu.
    2: { rewrite adminDeleteUser_missing by done. by apply Untouched. }
    destruct (adminDeleteUser_run env req u w Hu) as (w' & -> & Hus & Hds & _).
    by eapply UserRemoved.
  - rewrite run_repairs by done. by apply CountersRepaired.
Qed.

(** ** The sum of the sizes when the Document table changes *)









(** ** Invariants of the tables *)

Lemma getMonthlyLimit_withStorage (s : option Z) (u : User) :
  getMonthlyLimit (withStorage s u) = getMonthlyLimit u.
Proof. reflexivity. Qed.

Lemma getMonthlyLimit_promoted (u : User) :
  getMonthlyLimit u <= getMonthlyLimit (withRole (Some "admin") u).
Proof.
  unfold getMonthlyLimit, minLimit, baseLimit, isPremium. simpl.
  rewrite orb_true_r. destruct (_ || _); lia.
Qed.

Lemma getMonthlyLimit_withUpload (size : Z) (u : User) :
  getMonthlyLimit (withUpload size u) = getMonthlyLimit u.
Proof. reflexivity. Qed.

Lemma Effect_wellFormed (w w' : World) :
  Effect w w' -> wellFormed w -> wellFormed w'.
Proof.
  intros He (Hku & Hkd & Hfk).
  destruct He as [Hus Hds | id u v Hu (Hid & _) Hus Hds
                 | u v d Hu (Hid & _) _ Hfresh Hds Hus
                 | d o Hd Ho Hds Hus | id Hus Hds | Hus Hds
                 | id u Hu Hus Hds];
    unfold wellFormed, usersKeyed, documentsKeyed, ownersExist;
    rewrite Hus, Hds.
  - done.
  - split; [| split; [done |]].
    + intros k x. rewrite lookup_insert. case_decide; [| by apply Hku].
      intros [= <-]. subst k. rewrite Hid. by apply Hku.
    + intros k x Hx. rewrite lookup_insert. case_decide; [done |]. by eapply Hfk.
  - split; [| split].
    + intros k x. rewrite lookup_insert. case_decide as Hk; [| by apply Hku].
      intros [= <-]. simpl. rewrite Hid, <- Hk. by apply Hku.
    + intros k x. rewrite lookup_insert. case_decide; [| by apply Hkd].
      by intros [= <-].
    + intros k x. rewrite lookup_insert. case_decide.
      * intros [= <-]. by rewrite lookup_insert_eq.
      * intros Hx. rewrite lookup_insert. case_decide; [done |]. by eapply Hfk.
  - split; [| split].
    + intros k x. rewrite lookup_insert. case_decide as Hk; [| by apply Hku].
      intros [= <-]. simpl. rewrite <- Hk. by apply Hku.
    + intros k x. rewrite lookup_delete. case_decide; [done |]. by apply Hkd.
    + intros k x. rewrite lookup_delete. case_decide; [done |].
      intros Hx. rewrite lookup_insert. case_decide; [done |]. by eapply Hfk.
  - split; [| split].
    + intros k x [_ Hx]%lookup_delete_Some. by apply Hku.
    + intros k x [Hx _]%map_lookup_filter_Some. by apply Hkd.
    + intros k x [Hx Hne]%map_lookup_filter_Some. simpl in Hne.
      rewrite lookup_delete_ne by done. by eapply Hfk.
  - split; [| split; [done |]].
    + intros k x. rewrite repairedUsers_lookup.
      destruct (users w !! k) as [u |] eqn:Hu; [| done].
      intros [= <-]. simpl. by apply Hku.
    + intros k x Hx. rewrite repairedUsers_lookup.
      destruct (Hfk _ _ Hx) as [u ->]. done.
  - split; [| split; [done |]].
    + intros k x. rewrite lookup_insert. case_decide as Hk; [| by apply Hku].
      intros [= <-]. simpl. rewrite <- Hk. by apply Hku.
    + intros k x Hx. rewrite lookup_insert. case_decide; [done |]. by eapply Hfk.
Qed.


Lemma Effect_withinQuota (w w' : World) :
  Effect w w' -> withinQuota w -> withinQuota w'.
Proof.
  intros He Hq.
  destruct He as [Hus Hds | id u v Hu (_ & Hl & Hc & _) Hus Hds
                 | u v d Hu _ Hlt Hfresh Hds Hus
                 | d o Hd Ho Hds Hus | id Hus Hds | Hus Hds
                 | id u Hu Hus Hds];
    intros k x; rewrite Hus.
  - by apply Hq.
  - rewrite lookup_insert. case_decide; [| by apply Hq].
    intros [= <-]. rewrite Hl.
    destruct Hc as [-> | ->]; [by eapply Hq | apply getMonthlyLimit_nonneg].
  - rewrite lookup_insert. case_decide; [| by apply Hq].
    intros [= <-]. rewrite getMonthlyLimit_withUpload. simpl. lia.
  - rewrite lookup_insert. case_decide; [| by apply Hq].
    intros [= <-]. rewrite getMonthlyLimit_withStorage. simpl. by eapply Hq.
  - intros [_ Hx]%lookup_delete_Some. by eapply Hq.
  - rewrite repairedUsers_lookup.
    destruct (users w !! k) as [u |] eqn:Hu; [| done].
    intros [= <-]. rewrite getMonthlyLimit_withStorage. simpl. by eapply Hq.
  - rewrite lookup_insert. case_decide; [| by apply Hq].
    intros [= <-]. pose proof (getMonthlyLimit_promoted u). simpl.
    pose proof (Hq _ _ Hu). lia.
Qed.

Lemma wellFormed_afterAll (calls : list Call) (w : World) :
  wellFormed w -> wellFormed (afterAll calls w).
Proof.
  revert w. induction calls as [| c rest IH]; intros w Hw; [done |].
  simpl. apply IH. eapply Effect_wellFormed; [by apply call_effect | done].
Qed.

Lemma wellFormed_worldG : wellFormed worldG.
Proof.
  split; [| split].
  - intros id u Hu.
    change (users worldG) with ({[ "u1" := userG ]} : gmap string User) in Hu.
    by apply lookup_singleton_Some in Hu as [<- <-].
  - intros id d Hd.
    change (documents worldG) with ({[ "d9" := documentE ]} : gmap string Document) in Hd.
    by apply lookup_singleton_Some in Hd as [<- <-].
  - intros id d Hd.
    change (documents worldG) with ({[ "d9" := documentE ]} : gmap string Document) in Hd.
    apply lookup_singleton_Some in Hd as [_ <-]. by exists userG.
Qed.



(** X3: uploads never take a user past the quota. In a store that
    satisfies the schema, if no user has documentsUsed above the effective
    monthly limit, none has after any sequence of the modelled calls: a
    reset writes 0, which no limit is below, an upload adds 1 only to a
    count that is below the limit, and a promotion to admin does not
    lower the limit. *)
Theorem quota_never_exceeded (calls : list Call) (w : World) :
  wellFormed w -> withinQuota w -> withinQuota (afterAll calls w).
Proof.
  revert w. induction calls as [| c rest IH]; intros w Hw Hq; [done |].
  simpl. pose proof (call_effect c w Hw) as He. apply IH.
  - by eapply Effect_wellFormed.
  - by eapply Effect_withinQuota.
Qed.

Lemma quota_never_exceeded_witness :
  let env := exampleEnv 1000 (letters 60) (Ok [Some exampleCompletion])
               (Ok ("d1", 1000)) in
  withinQuota
    (afterAll [CallUpload env exampleRequest; CallUpload env exampleRequest] worldG).
Proof.
  intros env.
  apply (quota_never_exceeded _ worldG).
  - exact wellFormed_worldG.
  - intros id u Hu.
    change (users worldG) with ({[ "u1" := userG ]} : gmap string User) in Hu.
    apply lookup_singleton_Some in Hu as [<- <-]. vm_compute. discriminate.
Defined.

(** ** What an upload costs *)

(** An upload either makes no call and does not end in 200, or makes one
    call, on a text of at least 50 code units after trimming, and ends in
    200 or 500. *)
Lemma upload_calls_cases (env : Env) (req : UploadRequest) (w : World) :
  usersKeyed w ->
  let outcome := upload env req w in
  (completionCalls (snd outcome) = completionCalls w
   /\ responseStatus outcome <> Some 200)
  \/ (exists text,
        completionCalls (snd outcome)
        = completionCalls w ++ [promptFor text (languageOf req)]
        /\ (50 <= length (trim text))%nat
        /\ (responseStatus outcome = Some 200
            \/ responseStatus outcome = Some 500)).
Proof.
  intros Hku outcome. subst outcome.
  destruct (upload_file req) as [file |] eqn:Hfile.
  2: { rewrite upload_without_file by done. by left. }
  destruct (users w !! session_id (upload_session req)) as [u |] eqn:Hu.
  2: { rewrite (upload_unknown_user env req file) by done. by left. }
  rewrite (upload_outcome env req file u w Hfile Hu (Hku _ _ Hu)).
  unfold uploadOutcome. cbv zeta.
  destruct (getMonthlyLimit _ <=? _); [by left |].
  destruct (extracted env _ _) as [text | e]; [| by left].
  destruct (bool_decide (text = []) || (length (trim text) <? 50)%nat) eqn:Et;
    [by left |].
  apply orb_false_iff in Et as [_ Hlen]. apply Nat.ltb_ge in Hlen.
  right. exists text.
  destruct (parsedAnswer _) as [materials | e]; [| by auto].
  destruct (documentDataOf req file materials) as [data | e]; [| by auto].
  destruct (documentInsert env data) as [[id date] | e]; [| by auto].
  destruct (documents w !! id); by auto.
Qed.

(** X4: an upload makes at most one call to the completion service. A
    call is made only by a request that ends in 200 or 500 (never by one
    refused with 400, 403 or 404), every 200 has made exactly one, and
    the document part of the prompt is between 50 and 8000 code units
    long, in the language the request selected. *)
Theorem upload_completion_calls (env : Env) (req : UploadRequest) (w : World) :
  usersKeyed w ->
  let outcome := upload env req w in
  exists calls,
    completionCalls (snd outcome) = completionCalls w ++ calls
    /\ (length calls <= 1)%nat
    /\ (responseStatus outcome = Some 200 -> length calls = 1%nat)
    /\ forall p, p ∈ calls ->
         (responseStatus outcome = Some 200 \/ responseStatus outcome = Some 500)
         /\ 50 <= Z.of_nat (length (prompt_document p)) <= 8000
         /\ prompt_languageName p
            = if bool_decide (upload_language req = Some "arabic")
              then "Arabic" else "English".
Proof.
  intros Hku outcome.
  pose proof (upload_calls_cases env req w Hku) as Hcases.
  cbv zeta in Hcases. change (upload env req w) with outcome in Hcases.
  destruct Hcases as [[Hcalls Hstatus] | (text & Hcalls & Hlen & Hstatus)].
  - exists []. rewrite app_nil_r. split; [done |]. split; [simpl; lia |].
    split; [done |]. by intros p ?%elem_of_nil.
  - exists [promptFor text (languageOf req)].
    split; [done |]. split; [simpl; lia |]. split; [done |].
    intros p ->%list_elem_of_singleton. split; [done |]. split.
    + pose proof (length_trim text). simpl. rewrite length_take. lia.
    + unfold languageOf. simpl. by repeat case_bool_decide.
Qed.

Lemma upload_completion_calls_witness :
  let env := exampleEnv 1000 (letters 60) (Ok [Some exampleCompletion])
               (Ok ("d1", 1000)) in
  exists calls,
    completionCalls (snd (upload env exampleRequest worldG))
    = completionCalls worldG ++ calls
    /\ (length calls <= 1)%nat.
Proof.
  intros env.
  destruct (upload_completion_calls env exampleRequest worldG)
    as (calls & Hcalls & Hlen & _).
  - intros id u Hu.
    change (users worldG) with ({[ "u1" := userG ]} : gmap string User) in Hu.
    by apply lookup_singleton_Some in Hu as [<- <-].
  - exists calls. split; [exact Hcalls | exact Hlen].
Defined.

(** ** Presentations *)

Lemma fileFilter_allowed (mimetype : string) :
  fileFilter mimetype = Ok true
  <-> mimetype = mimePdf \/ mimetype = mimeDocx \/ mimetype = mimePptx.
Proof.
  unfold fileFilter, allowedTypes. case_bool_decide as H.
  - split; [| done]. intros _. set_unfold. tauto.
  - split; [done |]. intros H'. exfalso. apply H. set_unfold. tauto.
Qed.

(** X5: a PowerPoint file passes the upload filter, and when its uploader
    exists and is below the quota, the handler calls the completion
    service exactly once, on the fixed sentence that stands in for the
    extracted text: the prompt does not depend on the bytes of the file,
    nor on whether the file is on disk at all. *)
Theorem upload_pptx_placeholder (env : Env) (req : UploadRequest) (file : File)
    (u : User) (w : World) :
  upload_file req = Some file ->
  file_mimetype file = mimePptx ->
  users w !! session_id (upload_session req) = Some u ->
  user_id u = session_id (upload_session req) ->
  documentsUsed (afterReset env u) < getMonthlyLimit u ->
  fileFilter (file_mimetype file) = Ok true
  /\ completionCalls (snd (upload env req w))
     = completionCalls w
       ++ [mkPrompt
             (if bool_decide (upload_language req = Some "arabic")
              then "Arabic" else "English")
             (js "PowerPoint content extraction - implement with pptx parser library")].
Proof.
  intros Hfile Hmime Hu Hid Hquota.
  split; [apply fileFilter_allowed; tauto |].
  rewrite (upload_outcome env req file u w Hfile Hu Hid).
  unfold uploadOutcome. cbv zeta.
  rewrite validated_limit, validated_documentsUsed.
  rewrite (proj2 (Z.leb_gt _ _) Hquota).
  rewrite Hmime.
  change (extracted env mimePptx (files w !! file_path file))
    with (@Ok jsstring
            (js "PowerPoint content extraction - implement with pptx parser library")).
  cbv iota.
  set (text := js "PowerPoint content extraction - implement with pptx parser library").
  replace (bool_decide (text = []) || (length (trim text) <? 50)%nat)
    with false by (vm_compute; reflexivity).
  assert (Hprompt :
    promptFor text (languageOf req)
    = mkPrompt
        (if bool_decide (upload_language req = Some "arabic")
         then "Arabic" else "English") text).
  { unfold promptFor, languageOf. f_equal. by repeat case_bool_decide. }
  rewrite <- Hprompt.
  destruct (parsedAnswer _) as [materials | e]; [| done].
  destruct (documentDataOf req file materials) as [data | e]; [| done].
  destruct (documentInsert env data) as [[id date] | e]; [| done].
  by destruct (documents w !! id).
Qed.

Lemma upload_pptx_placeholder_witness :
  let env := exampleEnv 1000 (letters 60) (Ok [Some exampleCompletion])
               (Ok ("d1", 1000)) in
  let file := mkFile "uploads/3-9-deck.pptx" "3-9-deck.pptx" "deck.pptx" mimePptx 2000 in
  let req := mkUploadRequest (mkSessionUser "u1" (Some "user")) (Some "arabic")
               (Some file) in
  completionCalls (snd (upload env req worldG))
  = [mkPrompt "Arabic"
       (js "PowerPoint content extraction - implement with pptx parser library")].
Proof.
  intros env file req.
  apply (upload_pptx_placeholder env req file userG worldG);
    [reflexivity | reflexivity | reflexivity | reflexivity | vm_compute; reflexivity].
Defined.

(** ** The user route and the upload route *)

Lemma afterReset_limit (env : Env) (u : User) :
  getMonthlyLimit (afterReset env u) = getMonthlyLimit u.
Proof. unfold afterReset. by destruct (Qltb _ _). Qed.

Lemma afterReset_idempotent (env : Env) (u : User) :
  afterReset env (afterReset env u) = afterReset env u.
Proof.
  unfold afterReset at 2 3. destruct (Qltb _ _) eqn:E.
  - unfold afterReset. by rewrite E.
  - apply afterReset_not_due. simpl. unfold msPerDay. lia.
Qed.

Lemma validated_afterReset (env : Env) (u : User) :
  validated env (afterReset env u) = validated env u.
Proof. unfold validated. by rewrite afterReset_idempotent. Qed.

(** X6: the user route reports what the upload route enforces. For an
    existing user, GET /me answers with remainingDocuments equal to
    [getRemainingDocuments] of the row after the monthly reset, which is
    never negative, and it reports 0 exactly when an upload with a file,
    made in the same state at the same time, is refused with 403. *)
Theorem me_reports_upload_quota (env : Env) (req : UploadRequest) (file : File)
    (u : User) (w : World) :
  upload_file req = Some file ->
  users w !! session_id (upload_session req) = Some u ->
  user_id u = session_id (upload_session req) ->
  exists body,
    fst (me env (upload_session req) w) = Ok (Served body)
    /\ me_remainingDocuments (me_user body)
       = getRemainingDocuments (afterReset env u)
    /\ 0 <= me_remainingDocuments (me_user body)
    /\ (me_remainingDocuments (me_user body) = 0
        <-> responseStatus (upload env req w) = Some 403).
Proof.
  intros Hfile Hu Hid.
  rewrite (me_run env (upload_session req) u w Hu Hid). cbv zeta.
  eexists. split; [reflexivity |]. simpl. split; [done |].
  split; [unfold getRemainingDocuments; lia |].
  rewrite (upload_status_403 env req file u w Hfile Hu Hid).
  unfold getRemainingDocuments. rewrite afterReset_limit. lia.
Qed.

Lemma me_reports_upload_quota_witness :
  let env := exampleEnv 1000 (letters 60) (Ok [Some exampleCompletion])
               (Ok ("d1", 1000)) in
  exists body,
    fst (me env (mkSessionUser "u1" (Some "user")) (exampleWorld userA))
    = Ok (Served body)
    /\ me_remainingDocuments (me_user body) = 0
    /\ responseStatus (upload env exampleRequest (exampleWorld userA)) = Some 403.
Proof.
  intros env.
  destruct (me_reports_upload_quota env exampleRequest exampleFile userA
              (exampleWorld userA)) as (body & Hbody & Hrem & _ & Hiff);
    [reflexivity | reflexivity | reflexivity |].
  exists body. split; [exact Hbody |].
  assert (H0 : me_remainingDocuments (me_user body) = 0)
    by (rewrite Hrem; vm_compute; reflexivity).
  split; [exact H0 | apply Hiff; exact H0].
Defined.

(** X7: reading /me does not disturb an upload. For an existing user,
    GET /me is idempotent at a given time (a second read gives the same
    answer and changes nothing), and an upload with a file that follows a
    read of /me gives the same response and leaves the same world as the
    upload alone: the reset that /me may have written is the one the
    upload would have written. *)
Theorem me_then_upload (env : Env) (req : UploadRequest) (file : File)
    (u : User) (w : World) :
  upload_file req = Some file ->
  users w !! session_id (upload_session req) = Some u ->
  user_id u = session_id (upload_session req) ->
  let w1 := snd (me env (upload_session req) w) in
  me env (upload_session req) w1 = (fst (me env (upload_session req) w), w1)
  /\ upload env req w1 = upload env req w.
Proof.
  intros Hfile Hu Hid w1. subst w1.
  rewrite (me_run env (upload_session req) u w Hu Hid). cbv zeta. simpl.
  set (sid := session_id (upload_session req)) in *.
  set (v := afterReset env u).
  set (w1 := setUsers (insert sid v) w).
  assert (Hv : users w1 !! sid = Some v) by apply lookup_insert_eq.
  assert (Hvid : user_id v = sid) by (subst v; by rewrite afterReset_id).
  split.
  - rewrite (me_run env (upload_session req) v w1 Hv Hvid). cbv zeta.
    subst v. rewrite afterReset_idempotent. fold sid.
    f_equal. subst w1. by rewrite setUsers_insert_insert.
  - rewrite (upload_outcome env req file v w1 Hfile Hv Hvid).
    rewrite (upload_outcome env req file u w Hfile Hu Hid).
    unfold uploadOutcome. cbv zeta. fold sid.
    subst v. rewrite validated_afterReset.
    subst w1. rewrite setUsers_insert_insert. reflexivity.
Qed.

Lemma me_then_upload_witness :
  let env := exampleEnv (40 * msPerDay) (letters 60) (Ok [Some exampleCompletion])
               (Ok ("d1", 1000)) in
  let session := mkSessionUser "u1" (Some "user") in
  upload env exampleRequest (snd (me env session (exampleWorld userA)))
  = upload env exampleRequest (exampleWorld userA).
Proof.
  intros env session.
  apply (me_then_upload env exampleRequest exampleFile userA (exampleWorld userA));
    reflexivity.
Defined.

(** ** Reading a document *)

Lemma getDocument_missing (req : DocumentRequest) (w : World) :
  documents w !! document_params_id req = None ->
  getDocument req w = (Ok (Refused 404 "Document not found"), w).
Proof.
  intros Hd. unfold getDocument, tryCatch.
  erewrite (bind_ok (documentFindUnique _)) by reflexivity. by rewrite Hd.
Qed.

Lemma getDocument_served (req : DocumentRequest) (d : Document) (w : World) :
  documents w !! document_params_id req = Some d ->
  session_role (document_session req) = Some "admin"
  \/ userId d = session_id (document_session req) ->
  getDocument req w = (Ok (Served d), w).
Proof.
  intros Hd Hauth. unfold getDocument, tryCatch.
  erewrite (bind_ok (documentFindUnique _)) by reflexivity. rewrite Hd.
  destruct Hauth as [Ha | Ha].
  - by rewrite (bool_decide_eq_true_2 _ Ha).
  - rewrite (bool_decide_eq_true_2 _ Ha). by rewrite andb_false_r.
Qed.

Lemma getDocument_denied (req : DocumentRequest) (d : Document) (w : World) :
  documents w !! document_params_id req = Some d ->
  session_role (document_session req) <> Some "admin" ->
  userId d <> session_id (document_session req) ->
  getDocument req w = (Ok (Refused 403 "Access denied"), w).
Proof.
  intros Hd Hrole Hown. unfold getDocument, tryCatch.
  erewrite (bind_ok (documentFindUnique _)) by reflexivity. rewrite Hd.
  by rewrite !bool_decide_eq_false_2 by done.
Qed.

(** X8: what an upload answers is what the store then serves. After an
    upload that ends in 200, the response is built from a stored document
    d; GET /document/:id with the id of the response, by the uploader or
    by an admin, serves exactly d, whose owner is the uploader and whose
    fileSize is the size of the uploaded file; the same request by any
    other non-admin session is refused with 403. *)
Theorem upload_then_getDocument (env : Env) (req : UploadRequest) (file : File)
    (u : User) (w : World) :
  upload_file req = Some file ->
  users w !! session_id (upload_session req) = Some u ->
  user_id u = session_id (upload_session req) ->
  responseStatus (upload env req w) = Some 200 ->
  let w' := snd (upload env req w) in
  exists d,
    fst (upload env req w) = Ok (uploaded d)
    /\ userId d = session_id (upload_session req)
    /\ fileSize d = file_size file
    /\ forall reader,
         getDocument (mkDocumentRequest reader (doc_id d)) w'
         = (Ok (if bool_decide (session_role reader = Some "admin"
                                \/ session_id reader = session_id (upload_session req))
                then Served d else Refused 403 "Access denied"), w').
Proof.
  intros Hfile Hu Hid Hstatus w'. subst w'.
  destruct (upload_trichotomy env req file u w Hfile Hu Hid)
    as [_ [(Hr & _) | [([Hr | Hr] & _) | (d & Hr & _ & _ & Hds & Hown & Hsize & _)]]].
  - unfold responseStatus in Hstatus. rewrite Hr in Hstatus. discriminate.
  - congruence.
  - congruence.
  - exists d. split; [done |]. split; [done |]. split; [done |].
    intros reader.
    assert (Hd : documents (snd (upload env req w)) !! doc_id d = Some d)
      by (rewrite Hds; apply lookup_insert_eq).
    case_bool_decide as Hauth.
    + apply (getDocument_served _ d); [done |]. simpl. rewrite Hown.
      destruct Hauth as [? | ->]; tauto.
    + apply (getDocument_denied _ d); [done | |]; simpl; [tauto |].
      rewrite Hown. intros Heq. apply Hauth. by right.
Qed.

Lemma upload_then_getDocument_witness :
  let env := exampleEnv 1000 (letters 60) (Ok [Some exampleCompletion])
               (Ok ("d1", 1000)) in
  exists d,
    fst (upload env exampleRequest worldG) = Ok (uploaded d)
    /\ fileSize d = 1000%N.
Proof.
  intros env.
  destruct (upload_then_getDocument env exampleRequest exampleFile userG worldG)
    as (d & Hr & _ & Hsize & _);
    [reflexivity | reflexivity | reflexivity | vm_compute; reflexivity |].
  exists d. split; [exact Hr | exact Hsize].
Defined.

(** ** A deleted document *)

(** A deletion that is allowed but whose owner row is missing removes
    the document and then fails. *)
Lemma deleteDocument_orphan (req : DeleteRequest) (d : Document) (w : World) :
  documents w !! delete_params_id req = Some d ->
  doc_id d = delete_params_id req ->
  session_role (delete_session req) = Some "admin"
  \/ userId d = session_id (delete_session req) ->
  users w !! userId d = None ->
  responseStatus (deleteDocument req w) = Some 500.
Proof.
  intros Hd Hdid Hauth Ho.
  unfold deleteDocument, tryCatch.
  erewrite (bind_ok (documentFindUnique _)) by reflexivity. rewrite Hd.
  assert (Hguard :
    negb (bool_decide (session_role (delete_session req) = Some "admin"))
    && negb (bool_decide (userId d = session_id (delete_session req))) = false).
  { destruct Hauth as [Ha | Ha].
    - by rewrite (bool_decide_eq_true_2 _ Ha).
    - rewrite (bool_decide_eq_true_2 _ Ha). apply andb_false_r. }
  rewrite Hguard.
  unfold bind at 1, documentDelete at 1. rewrite Hdid, Hd.
  unfold bind at 1, userFindUnique at 1.
  replace (users (setDocuments (delete (delete_params_id req)) w) !! userId d)
    with (@None User) by done.
  unfold bind, userUpdate.
  replace (users (setDocuments (delete (delete_params_id req)) w) !! userId d)
    with (@None User) by done.
  reflexivity.
Qed.

Lemma deleteDocument_200 (req : DeleteRequest) (w : World) :
  documentsKeyed w ->
  responseStatus (deleteDocument req w) = Some 200 ->
  documents (snd (deleteDocument req w)) !! delete_params_id req = None.
Proof.
  intros Hkd Hstatus.
  destruct (documents w !! delete_params_id req) as [d |] eqn:Hd.
  2: { rewrite deleteDocument_missing in Hstatus by done. discriminate. }
  destruct (decide (session_role (delete_session req) = Some "admin"
                    \/ userId d = session_id (delete_session req)))
    as [Hauth | Hno].
  2: { rewrite (deleteDocument_denied req d) in Hstatus by tauto. discriminate. }
  pose proof (Hkd _ _ Hd) as Hdid.
  destruct (users w !! userId d) as [o |] eqn:Ho.
  - rewrite (deleteDocument_run req d o w Hd Hdid Hauth Ho). simpl.
    rewrite Hdid. apply lookup_delete_eq.
  - rewrite (deleteDocument_orphan req d w Hd Hdid Hauth Ho) in Hstatus.
    discriminate.
Qed.

Lemma adminDeleteFile_orphan (env : Env) (req : AdminDeleteRequest)
    (d : Document) (w : World) :
  documents w !! admin_documentId req = Some d ->
  userId d = admin_id req ->
  users w !! admin_id req = None ->
  responseStatus (adminDeleteFile env req w) = Some 500.
Proof.
  intros Hd Hown Ho.
  unfold adminDeleteFile, tryCatch. cbv zeta.
  erewrite (bind_ok (documentFindUnique _)) by reflexivity. rewrite Hd.
  rewrite (bool_decide_eq_true_2 _ Hown). change (negb true) with false.
  cbv iota.
  unfold bind at 1, documentDelete at 1. rewrite Hd.
  unfold bind at 1, userFindUnique at 1.
  replace (users (setDocuments (delete (admin_documentId req)) w) !! admin_id req)
    with (@None User) by done.
  unfold bind at 1, userUpdate at 1.
  replace (users (setDocuments (delete (admin_documentId req)) w) !! admin_id req)
    with (@None User) by done.
  reflexivity.
Qed.

Lemma adminDeleteFile_200 (env : Env) (req : AdminDeleteRequest) (w : World) :
  responseStatus (adminDeleteFile env req w) = Some 200 ->
  documents (snd (adminDeleteFile env req w)) !! admin_documentId req = None.
Proof.
  intros Hstatus.
  destruct (documents w !! admin_documentId req) as [d |] eqn:Hd.
  2: { by rewrite adminDeleteFile_missing by done. }
  destruct (decide (userId d = admin_id req)) as [Hown | Hno].
  2: { rewrite (adminDeleteFile_mismatch env req d) in Hstatus by done.
       discriminate. }
  destruct (users w !! admin_id req) as [o |] eqn:Ho.
  - destruct (adminDeleteFile_run env req d o w Hd Hown Ho)
      as (w' & -> & _ & Hds).
    simpl. rewrite Hds. apply lookup_delete_eq.
  - rewrite (adminDeleteFile_orphan env req d w Hd Hown Ho) in Hstatus.
    discriminate.
Qed.

(** X9: a deleted document is gone. After a deletion that ends in 200,
    through the documents router (in a table keyed by id) or through the
    admin router, the document is no longer stored: GET /document/:id
    with that id answers 404 to every session, the admin included, and a
    second DELETE /document/:id answers 404 and changes nothing. *)
Theorem deleted_document_is_gone (w : World) (id : string) (w' : World) :
  (exists req,
     documentsKeyed w /\ delete_params_id req = id
     /\ responseStatus (deleteDocument req w) = Some 200
     /\ w' = snd (deleteDocument req w))
  \/ (exists env req,
        admin_documentId req = id
        /\ responseStatus (adminDeleteFile env req w) = Some 200
        /\ w' = snd (adminDeleteFile env req w)) ->
  forall session,
    getDocument (mkDocumentRequest session id) w'
    = (Ok (Refused 404 "Document not found"), w')
    /\ deleteDocument (mkDeleteRequest session id) w'
       = (Ok (mkResponse 404 (ErrorBody "Document not found" None)), w').
Proof.
  intros Hdel session.
  assert (Hgone : documents w' !! id = None).
  { destruct Hdel as [(req & Hkd & <- & Hstatus & ->) | (env & req & <- & Hstatus & ->)].
    - by apply deleteDocument_200.
    - by apply adminDeleteFile_200. }
  split.
  - by apply getDocument_missing.
  - by apply deleteDocument_missing.
Qed.

Lemma deleted_document_is_gone_witness :
  let req := mkDeleteRequest (mkSessionUser "u1" (Some "user")) "d9" in
  let w' := snd (deleteDocument req worldG) in
  getDocument (mkDocumentRequest (mkSessionUser "root" (Some "admin")) "d9") w'
  = (Ok (Refused 404 "Document not found"), w').
Proof.
  intros req w'.
  apply (deleted_document_is_gone worldG "d9" w').
  left. exists req. split; [| split; [reflexivity | split; [| reflexivity]]].
  - intros id d Hd.
    change (documents worldG) with ({[ "d9" := documentE ]} : gmap string Document) in Hd.
    by apply lookup_singleton_Some in Hd as [<- <-].
  - vm_compute. reflexivity.
Defined.

(** ** Other users' calls *)

(** One call by a stranger leaves the document and its owner's row as
    they are. *)
Lemma stranger_call (c : Call) (w : World) (id : string) (d : Document) :
  wellFormed w ->
  documents w !! id = Some d ->
  stranger (userId d) c ->
  documents (after c w) !! id = Some d
  /\ users (after c w) !! userId d = users w !! userId d.
Proof.
  intros (Hku & Hkd & Hfk) Hd (session & Hby & Hrole & Hsid).
  destruct c as [auth | env req | req | req | env s | env req | env req |];
    simpl in Hby; try discriminate.
  - (* requireAuth *)
    destruct (getSession auth) as [[s |] | e] eqn:Hsession; try discriminate.
    destruct (session_user s) as [user |] eqn:Huser; [| discriminate].
    injection Hby as <-. simpl in Hsid. simpl.
    rewrite (requireAuth_run auth s user w Hsession Huser). cbv zeta.
    destruct (users w !! auth_id user) as [u |] eqn:Hu; [| done].
    simpl. by rewrite lookup_insert_ne by done.
  - (* upload *)
    injection Hby as <-. simpl.
    destruct (upload_file req) as [file |] eqn:Hfile.
    2: { by rewrite upload_without_file by done. }
    destruct (users w !! session_id (upload_session req)) as [u |] eqn:Hu.
    2: { by rewrite (upload_unknown_user env req file) by done. }
    destruct (upload_trichotomy env req file u w Hfile Hu (Hku _ _ Hu))
      as [_ [(_ & _ & Hus & Hds & _)
            | [(_ & _ & Hus & Hds) | (d' & _ & _ & Hfresh & Hds & _ & _ & Hus)]]];
      rewrite Hus, Hds.
    + by rewrite lookup_insert_ne by done.
    + by rewrite lookup_insert_ne by done.
    + rewrite (lookup_insert_ne (documents w)) by congruence.
      by rewrite lookup_insert_ne by done.
  - injection Hby as <-. simpl. by rewrite getDocument_run.
  - (* DELETE /document/:id *)
    injection Hby as <-. simpl.
    destruct (documents w !! delete_params_id req) as [d' |] eqn:Hd'.
    2: { by rewrite deleteDocument_missing by done. }
    destruct (decide (userId d' = session_id (delete_session req))) as [Hown | Hno].
    2: { by rewrite (deleteDocument_denied req d') by done. }
    destruct (Hfk _ _ Hd') as [o Ho].
    pose proof (Hkd _ _ Hd') as Hdid.
    rewrite (deleteDocument_run req d' o w Hd' Hdid (or_intror Hown) Ho). simpl.
    assert (Hne : id <> delete_params_id req).
    { intros ->. rewrite Hd in Hd'. injection Hd' as <-. congruence. }
    rewrite Hdid, lookup_delete_ne by done.
    rewrite lookup_insert_ne by congruence. done.
  - (* GET /me *)
    injection Hby as <-. simpl.
    destruct (users w !! session_id s) as [u |] eqn:Hu.
    2: { by rewrite me_unknown_user by done. }
    rewrite (me_run env s u w Hu (Hku _ _ Hu)). cbv zeta. simpl.
    by rewrite lookup_insert_ne by done.
Qed.

(** X10: users are isolated from each other. In a store that satisfies
    the schema, no sequence of authentications, uploads, document reads,
    document deletions and reads of /me made by sessions that are neither
    the owner's nor an admin's changes a stored document or its owner's
    row (quota count and storage counter included), and at the end such a
    session is still refused the document with 403. *)
Theorem strangers_cannot_touch (calls : list Call) (w : World) (id : string)
    (d : Document) :
  wellFormed w ->
  documents w !! id = Some d ->
  Forall (stranger (userId d)) calls ->
  let w' := afterAll calls w in
  documents w' !! id = Some d
  /\ users w' !! userId d = users w !! userId d
  /\ forall session,
       session_role session <> Some "admin" ->
       session_id session <> userId d ->
       getDocument (mkDocumentRequest session id) w'
       = (Ok (Refused 403 "Access denied"), w').
Proof.
  intros Hw Hd Hall w'. subst w'.
  assert (Hkept : documents (afterAll calls w) !! id = Some d
                  /\ users (afterAll calls w) !! userId d = users w !! userId d).
  { revert w Hw Hd. induction Hall as [| c rest Hc _ IH]; intros w Hw Hd; [done |].
    simpl. destruct (stranger_call c w id d Hw Hd Hc) as [Hd1 Hu1].
    rewrite <- Hu1. apply IH; [| done].
    eapply Effect_wellFormed; [by apply call_effect | done]. }
  destruct Hkept as [Hd' Hu']. split; [done |]. split; [done |].
  intros session Hrole Hsid.
  apply (getDocument_denied _ d); [done | done |]. simpl. congruence.
Qed.

Lemma strangers_cannot_touch_witness :
  let env := exampleEnv 1000 (letters 60) (Ok [Some exampleCompletion])
               (Ok ("d1", 1000)) in
  let mallory := mkSessionUser "u2" (Some "user") in
  let calls :=
    [CallAuth (exampleAuth (mkAuthUser "u2" (Some "user") None) "root@example.org");
     CallDeleteDocument (mkDeleteRequest mallory "d9");
     CallUpload env (mkUploadRequest mallory None (Some exampleFile));
     CallMe env mallory] in
  documents (afterAll calls worldG) !! "d9" = Some documentE
  /\ users (afterAll calls worldG) !! "u1" = Some userG.
Proof.
  intros env mallory calls.
  destruct (strangers_cannot_touch calls worldG "d9" documentE)
    as (Hd & Hu & _).
  - exact wellFormed_worldG.
  - reflexivity.
  - repeat constructor; (eexists; split; [reflexivity |]); split; discriminate.
  - split; [exact Hd | exact Hu].
Defined.

(** ** The audit log *)

Lemma logAdminAction_closed (env : Env) (entry : AuditEntry) (w : World) :
  logAdminAction env entry w = (Ok tt, withAudit env entry w).
Proof.
  unfold logAdminAction, withAudit, tryCatch, ret.
  by destruct (auditInsert env entry).
Qed.

(** The admin file deletion, once the document is found under the user
    of the path. *)
Lemma adminDeleteFile_closed (env : Env) (req : AdminDeleteRequest)
    (d : Document) (w : World) :
  documents w !! admin_documentId req = Some d ->
  userId d = admin_id req ->
  adminDeleteFile env req w
  = match users w !! admin_id req with
    | Some o =>
        (Ok (mkResponse 200 (SuccessBody None)),
         withAudit env
           (mkAuditEntry (session_id (admin_session req)) "DELETE_USER_FILE"
              (admin_id req))
           (setUsers
              (insert (admin_id req)
                 (withStorage
                    (Some (floorAtZero
                             (storageOrZero (Some o) - Z.of_N (fileSize d)))) o))
              (setDocuments (delete (admin_documentId req)) w)))
    | None =>
        (Ok (mkResponse 500 (ErrorBody "Failed to delete file" None)),
         setDocuments (delete (admin_documentId req)) w)
    end.
Proof.
  intros Hd Hown.
  unfold adminDeleteFile, tryCatch. cbv zeta.
  erewrite (bind_ok (documentFindUnique _)) by reflexivity. rewrite Hd.
  rewrite (bool_decide_eq_true_2 _ Hown). change (negb true) with false.
  cbv iota.
  unfold bind at 1, documentDelete at 1. rewrite Hd.
  unfold bind at 1, userFindUnique at 1.
  set (w1 := setDocuments (delete (admin_documentId req)) w).
  change (users w1 !! admin_id req) with (users w !! admin_id req).
  unfold bind at 1, userUpdate at 1.
  change (users w1 !! admin_id req) with (users w !! admin_id req).
  destruct (users w !! admin_id req) as [o |]; [| done].
  unfold bind. rewrite logAdminAction_closed. done.
Qed.

Lemma adminDeleteUser_closed (env : Env) (req : AdminUserRequest) (w : World) :
  adminDeleteUser env req w
  = match users w !! adminUser_id req with
    | Some _ =>
        (Ok (mkResponse 200 (SuccessBody None)),
         withAudit env
           (mkAuditEntry (session_id (adminUser_session req)) "DELETE_USER"
              (adminUser_id req))
           (mkWorld (delete (adminUser_id req) (users w))
              (filter (fun row => userId (snd row) <> adminUser_id req)
                 (documents w))
              (files w) (completionCalls w) (auditLog w)))
    | None => (Ok (mkResponse 404 (ErrorBody "User not found" None)), w)
    end.
Proof.
  unfold adminDeleteUser, tryCatch. cbv zeta.
  erewrite (bind_ok (userFindUnique _)) by reflexivity.
  destruct (users w !! adminUser_id req) as [u |] eqn:Hu; [| done].
  unfold bind at 1, userDelete at 1. rewrite Hu.
  unfold bind. rewrite logAdminAction_closed. done.
Qed.

Lemma withAudit_agree (env env' : Env) (entry entry' : AuditEntry) {A}
    (r : Result A) (w : World) :
  agreeButAuditLog (r, withAudit env entry w) (r, withAudit env' entry' w).
Proof.
  unfold agreeButAuditLog, withAudit.
  by destruct (auditInsert env entry), (auditInsert env' entry').
Qed.

(** X11: the audit log is best effort. The two admin deletions (of a
    file, of a user) give the same response and leave the same users,
    documents and files whatever the audit store answers: a failed audit
    write neither fails nor undoes the deletion, and goes unreported. The
    log itself grows by at most the one entry of the action, and only
    when the response is 200. *)
Theorem audit_is_best_effort (env env' : Env) (w : World) :
  (forall req,
     agreeButAuditLog (adminDeleteFile env req w) (adminDeleteFile env' req w)
     /\ (auditLog (snd (adminDeleteFile env req w)) = auditLog w
         \/ (responseStatus (adminDeleteFile env req w) = Some 200
             /\ auditLog (snd (adminDeleteFile env req w))
                = auditLog w
                  ++ [mkAuditEntry (session_id (admin_session req))
                        "DELETE_USER_FILE" (admin_id req)])))
  /\ (forall req,
        agreeButAuditLog (adminDeleteUser env req w) (adminDeleteUser env' req w)
        /\ (auditLog (snd (adminDeleteUser env req w)) = auditLog w
            \/ (responseStatus (adminDeleteUser env req w) = Some 200
                /\ auditLog (snd (adminDeleteUser env req w))
                   = auditLog w
                     ++ [mkAuditEntry (session_id (adminUser_session req))
                           "DELETE_USER" (adminUser_id req)]))).
Proof.
  split; intros req.
  - destruct (documents w !! admin_documentId req) as [d |] eqn:Hd.
    2: { rewrite !adminDeleteFile_missing by done. split; [done | by left]. }
    destruct (decide (userId d = admin_id req)) as [Hown | Hno].
    2: { rewrite !(adminDeleteFile_mismatch _ req d) by done.
         split; [done | by left]. }
    rewrite !(adminDeleteFile_closed _ req d w Hd Hown).
    destruct (users w !! admin_id req) as [o |]; [| split; [done | by left]].
    split; [apply withAudit_agree |].
    unfold withAudit. destruct (auditInsert env _); [by right | by left].
  - rewrite !adminDeleteUser_closed.
    destruct (users w !! adminUser_id req) as [u |]; [| split; [done | by left]].
    split; [apply withAudit_agree |].
    unfold withAudit. destruct (auditInsert env _); [by right | by left].
Qed.

(** ** The admin guard *)

Lemma requireAdmin_next (session : option SessionUser) (w : World) :
  storedAdmin session w -> requireAdmin session w = (Ok Next, w).
Proof.
  intros (s & u & -> & Hid & Hu & Hrole).
  unfold requireAdmin, tryCatch. rewrite bool_decide_eq_false_2 by done.
  erewrite (bind_ok (userFindUnique _)) by reflexivity. rewrite Hu.
  by rewrite (bool_decide_eq_true_2 _ Hrole).
Qed.

Lemma requireAdmin_halt (session : option SessionUser) (w : World) :
  ~ storedAdmin session w ->
  exists code error,
    (code = 401 \/ code = 403)
    /\ requireAdmin session w = (Ok (Halt code error), w).
Proof.
  intros Hno. unfold requireAdmin, tryCatch.
  destruct session as [s |]; [| by eauto].
  case_bool_decide as Hid; [by eauto |].
  erewrite (bind_ok (userFindUnique _)) by reflexivity.
  destruct (users w !! session_id s) as [u |] eqn:Hu; [| by eauto].
  case_bool_decide as Hrole; [| by eauto].
  exfalso. apply Hno. by exists s, u.
Qed.

(** X12: the admin guard reads the stored role. Behind [requireAdmin], a
    handler runs (and then does exactly what it does unguarded) only for
    a session whose user row exists and has the role admin; in every other
    case the answer is 401 or 403 and the world is left as it is,
    whatever the handler and whatever role the session itself carries. *)
Theorem admin_guard (session : option SessionUser) (handler : M Response)
    (w : World) :
  (storedAdmin session w -> behind [requireAdmin session] handler w = handler w)
  /\ (~ storedAdmin session w ->
      exists code error,
        (code = 401 \/ code = 403)
        /\ behind [requireAdmin session] handler w
           = (Ok (mkResponse code (ErrorBody error None)), w)).
Proof.
  split; intros H; simpl.
  - by erewrite bind_ok by (by apply requireAdmin_next).
  - destruct (requireAdmin_halt session w H) as (code & error & Hcode & Hrun).
    exists code, error. split; [done |].
    by erewrite bind_ok by exact Hrun.
Qed.

Lemma admin_guard_witness :
  let env := exampleEnv 1000 (letters 60) (Ok [Some exampleCompletion])
               (Ok ("d1", 1000)) in
  let session := mkSessionUser "u1" (Some "admin") in
  let req := mkAdminDeleteRequest session "u1" "d9" in
  exists code error,
    (code = 401 \/ code = 403)
    /\ behind [requireAdmin (Some session)] (adminDeleteFile env req) worldG
       = (Ok (mkResponse code (ErrorBody error None)), worldG).
Proof.
  intros env session req.
  apply (admin_guard (Some session) (adminDeleteFile env req) worldG).
  intros (s & u & Hs & _ & Hu & Hrole). injection Hs as <-.
  change (users worldG) with ({[ "u1" := userG ]} : gmap string User) in Hu.
  apply lookup_singleton_Some in Hu as [_ <-]. discriminate Hrole.
Defined.

(** ** Deleting a user *)

(** X13: deleting a user takes the user's documents along and nothing
    else. When the user exists, DELETE /users/:id answers 200, removes
    the row and exactly the documents owned by that user, and leaves the
    other rows and the disk alone; afterwards a session of the deleted
    user gets 404 from GET /me and from an upload, and is stopped by the
    admin guard (an admin who deletes their own account is locked out). *)
Theorem adminDeleteUser_cascade (env : Env) (req : AdminUserRequest) (u : User)
    (w : World) :
  users w !! adminUser_id req = Some u ->
  let id := adminUser_id req in
  let w' := snd (adminDeleteUser env req w) in
  responseStatus (adminDeleteUser env req w) = Some 200
  /\ users w' = delete id (users w)
  /\ (forall k d,
        documents w' !! k = Some d <-> documents w !! k = Some d /\ userId d <> id)
  /\ files w' = files w
  /\ (forall env' session,
        session_id session = id ->
        fst (me env' session w') = Ok (Refused 404 "User not found"))
  /\ (forall env' upload_req file,
        upload_file upload_req = Some file ->
        session_id (upload_session upload_req) = id ->
        fst (upload env' upload_req w')
        = Ok (mkResponse 404 (ErrorBody "User not found" None)))
  /\ (forall session, session_id session = id -> ~ storedAdmin (Some session) w').
Proof.
  intros Hu id w'. subst w'.
  rewrite adminDeleteUser_closed, Hu. fold id.
  set (w1 := mkWorld _ _ _ _ _).
  assert (Hus : users (withAudit env
                         (mkAuditEntry (session_id (adminUser_session req))
                            "DELETE_USER" id) w1) = delete id (users w))
    by (unfold withAudit; by destruct (auditInsert env _)).
  assert (Hds : documents (withAudit env
                         (mkAuditEntry (session_id (adminUser_session req))
                            "DELETE_USER" id) w1)
                = filter (fun row => userId (snd row) <> id) (documents w))
    by (unfold withAudit; by destruct (auditInsert env _)).
  assert (Hfs : files (withAudit env
                         (mkAuditEntry (session_id (adminUser_session req))
                            "DELETE_USER" id) w1) = files w)
    by (unfold withAudit; by destruct (auditInsert env _)).
  cbn [fst snd].
  set (w' := withAudit _ _ w1) in *.
  assert (Hgone : users w' !! id = None) by (rewrite Hus; apply lookup_delete_eq).
  split; [done |]. split; [done |]. split; [| split; [done |]].
  { intros k d. rewrite Hds. apply map_lookup_filter_Some. }
  split; [| split].
  - intros env' session Hs. rewrite me_unknown_user; [done |]. by rewrite Hs.
  - intros env' upload_req file Hfile Hs.
    rewrite (upload_unknown_user env' upload_req file); [done | done |].
    by rewrite Hs.
  - intros session Hs (s & x & Heq & _ & Hx & _). injection Heq as <-.
    rewrite Hs in Hx. congruence.
Qed.

Lemma adminDeleteUser_cascade_witness :
  let env := exampleEnv 1000 (letters 60) (Ok [Some exampleCompletion])
               (Ok ("d1", 1000)) in
  let req := mkAdminUserRequest (mkSessionUser "root" (Some "admin")) "u1" in
  let w' := snd (adminDeleteUser env req worldF) in
  users w' !! "u1" = None
  /\ documents w' !! "d9" = None
  /\ is_Some (users w' !! "u2").
Proof.
  intros env req w'.
  destruct (adminDeleteUser_cascade env req userE worldF)
    as (_ & Hus & Hds & _); [reflexivity |].
  fold w' in Hus, Hds. split; [| split].
  - rewrite Hus. reflexivity.
  - destruct (documents w' !! "d9") as [d |] eqn:Hd; [| reflexivity].
    apply Hds in Hd as [Hd Hne]. exfalso.
    change (documents worldF) with ({[ "d9" := documentE ]} : gmap string Document) in Hd.
    apply lookup_singleton_Some in Hd as [_ <-]. apply Hne. reflexivity.
  - rewrite Hus. vm_compute. eexists. reflexivity.
Defined.

(** ** The rate limiter *)

Section RateLimiter.

Context (windowMs max : Z) (keyGenerator : option (ClientRequest -> Key)).

Lemma serve_cons (now : Z) (req : ClientRequest)
    (rest : list (Z * ClientRequest)) (hits : gmap Key Entry) :
  let step := rateLimiter windowMs max keyGenerator now req hits in
  serve (rateLimiter windowMs max keyGenerator) ((now, req) :: rest) hits
  = (fst step :: fst (serve (rateLimiter windowMs max keyGenerator) rest (snd step)),
     snd (serve (rateLimiter windowMs max keyGenerator) rest (snd step))).
Proof.
  simpl. destruct (rateLimiter windowMs max keyGenerator now req hits) as [v hits'].
  cbn [fst snd].
  by destruct (serve (rateLimiter windowMs max keyGenerator) rest hits').
Qed.

(** A request that opens a window. *)
Lemma rateLimiter_opens (now : Z) (req : ClientRequest) (hits : gmap Key Entry) :
  (forall entry, hits !! getKey req keyGenerator = Some entry ->
                 windowMs < now - entry_start entry) ->
  rateLimiter windowMs max keyGenerator now req hits
  = (Next, <[getKey req keyGenerator := mkEntry now 1]> hits).
Proof.
  intros Hexpired. unfold rateLimiter. cbv zeta.
  destruct (hits !! getKey req keyGenerator) as [entry |]; [| done].
  by rewrite (proj2 (Z.ltb_lt _ _) (Hexpired entry eq_refl)).
Qed.

(** A request inside the window of its bucket. *)
Lemma rateLimiter_inside (now : Z) (req : ClientRequest) (hits : gmap Key Entry)
    (start count : Z) :
  hits !! getKey req keyGenerator = Some (mkEntry start count) ->
  now - start <= windowMs ->
  rateLimiter windowMs max keyGenerator now req hits
  = (if max <? count + 1 then tooMany else Next,
     <[getKey req keyGenerator := mkEntry start (count + 1)]> hits).
Proof.
  intros Hentry Hin. unfold rateLimiter. cbv zeta. rewrite Hentry. simpl.
  rewrite (proj2 (Z.ltb_ge _ _) Hin). by destruct (max <? count + 1).
Qed.

(** The rest of a window: requests for one bucket that arrive while its
    window is open. *)
Lemma serve_inside (key : Key) (start : Z) (rest : list (Z * ClientRequest)) :
  Forall (fun arrival =>
            getKey (snd arrival) keyGenerator = key
            /\ fst arrival - start <= windowMs) rest ->
  forall (count : Z) (hits : gmap Key Entry),
    hits !! key = Some (mkEntry start count) ->
    let outcome := serve (rateLimiter windowMs max keyGenerator) rest hits in
    length (fst outcome) = length rest
    /\ (forall i,
          (i < length rest)%nat ->
          fst outcome !! i
          = Some (if max <? count + Z.of_nat i + 1 then tooMany else Next))
    /\ snd outcome !! key = Some (mkEntry start (count + Z.of_nat (length rest)))
    /\ admitted (fst outcome)
       = Z.max 0 (Z.min (Z.of_nat (length rest)) (max - count)).
Proof.
  induction 1 as [| [now req] rest [Hkey Hin] _ IH]; intros count hits Hentry.
  - simpl. split; [done |]. split; [lia |]. split.
    + by rewrite Z.add_0_r.
    + unfold admitted. simpl. lia.
  - simpl in Hkey, Hin. rewrite serve_cons.
    rewrite (rateLimiter_inside now req hits start count) by (rewrite ?Hkey; done).
    rewrite Hkey. cbn [fst snd].
    destruct (IH (count + 1) (<[key := mkEntry start (count + 1)]> hits))
      as (Hlen & Hnth & Hend & Hadm); [apply lookup_insert_eq |].
    split; [simpl; by rewrite Hlen |]. split; [| split].
    + intros [| i] Hi.
      * simpl. by rewrite Z.add_0_r.
      * simpl. rewrite Hnth by (simpl in Hi; lia).
        by replace (count + Z.of_nat (S i) + 1) with (count + 1 + Z.of_nat i + 1)
          by lia.
    + rewrite Hend. simpl length.
      by replace (count + Z.of_nat (S (length rest)))
        with (count + 1 + Z.of_nat (length rest)) by lia.
    + unfold admitted in *. rewrite filter_cons.
      destruct (max <? count + 1) eqn:E.
      * apply Z.ltb_lt in E. simpl. simpl length in *. lia.
      * apply Z.ltb_ge in E. simpl. simpl length in *. lia.
Qed.

End RateLimiter.

(** X14: what the rate limiter lets through in one window. Take a
    request that opens a window of its bucket (no entry yet, or the last
    window started more than windowMs before) and any number of further
    requests for that bucket that arrive no later than windowMs after it.
    The opening request always passes, the i-th request of the window
    passes exactly when i <= max, the others get 429, and so the number let
    through is min(n, max(max, 1)): at most max per window, but never less
    than one, even for max = 0. *)
Theorem rateLimiter_window (windowMs max : Z)
    (keyGenerator : option (ClientRequest -> Key))
    (start : Z) (first : ClientRequest) (rest : list (Z * ClientRequest))
    (hits : gmap Key Entry) :
  let key := getKey first keyGenerator in
  (forall entry, hits !! key = Some entry -> windowMs < start - entry_start entry) ->
  Forall (fun arrival =>
            getKey (snd arrival) keyGenerator = key
            /\ fst arrival - start <= windowMs) rest ->
  let verdicts :=
    fst (serve (rateLimiter windowMs max keyGenerator) ((start, first) :: rest) hits) in
  length verdicts = S (length rest)
  /\ (forall i,
        (i <= length rest)%nat ->
        verdicts !! i
        = Some (if bool_decide (i = O \/ Z.of_nat i + 1 <= max)
                then Next else tooMany))
  /\ admitted verdicts
     = Z.min (Z.of_nat (S (length rest))) (Z.max max 1).
Proof.
  intros key Hopen Hrest verdicts. subst verdicts.
  rewrite serve_cons, rateLimiter_opens by done. fold key. cbn [fst snd].
  destruct (serve_inside windowMs max keyGenerator key start rest Hrest 1
              (<[key := mkEntry start 1]> hits))
    as (Hlen & Hnth & _ & Hadm); [apply lookup_insert_eq |].
  cbv zeta in *.
  split; [simpl; by rewrite Hlen |]. split.
  - intros [| i] Hi; [done |]. simpl. rewrite Hnth by lia. f_equal.
    destruct (max <? 1 + Z.of_nat i + 1) eqn:E.
    + apply Z.ltb_lt in E. rewrite bool_decide_eq_false_2; [done | lia].
    + apply Z.ltb_ge in E. rewrite bool_decide_eq_true_2; [done | lia].
  - unfold admitted in *. rewrite filter_cons. simpl. simpl length in *. lia.
Qed.

Lemma rateLimiter_window_witness :
  let req := mkClientRequest None (Some (js "10.0.0.7")) None in
  admitted
    (fst (serve (rateLimiter 60000 2 None)
            [(0, req); (10, req); (20, req); (60000, req)] ∅))
  = 2.
Proof.
  intros req.
  destruct (rateLimiter_window 60000 2 None 0 req
              [(10, req); (20, req); (60000, req)] ∅) as (_ & _ & Hadm).
  - intros entry Hentry. rewrite lookup_empty in Hentry. discriminate Hentry.
  - repeat constructor; simpl; lia.
  - exact Hadm.
Defined.

Lemma rateLimiter_other_key (windowMs max : Z)
    (keyGenerator : option (ClientRequest -> Key)) (now : Z) (req : ClientRequest)
    (hits : gmap Key Entry) (key : Key) :
  getKey req keyGenerator <> key ->
  snd (rateLimiter windowMs max keyGenerator now req hits) !! key = hits !! key.
Proof.
  intros Hne. unfold rateLimiter. cbv zeta.
  destruct (hits !! getKey req keyGenerator) as [entry |];
    [destruct (windowMs <? _); [| destruct (max <? _)] |];
    cbn [snd]; by rewrite lookup_insert_ne.
Qed.

Lemma rateLimiter_same_entry (windowMs max : Z)
    (keyGenerator : option (ClientRequest -> Key)) (now : Z) (req : ClientRequest)
    (hits hits' : gmap Key Entry) :
  let key := getKey req keyGenerator in
  hits !! key = hits' !! key ->
  fst (rateLimiter windowMs max keyGenerator now req hits)
  = fst (rateLimiter windowMs max keyGenerator now req hits')
  /\ snd (rateLimiter windowMs max keyGenerator now req hits) !! key
     = snd (rateLimiter windowMs max keyGenerator now req hits') !! key.
Proof.
  intros key Hsame. unfold rateLimiter. cbv zeta. fold key. rewrite <- Hsame.
  destruct (hits !! key) as [entry |];
    [destruct (windowMs <? _); [| destruct (max <? _)] |];
    cbn [fst snd]; by rewrite !lookup_insert_eq.
Qed.

(** X15: the buckets of the rate limiter are independent. In any stream
    of requests, the verdicts given to the requests of one bucket, and
    the entry of that bucket at the end, are those the limiter would have
    given had the requests of all other buckets never been made. *)
Theorem rateLimiter_isolation (windowMs max : Z)
    (keyGenerator : option (ClientRequest -> Key)) (key : Key)
    (arrivals : list (Z * ClientRequest)) (hits hits' : gmap Key Entry) :
  hits !! key = hits' !! key ->
  let limiter := rateLimiter windowMs max keyGenerator in
  let all := serve limiter arrivals hits in
  let alone := serve limiter (arrivalsOf keyGenerator key arrivals) hits' in
  verdictsOf keyGenerator key arrivals (fst all) = fst alone
  /\ snd all !! key = snd alone !! key.
Proof.
  intros Hsame limiter all alone. subst all alone limiter.
  revert hits hits' Hsame.
  induction arrivals as [| [now req] rest IH]; intros hits hits' Hsame; [done |].
  rewrite serve_cons. unfold arrivalsOf, verdictsOf. cbn [fst snd zip zip_with].
  rewrite !filter_cons. cbn [fst snd].
  destruct (decide (getKey req keyGenerator = key)) as [Hkey | Hkey].
  - rewrite serve_cons. cbn [fst snd]. subst key.
    destruct (rateLimiter_same_entry windowMs max keyGenerator now req hits hits'
                Hsame) as [Hv Hentry].
    destruct (IH _ _ Hentry) as [IH1 IH2].
    split; [| exact IH2].
    rewrite fmap_cons. cbn [snd]. rewrite Hv. f_equal. exact IH1.
  - apply IH. by rewrite rateLimiter_other_key.
Qed.

Lemma rateLimiter_isolation_witness :
  let alice := mkClientRequest None (Some (js "10.0.0.7")) None in
  let bob := mkClientRequest None (Some (js "10.0.0.8")) None in
  verdictsOf None (Some (js "10.0.0.7"))
    [(0, alice); (1, bob); (2, alice); (3, bob); (4, alice)]
    (fst (serve (rateLimiter 60000 2 None)
            [(0, alice); (1, bob); (2, alice); (3, bob); (4, alice)] ∅))
  = fst (serve (rateLimiter 60000 2 None) [(0, alice); (2, alice); (4, alice)] ∅).
Proof.
  intros alice bob.
  apply (rateLimiter_isolation 60000 2 None (Some (js "10.0.0.7"))
           [(0, alice); (1, bob); (2, alice); (3, bob); (4, alice)] ∅ ∅).
  reflexivity.
Defined.

(** ** The limiter of the admin router *)

Lemma js_inj (s t : string) : js s = js t -> s = t.
Proof.
  unfold js. intros H.
  apply (f_equal (map Ascii.ascii_of_N)) in H.
  rewrite !map_map in H.
  assert (Hback : forall l : list Ascii.ascii,
            map (fun a => Ascii.ascii_of_N (Ascii.N_of_ascii a)) l = l).
  { intros l. induction l as [| a l IH]; [done |].
    simpl. by rewrite Ascii.ascii_N_embedding, IH. }
  rewrite !Hback in H.
  rewrite <- (String.string_of_list_ascii_of_string s),
          <- (String.string_of_list_ascii_of_string t).
  by rewrite H.
Qed.

Lemma adminKeyGenerator_account (req : ClientRequest) (account : SessionUser) :
  client_session req = Some account ->
  session_id account <> "" ->
  getKey req (Some adminKeyGenerator) = Some (js (session_id account)).
Proof.
  intros Hs Hid. unfold getKey, adminKeyGenerator. rewrite Hs.
  by rewrite bool_decide_eq_false_2.
Qed.

(** X16: the admin router limits each account to 120 requests per
    window of one minute, wherever the requests come from. When the
    requests of a signed-in account arrive within 60000 ms of the first
    one with no window open for it, exactly the first 120 pass, whatever
    their address, forwarding header or session role; and two accounts
    with different ids never share a bucket. *)
Theorem adminLimiter_per_account (account : SessionUser) (start : Z)
    (first : ClientRequest) (rest : list (Z * ClientRequest))
    (hits : gmap Key Entry) :
  session_id account <> "" ->
  client_session first = Some account ->
  Forall (fun arrival =>
            (exists session,
               client_session (snd arrival) = Some session
               /\ session_id session = session_id account)
            /\ fst arrival - start <= 60000) rest ->
  hits !! Some (js (session_id account)) = None ->
  admitted (fst (serve adminLimiter ((start, first) :: rest) hits))
  = Z.min (Z.of_nat (S (length rest))) 120
  /\ forall other req,
       client_session req = Some other ->
       session_id other <> "" ->
       session_id other <> session_id account ->
       getKey req (Some adminKeyGenerator) <> getKey first (Some adminKeyGenerator).
Proof.
  intros Hid Hfirst Hrest Hfresh.
  pose proof (adminKeyGenerator_account first account Hfirst Hid) as Hkey.
  split.
  - unfold adminLimiter, createRateLimiter. simpl default.
    rewrite serve_cons, rateLimiter_opens.
    2: { intros entry Hentry. rewrite Hkey in Hentry.
         pose proof (eq_trans (eq_sym Hentry) Hfresh) as Hno. discriminate Hno. }
    cbn [fst snd].
    destruct (serve_inside 60000 120 (Some adminKeyGenerator)
                (getKey first (Some adminKeyGenerator)) start rest) with
      (count := 1)
      (hits := <[getKey first (Some adminKeyGenerator) := mkEntry start 1]> hits)
      as (_ & _ & _ & Hadm).
    + eapply Forall_impl; [exact Hrest |].
      intros [now req] [(session & Hs & Hsame) Hin]. cbn [fst snd] in *.
      split; [| done]. rewrite Hkey.
      rewrite (adminKeyGenerator_account req session Hs) by (by rewrite Hsame).
      by rewrite Hsame.
    + apply lookup_insert_eq.
    + cbv zeta in Hadm. unfold admitted in *. rewrite filter_cons.
      simpl. simpl length in *. lia.
  - intros other req Hs Hother Hne.
    rewrite Hkey, (adminKeyGenerator_account req other Hs Hother).
    intros [= Heq]. by apply js_inj in Heq.
Qed.

Lemma adminLimiter_per_account_witness :
  let root := mkSessionUser "root" (Some "admin") in
  let office := mkClientRequest None (Some (js "10.0.0.7")) (Some root) in
  let home := mkClientRequest (Some (js "203.0.113.9, 10.0.0.1")) None (Some root) in
  admitted (fst (serve adminLimiter [(0, office); (5, home); (60000, office)] ∅))
  = 3.
Proof.
  intros root office home.
  destruct (adminLimiter_per_account root 0 office [(5, home); (60000, office)] ∅)
    as [Hadm _].
  - discriminate.
  - reflexivity.
  - repeat constructor; try (exists root; split; reflexivity); simpl; lia.
  - reflexivity.
  - exact Hadm.
Defined.

(** ** [toNumber] and the answer of the user route *)

Lemma numberOfBigInt_exact (z : Z) :
  Z.abs z <= 2 ^ 53 -> numberOfBigInt z = z.
Proof.
  intros Hz. destruct (decide (Z.abs z = 2 ^ 53)) as [Heq | Hne].
  - destruct (Z.abs_eq_or_opp z) as [H | H]; rewrite H in Heq.
    + subst z. vm_compute. reflexivity.
    + assert (z = - 2 ^ 53) as -> by lia. vm_compute. reflexivity.
  - unfold numberOfBigInt. cbv zeta.
    assert (Hlog : Z.log2 (Z.abs z) + 1 - 53 <= 0).
    { destruct (decide (Z.abs z = 0)) as [-> | Hpos]; [simpl; lia |].
      assert (Z.log2 (Z.abs z) < 53); [| lia].
      apply Z.log2_lt_pow2; lia. }
    by rewrite (proj2 (Z.leb_le _ _) Hlog).
Qed.

(** X17: the storage figure of GET /me. For an existing user the route
    serves exactly the documents owned by the session's user, and a
    storageUsed that is 0 when the counter is null and the counter itself
    when it is at most 2^53 in absolute value, the bound up to which
    [toNumber] is exact (2^53 + 1 is served as 2^53). *)
Theorem me_storage_and_documents (env : Env) (session : SessionUser) (u : User)
    (w : World) :
  users w !! session_id session = Some u ->
  user_id u = session_id session ->
  exists body,
    fst (me env session w) = Ok (Served body)
    /\ (forall d,
          d ∈ me_documents body
          <-> exists id,
                documents w !! id = Some d /\ userId d = session_id session)
    /\ (storageUsed u = None -> me_storageUsed (me_user body) = 0)
    /\ (forall s,
          storageUsed u = Some s -> Z.abs s <= 2 ^ 53 ->
          me_storageUsed (me_user body) = s)
    /\ toNumber (OfBigInt (2 ^ 53 + 1)) 0 = 2 ^ 53.
Proof.
  intros Hu Hid.
  rewrite (me_run env session u w Hu Hid). cbv zeta.
  eexists. split; [reflexivity |]. cbn [fst me_user me_documents me_storageUsed].
  assert (Hstorage : storageUsed (afterReset env u) = storageUsed u)
    by (unfold afterReset; by destruct (Qltb _ _)).
  unfold storageColumn. rewrite Hstorage.
  split; [| split; [| split]].
  - intros d. unfold documentsOf, documentRows.
    rewrite list_elem_of_filter, list_elem_of_fmap. split.
    + intros (Hown & [k d'] & -> & Hin). exists k. split; [| done].
      by apply elem_of_map_to_list in Hin.
    + intros (k & Hd & Hown). split; [done |]. exists (k, d). split; [done |].
      by apply elem_of_map_to_list.
  - by intros ->.
  - intros s -> Hs. simpl. by apply numberOfBigInt_exact.
  - vm_compute. reflexivity.
Qed.

Lemma me_storage_and_documents_witness :
  let env := exampleEnv 1000 (letters 60) (Ok [Some exampleCompletion])
               (Ok ("d1", 1000)) in
  exists body,
    fst (me env (mkSessionUser "u1" (Some "user")) worldG) = Ok (Served body)
    /\ me_storageUsed (me_user body) = 1000000.
Proof.
  intros env.
  destruct (me_storage_and_documents env (mkSessionUser "u1" (Some "user")) userG
              worldG) as (body & Hbody & _ & _ & Hs & _);
    [reflexivity | reflexivity |].
  exists body. split; [exact Hbody |].
  apply Hs; [reflexivity | vm_compute; discriminate].
Defined.

(** ** The address of a client *)

Lemma firstField_app (a rest : jsstring) :
  44%N ∉ a -> firstField (a ++ 44%N :: rest) = a.
Proof.
  induction a as [| c a IH]; intros Hno; [done |].
  apply not_elem_of_cons in Hno as [Hc Ha]. simpl.
  destruct (N.eqb_spec c 44) as [-> | _]; [done |]. by rewrite IH.
Qed.

Lemma firstField_whole (a : jsstring) : 44%N ∉ a -> firstField a = a.
Proof.
  induction a as [| c a IH]; intros Hno; [done |].
  apply not_elem_of_cons in Hno as [Hc Ha]. simpl.
  destruct (N.eqb_spec c 44) as [-> | _]; [done |]. by rewrite IH.
Qed.

Lemma ipOrUnknown_nonempty (req : ClientRequest) : ipOrUnknown req <> [].
Proof. unfold ipOrUnknown. by destruct (client_ip req) as [[| c rest] |]. Qed.

(** X18: the address recorded for a client is the left-most entry of
    x-forwarded-for. When the header is a non-empty string, [getIpAddress]
    is its text before the first comma (the whole text when there is no
    comma), trimmed, whatever [req.ip] is; without the header, or with an
    empty one, it is [req.ip], or the word unknown when [req.ip] is missing
    or empty, and so never empty. The default key of the rate limiter is
    the same value. *)
Theorem client_address (req : ClientRequest) :
  getKey req None = Some (getIpAddress req)
  /\ (forall a rest,
        44%N ∉ a -> client_forwardedFor req = Some (a ++ 44%N :: rest) ->
        getIpAddress req = trim a)
  /\ (forall a,
        44%N ∉ a -> a <> [] -> client_forwardedFor req = Some a ->
        getIpAddress req = trim a)
  /\ (client_forwardedFor req = None \/ client_forwardedFor req = Some [] ->
      getIpAddress req = ipOrUnknown req /\ getIpAddress req <> []).
Proof.
  split; [| split; [| split]].
  - unfold getKey, getIpAddress.
    by destruct (client_forwardedFor req) as [[| c rest] |].
  - intros a rest Hno Hh. unfold getIpAddress. rewrite Hh.
    destruct (a ++ 44%N :: rest) as [| c l] eqn:E.
    + by destruct a.
    + by rewrite <- E, firstField_app.
  - intros a Hno Hne Hh. unfold getIpAddress. rewrite Hh.
    destruct a as [| c l]; [done |]. by rewrite firstField_whole.
  - intros Hh. unfold getIpAddress.
    destruct Hh as [-> | ->]; (split; [done | apply ipOrUnknown_nonempty]).
Qed.

Lemma client_address_witness :
  getIpAddress
    (mkClientRequest (Some (js " 203.0.113.9 , 10.0.0.1")) (Some (js "10.0.0.1")) None)
  = js "203.0.113.9".
Proof.
  destruct (client_address
              (mkClientRequest (Some (js " 203.0.113.9 , 10.0.0.1"))
                 (Some (js "10.0.0.1")) None)) as (_ & Hleft & _).
  rewrite (Hleft (js " 203.0.113.9 ") (js " 10.0.0.1")).
  - vm_compute. reflexivity.
  - vm_compute. intros H. repeat (apply elem_of_cons in H as [H | H]; [discriminate H |]).
    by apply elem_of_nil in H.
  - reflexivity.
Defined.

(** X19: an email on the admin list is promoted on the first request. When
    the session's lowered email is one of ADMIN_EMAILS, the session does
    not yet carry the role admin and the user row exists, [requireAuth]
    lets the request through with the role admin on the session, writes
    the role admin to the row and touches nothing else, so that the admin
    guard that follows lets the same request through to its handler. *)
Theorem requireAuth_elevation (auth : AuthEnv) (session : Session)
    (user : AuthUser) (u : User) (w : World) :
  getSession auth = Ok (Some session) ->
  session_user session = Some user ->
  listed auth session ->
  auth_role user <> Some "admin" ->
  auth_id user <> "" ->
  users w !! auth_id user = Some u ->
  let outcome := requireAuth auth w in
  let promoted := mkAuthUser (auth_id user) (Some "admin") (auth_email user) in
  fst outcome = Ok (Accepted (mkSession (Some promoted)))
  /\ users (snd outcome) = <[auth_id user := withRole (Some "admin") u]> (users w)
  /\ documents (snd outcome) = documents w
  /\ files (snd outcome) = files w
  /\ forall handler,
       behind [requireAdmin (Some (sessionUser promoted))] handler (snd outcome)
       = handler (snd outcome).
Proof.
  intros Hsession Huser Hlisted Hrole Hid Hu outcome promoted. subst outcome.
  rewrite (requireAuth_run auth session user w Hsession Huser). cbv zeta.
  rewrite (bool_decide_eq_true_2 _ Hlisted), (bool_decide_eq_false_2 _ Hrole), Hu.
  cbn [negb andb fst snd].
  split; [unfold elevate; by rewrite Huser |].
  split; [done |]. split; [done |]. split; [done |].
  intros handler. simpl behind.
  assert (Hadmin : storedAdmin (Some (sessionUser promoted))
                     (setUsers (insert (auth_id user) (withRole (Some "admin") u)) w)).
  { exists (sessionUser promoted), (withRole (Some "admin") u).
    split; [done |]. split; [done |]. split; [| done].
    simpl. apply lookup_insert_eq. }
  by erewrite bind_ok by (by apply requireAdmin_next).
Qed.

Lemma requireAuth_elevation_witness :
  let user := mkAuthUser "u1" (Some "user") (Some (js "Dean@Example.org")) in
  let auth := exampleAuth user "root@example.org, dean@example.org" in
  users (snd (requireAuth auth worldG)) !! "u1"
  = Some (withRole (Some "admin") userG).
Proof.
  intros user auth.
  destruct (requireAuth_elevation auth (mkSession (Some user)) user userG worldG)
    as (_ & Hus & _).
  - reflexivity.
  - reflexivity.
  - vm_compute. do 2 constructor.
  - discriminate.
  - discriminate.
  - reflexivity.
  - rewrite Hus. apply lookup_insert_eq.
Defined.

(** X20: [requireAuth] only ever promotes. It always answers (a store
    failure does not fail the request), leaves documents and files alone,
    and changes no row except, possibly, by writing the role admin to it;
    for a session whose email is not on the list, a session without an
    email among them, it lets the request through with the session as it
    is and changes nothing, so taking an email off the list revokes
    nothing. With ADMIN_EMAILS unset or empty nobody is on the list
    (lowering the empty string gives the empty string). *)
Theorem requireAuth_only_promotes (auth : AuthEnv) (w : World) :
  let outcome := requireAuth auth w in
  (exists answer, fst outcome = Ok answer)
  /\ documents (snd outcome) = documents w
  /\ files (snd outcome) = files w
  /\ (forall id,
        users (snd outcome) !! id = users w !! id
        \/ exists u,
             users w !! id = Some u
             /\ users (snd outcome) !! id = Some (withRole (Some "admin") u))
  /\ (forall session,
        getSession auth = Ok (Some session) -> ~ listed auth session ->
        outcome = (Ok (Accepted session), w))
  /\ (forall session, emailOf auth session = [] -> ~ listed auth session)
  /\ (default [] (ADMIN_EMAILS auth) = [] -> toLowerCase auth [] = [] ->
      forall session, ~ listed auth session).
Proof.
  intros outcome. subst outcome.
  assert (Hunlisted : forall session,
            getSession auth = Ok (Some session) -> ~ listed auth session ->
            requireAuth auth w = (Ok (Accepted session), w)).
  { intros session Hsession Hno.
    destruct (session_user session) as [user |] eqn:Huser.
    - rewrite (requireAuth_run auth session user w Hsession Huser). cbv zeta.
      rewrite (bool_decide_eq_false_2 _ Hno). cbn [andb].
      destruct (users w !! auth_id user) as [u |] eqn:Hu; [| done].
      by rewrite setUsers_insert_id.
    - by apply requireAuth_no_user. }
  assert (Hmain :
    (exists answer, fst (requireAuth auth w) = Ok answer)
    /\ documents (snd (requireAuth auth w)) = documents w
    /\ files (snd (requireAuth auth w)) = files w
    /\ forall id,
         users (snd (requireAuth auth w)) !! id = users w !! id
         \/ exists u,
              users w !! id = Some u
              /\ users (snd (requireAuth auth w)) !! id
                 = Some (withRole (Some "admin") u)).
  { destruct (getSession auth) as [[session |] | e] eqn:Hsession.
    - destruct (session_user session) as [user |] eqn:Huser.
      + rewrite (requireAuth_run auth session user w Hsession Huser). cbv zeta.
        cbn [fst snd]. split; [by eexists |].
        destruct (users w !! auth_id user) as [u |] eqn:Hu;
          [| split; [done |]; split; [done |]; by left].
        split; [done |]. split; [done |].
        intros id. simpl. rewrite lookup_insert. case_decide as Hid; [| by left].
        subst id. rewrite Hu.
        destruct (_ && _); [right; by exists u | by left].
      + rewrite (requireAuth_no_user auth session w Hsession Huser).
        split; [by eexists |]. split; [done |]. split; [done |]. by left.
    - rewrite (requireAuth_no_session auth w Hsession).
      split; [by eexists |]. split; [done |]. split; [done |]. by left.
    - rewrite (requireAuth_failed auth e w Hsession).
      split; [by eexists |]. split; [done |]. split; [done |]. by left. }
  destruct Hmain as (H1 & H2 & H3 & H4).
  split; [done |]. split; [done |]. split; [done |]. split; [done |].
  split; [done |]. split.
  - intros session Hnil Hlisted. by apply listed_email in Hlisted.
  - intros Hraw Hlower session. unfold listed, parseAdminEmails.
    rewrite Hraw. cbn [splitComma fmap list_fmap].
    change (trim []) with (@nil N). rewrite Hlower.
    rewrite filter_cons, decide_False by (intros H; by apply H).
    rewrite filter_nil. apply not_elem_of_nil.
Qed.

Lemma requireAuth_only_promotes_witness :
  let user := mkAuthUser "u1" (Some "user") None in
  let auth := exampleAuth user "root@example.org, dean@example.org" in
  requireAuth auth worldG = (Ok (Accepted (mkSession (Some user))), worldG).
Proof.
  intros user auth.
  destruct (requireAuth_only_promotes auth worldG)
    as (_ & _ & _ & _ & Hno & Hmail & _).
  apply Hno; [reflexivity |]. apply Hmail. reflexivity.
Defined.

(** ** Windows and memory of the rate limiter *)

Lemma serve_app
    (limiter : Z -> ClientRequest -> gmap Key Entry -> Verdict * gmap Key Entry)
    (before later : list (Z * ClientRequest)) (hits : gmap Key Entry) :
  serve limiter (before ++ later) hits
  = (fst (serve limiter before hits)
       ++ fst (serve limiter later (snd (serve limiter before hits))),
     snd (serve limiter later (snd (serve limiter before hits)))).
Proof.
  revert hits. induction before as [| [now req] rest IH]; intros hits.
  - simpl. by destruct (serve limiter later hits).
  - simpl. destruct (limiter now req hits) as [v hits1]. rewrite IH.
    destruct (serve limiter rest hits1) as [vs hits2]. simpl.
    by destruct (serve limiter later hits2).
Qed.

(** X21: the windows of the rate limiter are fixed, not sliding. A window
    lasts windowMs from the request that opened it, however many requests
    are refused in it: the first request of the bucket that arrives more
    than windowMs after the opening one passes, and opens a new window
    with a count of 1. *)
Theorem rateLimiter_next_window (windowMs max : Z)
    (keyGenerator : option (ClientRequest -> Key))
    (start : Z) (first : ClientRequest) (rest : list (Z * ClientRequest))
    (later : Z) (req : ClientRequest) (hits : gmap Key Entry) :
  let key := getKey first keyGenerator in
  (forall entry, hits !! key = Some entry -> windowMs < start - entry_start entry) ->
  Forall (fun arrival =>
            getKey (snd arrival) keyGenerator = key
            /\ fst arrival - start <= windowMs) rest ->
  getKey req keyGenerator = key ->
  windowMs < later - start ->
  let outcome :=
    serve (rateLimiter windowMs max keyGenerator)
      ((start, first) :: rest ++ [(later, req)]) hits in
  last (fst outcome) = Some Next
  /\ snd outcome !! key = Some (mkEntry later 1).
Proof.
  intros key Hopen Hrest Hkey Hlate outcome. subst outcome.
  rewrite serve_cons, rateLimiter_opens by done. fold key. cbn [fst snd].
  rewrite serve_app. cbn [fst snd].
  destruct (serve_inside windowMs max keyGenerator key start rest Hrest 1
              (<[key := mkEntry start 1]> hits))
    as (_ & _ & Hend & _); [apply lookup_insert_eq |].
  cbv zeta in Hend.
  set (hits1 := snd (serve (rateLimiter windowMs max keyGenerator) rest
                       (<[key := mkEntry start 1]> hits))) in *.
  assert (Hstep : rateLimiter windowMs max keyGenerator later req hits1
                  = (Next, <[key := mkEntry later 1]> hits1)).
  { rewrite rateLimiter_opens; [by rewrite Hkey |].
    intros entry. rewrite Hkey, Hend. by intros [= <-]. }
  assert (Hlast : serve (rateLimiter windowMs max keyGenerator) [(later, req)] hits1
                  = ([Next], <[key := mkEntry later 1]> hits1))
    by (rewrite serve_cons, Hstep; reflexivity).
  rewrite Hlast. cbn [fst snd]. split.
  - rewrite app_comm_cons. apply last_snoc.
  - apply lookup_insert_eq.
Qed.

Lemma rateLimiter_next_window_witness :
  let req := mkClientRequest None (Some (js "10.0.0.7")) None in
  last (fst (serve (rateLimiter 60000 1 None)
               [(0, req); (10, req); (59999, req); (60001, req)] ∅))
  = Some Next.
Proof.
  intros req.
  destruct (rateLimiter_next_window 60000 1 None 0 req [(10, req); (59999, req)]
              60001 req ∅) as [Hlast _].
  - intros entry Hentry. rewrite lookup_empty in Hentry. discriminate Hentry.
  - repeat constructor; simpl; lia.
  - reflexivity.
  - lia.
  - exact Hlast.
Defined.

Lemma rateLimiter_dom (windowMs max : Z)
    (keyGenerator : option (ClientRequest -> Key)) (now : Z) (req : ClientRequest)
    (hits : gmap Key Entry) :
  dom (snd (rateLimiter windowMs max keyGenerator now req hits))
  = {[ getKey req keyGenerator ]} ∪ dom hits.
Proof.
  unfold rateLimiter. cbv zeta.
  destruct (hits !! getKey req keyGenerator) as [entry |];
    [destruct (windowMs <? _); [| destruct (max <? _)] |];
    cbn [snd]; by rewrite dom_insert_L.
Qed.

(** X22: the rate limiter never forgets a bucket. After any stream of
    requests, the keys of its map are the keys it had before together
    with the key of every request it has seen, admitted or refused: no
    entry is ever removed, so the map grows with the number of distinct
    keys. *)
Theorem rateLimiter_never_forgets (windowMs max : Z)
    (keyGenerator : option (ClientRequest -> Key))
    (arrivals : list (Z * ClientRequest)) (hits : gmap Key Entry) :
  dom (snd (serve (rateLimiter windowMs max keyGenerator) arrivals hits))
  = dom hits
    ∪ list_to_set ((fun arrival => getKey (snd arrival) keyGenerator) <$> arrivals).
Proof.
  revert hits. induction arrivals as [| [now req] rest IH]; intros hits.
  - simpl. by rewrite union_empty_r_L.
  - rewrite serve_cons. cbn [snd]. rewrite IH, rateLimiter_dom.
    rewrite fmap_cons, list_to_set_cons. cbn [snd].
    rewrite (comm_L (∪) _ (dom hits)). by rewrite <- (assoc_L (∪)).
Qed.
